(** * deploy.py: Terraform + Ansible deployment script

    A shallow embedding of [src/deploy.py] and the properties of its
    orchestration: readiness polling, the inventory edit, the substitution
    of the variables template and the bounded retry of the playbook.

    Python [str] values are lists of characters.  Characters are the code
    points below 256, which is where every literal of the script lives; the
    classes [\s] and [\d] of [re] are given for that range as [str]
    patterns see them. *)

From Stdlib Require Import Ascii String.
From Stdlib Require Import List ZArith Lia Bool Arith PeanoNat.
Import ListNotations.

Set Implicit Arguments.

(** ** Text *)

Definition text := list ascii.

Definition txt (s : string) : text := list_ascii_of_string s.
Arguments txt s%_string.

Definition newline : ascii := "010"%char.
Definition dquote : ascii := "034"%char.
Definition backslash : ascii := "092"%char.

Definition ascii_eqb (a b : ascii) : bool := Ascii.eqb a b.

Definition is_newline (c : ascii) : bool := ascii_eqb c newline.

(** [str.isspace] on code points below 256: TAB..CR, FS..US, SPACE, NEL
    and NBSP.  This is the class [\s] of a [str] pattern. *)
Definition is_space (c : ascii) : bool :=
  let n := nat_of_ascii c in
  ((9 <=? n) && (n <=? 13)) || ((28 <=? n) && (n <=? 32))
  || (n =? 133) || (n =? 160).

(** The class [\d] of a [str] pattern: below 256 the decimal digits are
    0..9 only. *)
Definition is_digit (c : ascii) : bool :=
  let n := nat_of_ascii c in (48 <=? n) && (n <=? 57).

Definition is_octal (c : ascii) : bool :=
  let n := nat_of_ascii c in (48 <=? n) && (n <=? 55).

Definition is_ascii_letter (c : ascii) : bool :=
  let n := nat_of_ascii c in
  ((65 <=? n) && (n <=? 90)) || ((97 <=? n) && (n <=? 122)).

Fixpoint take_while (p : ascii -> bool) (s : text) : text :=
  match s with
  | c :: s' => if p c then c :: take_while p s' else []
  | [] => []
  end.

Fixpoint drop_while (p : ascii -> bool) (s : text) : text :=
  match s with
  | c :: s' => if p c then drop_while p s' else s
  | [] => []
  end.

(** [s.startswith(lit)], returning what follows [lit]. *)
Fixpoint strip_prefix (lit s : text) : option text :=
  match lit, s with
  | [], _ => Some s
  | a :: lit', b :: s' => if ascii_eqb a b then strip_prefix lit' s' else None
  | _ :: _, [] => None
  end.

Definition starts_with (lit s : text) : bool :=
  match strip_prefix lit s with Some _ => true | None => false end.

(** [lit in s] *)
Fixpoint contains (lit s : text) : bool :=
  starts_with lit s ||
  match s with
  | [] => false
  | _ :: s' => contains lit s'
  end.

(** [s.strip()] *)
Definition strip (s : text) : text :=
  rev (drop_while is_space (rev (drop_while is_space s))).

(** [s.split("\n")] *)
Fixpoint lines (s : text) : list text :=
  match s with
  | [] => [[]]
  | c :: s' =>
      if is_newline c then [] :: lines s'
      else match lines s' with
           | l :: ls => (c :: l) :: ls
           | [] => [[c]]
           end
  end.

Definition count_newlines (s : text) : nat :=
  length (filter is_newline s).

(** ** External commands and exceptions *)

(** The shell commands the script runs through [run_command]. *)
Inductive command :=
| TerraformVersion
| AnsibleVersion
| AwsGetCallerIdentity
| SshKeygen
| TerraformInit
| TerraformPlan
| TerraformApply
| TerraformOutput (name : string)
| Ec2GetPasswordData (instance_id region : text)
| TerraformDestroy.

(** What [re] reports about a replacement template it cannot parse. *)
Inductive re_diag :=
| BadEscapeEnd
| BadEscape (c : ascii)
| MissingLt
| UnterminatedName
| MissingGroupName
| BadGroupName (name : text)
| InvalidGroupReference (n : N)
| OctalOutOfRange (digits : text).

Inductive exn :=
| ReError (d : re_diag)
| OSError (what : string)
| IndexError
| CalledProcessError (cmd : command).

Inductive result (A : Type) :=
| Ok (a : A)
| Err (e : exn).
Arguments Ok {A} a.
Arguments Err {A} e.

(** ** The fragment of [re] the script uses *)

Module Re.

(** A pattern is a sequence of nodes; the two patterns of the script need
    the line anchor of [re.MULTILINE], literal text and greedy repetition
    of a character class. *)
Inductive node :=
| Bol
| Chars (lit : text)
| Many (lo : nat) (cls : ascii -> bool).

(** The script's patterns have one capturing group, which is a prefix of
    the pattern. *)
Record pattern := { group1 : list node; tail : list node }.

(** Whether the position after [consumed] is at the beginning of a line. *)
Definition bol_after (bol : bool) (consumed : text) : bool :=
  match rev consumed with
  | c :: _ => is_newline c
  | [] => bol
  end.

(** A greedy repetition first takes the longest run and gives characters
    back one at a time while the rest of the pattern, [k], fails. *)
Fixpoint give_back {R : Type} (lo : nat) (k : nat -> option R) (j : nat)
  : option R :=
  match (if lo <=? j then k j else None) with
  | Some r => Some r
  | None => match j with
            | 0 => None
            | S j' => give_back lo k j'
            end
  end.

(** Backtracking matcher in continuation-passing style. *)
Fixpoint match_nodes {R : Type} (ns : list node) (bol : bool) (s : text)
    (k : bool -> text -> option R) {struct ns} : option R :=
  match ns with
  | [] => k bol s
  | Bol :: ns' => if bol then match_nodes ns' bol s k else None
  | Chars lit :: ns' =>
      match strip_prefix lit s with
      | Some r => match_nodes ns' (bol_after bol lit) r k
      | None => None
      end
  | Many lo cls :: ns' =>
      give_back lo
        (fun j => match_nodes ns' (bol_after bol (firstn j s)) (skipn j s) k)
        (length (take_while cls s))
  end.

(** A match at the start of [s]: the text of group 1, the text matched
    after it, and the rest of the subject. *)
Definition match_at (p : pattern) (bol : bool) (s : text)
  : option (text * text * text) :=
  match_nodes (group1 p) bol s (fun b1 s1 =>
    match_nodes (tail p) b1 s1 (fun _ s2 =>
      Some (firstn (length s - length s1) s,
            firstn (length s1 - length s2) s1,
            s2))).

(** *** Replacement templates *)

Inductive item :=
| Lit (c : ascii)
| Group (n : N).

Definition digit_value (c : ascii) : N := N_of_ascii c - 48.

Definition decimal (ds : text) : N :=
  fold_left (fun acc d => (10 * acc + digit_value d)%N) ds 0%N.

Definition octal (ds : text) : N :=
  fold_left (fun acc d => (8 * acc + digit_value d)%N) ds 0%N.

(** The escapes [re] knows in a template. *)
Definition escape_char (c : ascii) : option ascii :=
  if ascii_eqb c "a" then Some "007"%char
  else if ascii_eqb c "b" then Some "008"%char
  else if ascii_eqb c "f" then Some "012"%char
  else if ascii_eqb c "n" then Some "010"%char
  else if ascii_eqb c "r" then Some "013"%char
  else if ascii_eqb c "t" then Some "009"%char
  else if ascii_eqb c "v" then Some "011"%char
  else if ascii_eqb c backslash then Some backslash
  else None.

Definition add_group (groups : N) (index : N) (rest : result (list item))
  : result (list item) :=
  if (groups <? index)%N then Err (ReError (InvalidGroupReference index))
  else match rest with
       | Ok items => Ok (Group index :: items)
       | Err e => Err e
       end.

Definition add_literal (c : ascii) (rest : result (list item))
  : result (list item) :=
  match rest with
  | Ok items => Ok (Lit c :: items)
  | Err e => Err e
  end.

(** [re._parser.parse_template] for a pattern with [groups] unnamed
    groups.  A group name that is not a decimal number is an error either
    way ([IndexError] for an identifier, [re.error] otherwise). *)
Fixpoint parse_template_fuel (fuel : nat) (groups : N) (t : text)
  : result (list item) :=
  match fuel with
  | 0 => Ok []
  | S fuel' =>
    let continue := parse_template_fuel fuel' groups in
    match t with
    | [] => Ok []
    | c :: t1 =>
      if negb (ascii_eqb c backslash) then add_literal c (continue t1)
      else match t1 with
      | [] => Err (ReError BadEscapeEnd)
      | d :: t2 =>
        if ascii_eqb d "g" then
          match t2 with
          | lt :: t3 =>
            if ascii_eqb lt "<" then
              let name := take_while (fun x => negb (ascii_eqb x ">")) t3 in
              match skipn (length name) t3 with
              | [] => Err (ReError UnterminatedName)
              | _ :: t4 =>
                match name with
                | [] => Err (ReError MissingGroupName)
                | _ => if forallb is_digit name
                       then add_group groups (decimal name) (continue t4)
                       else Err (ReError (BadGroupName name))
                end
              end
            else Err (ReError MissingLt)
          | [] => Err (ReError MissingLt)
          end
        else if ascii_eqb d "0" then
          let ds := take_while is_octal (firstn 2 t2) in
          add_literal (ascii_of_N (N.land (octal ds) 255))
                      (continue (skipn (length ds) t2))
        else if is_digit d then
          match t2 with
          | d2 :: t3 =>
            if is_digit d2 then
              match t3 with
              | d3 :: t4 =>
                if is_octal d && is_octal d2 && is_octal d3 then
                  let code := octal [d; d2; d3] in
                  if (255 <? code)%N
                  then Err (ReError (OctalOutOfRange [d; d2; d3]))
                  else add_literal (ascii_of_N code) (continue t4)
                else add_group groups (decimal [d; d2]) (continue t3)
              | [] => add_group groups (decimal [d; d2]) (continue t3)
              end
            else add_group groups (decimal [d]) (continue t2)
          | [] => add_group groups (decimal [d]) (continue t2)
          end
        else match escape_char d with
        | Some e => add_literal e (continue t2)
        | None =>
          if is_ascii_letter d then Err (ReError (BadEscape d))
          else add_literal backslash (add_literal d (continue t2))
        end
      end
    end
  end.

Definition parse_template (groups : N) (t : text) : result (list item) :=
  parse_template_fuel (S (length t)) groups t.

(** The text a parsed template stands for at one match. *)
Fixpoint expand (items : list item) (g whole : text) : text :=
  match items with
  | [] => []
  | Lit c :: items' => c :: expand items' g whole
  | Group n :: items' =>
      (if (n =? 0)%N then whole else g) ++ expand items' g whole
  end.

(** *** Substitution *)

(** The scan of [re.sub]: at each position try the pattern; on a match
    emit the replacement and go on after the match, otherwise copy one
    character.  [bol] tells whether the position follows a newline (or is
    the start of the subject).  The patterns of the script match at least
    one character, so the rules for empty matches do not come into play:
    an empty match is answered by the replacement followed by the next
    character. *)
Fixpoint sub_fuel (fuel : nat) (p : pattern) (repl : text -> text -> text)
    (bol : bool) (s : text) : text :=
  match fuel with
  | 0 => s
  | S fuel' =>
    match s with
    | [] => match match_at p bol [] with
            | Some (g, v, _) => repl g v
            | None => []
            end
    | c :: s' =>
      match match_at p bol s with
      | Some (g, v, rest) =>
          match g ++ v with
          | [] => repl g v ++ c :: sub_fuel fuel' p repl (is_newline c) s'
          | _ => repl g v ++ sub_fuel fuel' p repl (bol_after bol (g ++ v)) rest
          end
      | None => c :: sub_fuel fuel' p repl (is_newline c) s'
      end
    end
  end.

Definition sub_with (p : pattern) (repl : text -> text -> text) (s : text)
  : text :=
  sub_fuel (S (length s)) p repl true s.

(** [re.sub(pattern, template, s, flags=re.MULTILINE)] *)
Definition sub (p : pattern) (template : text) (s : text) : result text :=
  match parse_template 1 template with
  | Ok items => Ok (sub_with p (fun g v => expand items g (g ++ v)) s)
  | Err e => Err e
  end.

End Re.

(** ** The inventory edit of [configure_with_ansible] *)

Definition digit_or_dot (c : ascii) : bool :=
  is_digit c || ascii_eqb c ".".

Definition not_dquote (c : ascii) : bool := negb (ascii_eqb c dquote).

Definition key_host : text := txt "ansible_host:".
Definition key_password : text := txt "ansible_password:".

(** [r'(^\s+ansible_host:\s+)[\d\.]+'] *)
Definition host_pattern : Re.pattern :=
  {| Re.group1 := [Re.Bol; Re.Many 1 is_space; Re.Chars key_host;
                   Re.Many 1 is_space];
     Re.tail := [Re.Many 1 digit_or_dot] |}.

(** [r'(^\s+ansible_password:\s+)Q[^Q]*Q'], where Q is the double
    quote. *)
Definition password_pattern : Re.pattern :=
  {| Re.group1 := [Re.Bol; Re.Many 1 is_space; Re.Chars key_password;
                   Re.Many 1 is_space];
     Re.tail := [Re.Chars [dquote]; Re.Many 0 not_dquote;
                 Re.Chars [dquote]] |}.

(** [f'\\g<1>{instance_ip}'] *)
Definition host_template (instance_ip : text) : text :=
  txt "\g<1>" ++ instance_ip.

(** [f'\\g<1>Q{password}Q'], where Q is the double quote. *)
Definition password_template (password : text) : text :=
  txt "\g<1>" ++ dquote :: password ++ [dquote].

(** The two [re.sub] calls on the inventory text (lines 233-246). *)
Definition update_inventory (instance_ip password content : text)
  : result text :=
  match Re.sub host_pattern (host_template instance_ip) content with
  | Ok content1 =>
      Re.sub password_pattern (password_template password) content1
  | Err e => Err e
  end.

(** ** [str.replace] and the variables template of [deploy_infrastructure] *)

(** [s.replace(old, new)]: occurrences are taken left to right and do not
    overlap. *)
Fixpoint replace_fuel (fuel : nat) (old new s : text) : text :=
  match fuel with
  | 0 => s
  | S fuel' =>
    match s with
    | [] => []
    | c :: s' =>
      match strip_prefix old s with
      | Some rest => new ++ replace_fuel fuel' old new rest
      | None => c :: replace_fuel fuel' old new s'
      end
    end
  end.

Definition replace (old new s : text) : text :=
  match old with
  | [] => new ++ flat_map (fun c => c :: new) s
  | _ => replace_fuel (length s) old new s
  end.

Inductive action := Deploy | Destroy | AnsibleOnly.

(** The parsed command line ([argparse.Namespace]). *)
Record arguments := {
  act : action;
  environment : text;
  region : text;
  instance_type : text;
  elastic_ip : bool;
  create_rds : bool;
  skip_ansible : bool;
  force : bool }.

(** [str(b).lower()] *)
Definition bool_lower (b : bool) : text :=
  if b then txt "true" else txt "false".

(** [name = Qvalue Q], where Q is the double quote. *)
Definition quoted_assignment (name : string) (value : text) : text :=
  txt name ++ txt " = " ++ dquote :: value ++ [dquote].

Definition plain_assignment (name : string) (value : text) : text :=
  txt name ++ txt " = " ++ value.

(** Lines 161-165. *)
Definition render_tfvars (args : arguments) (tfvars_content : text) : text :=
  let tfvars_content :=
    replace (quoted_assignment "environment" (txt "dev"))
            (quoted_assignment "environment" (environment args))
            tfvars_content in
  let tfvars_content :=
    replace (quoted_assignment "aws_region" (txt "us-east-1"))
            (quoted_assignment "aws_region" (region args))
            tfvars_content in
  let tfvars_content :=
    replace (quoted_assignment "instance_type" (txt "t3a.medium"))
            (quoted_assignment "instance_type" (instance_type args))
            tfvars_content in
  let tfvars_content :=
    replace (plain_assignment "use_elastic_ip" (txt "false"))
            (plain_assignment "use_elastic_ip" (bool_lower (elastic_ip args)))
            tfvars_content in
  replace (plain_assignment "create_rds" (txt "false"))
          (plain_assignment "create_rds" (bool_lower (create_rds args)))
          tfvars_content.

(** ** Files in text mode *)

(** The script opens its files in text mode.  The world and the outside
    hold the text of a file: what [f.read()] returns and what [f.write]
    is given.  The characters of the file differ from it in the line
    ends. *)

Definition carriage_return : ascii := "013"%char.

(** What [f.read()] returns for the characters [raw] of a file opened
    with [open(path, "r")]: the line ends CR LF and CR are read as LF. *)
Fixpoint universal_newlines (raw : text) : text :=
  match raw with
  | [] => []
  | c :: rest =>
      if ascii_eqb c carriage_return then
        newline :: match rest with
                   | c' :: rest' =>
                       if is_newline c' then universal_newlines rest'
                       else universal_newlines rest
                   | [] => []
                   end
      else c :: universal_newlines rest
  end.

(** What [f.write(s)] leaves in a file opened with [open(path, "w")]:
    every LF is written as [os.linesep]. *)
Definition write_newlines (linesep s : text) : text :=
  flat_map (fun c => if is_newline c then linesep else [c]) s.


(** Lines 157-168 on the characters of the two files: the template is
    read, the five [replace] calls are made and the variables file is
    written. *)
Definition derive_tfvars_file (linesep : text) (args : arguments)
    (raw : text) : text :=
  write_newlines linesep (render_tfvars args (universal_newlines raw)).

(** ** Effects *)

Inductive level := INFO | SUCCESS | WARNING | ERROR.

(** A log message is what its f-string is made of: literal text and the
    values put into it.  The interpolation of the [password] variable is
    kept apart from every other value. *)
Inductive fragment :=
| Str (s : string)
| Rule (n : nat)
| Val (v : text)
| Num (n : Z)
| Exc (e : exn)
| Secret (password : text).

Definition message := list fragment.

Inductive file := TfvarsExample | Tfvars | Inventory.

Inductive event :=
| Log (lvl : level) (msg : message)
| Banner (title : string)
| Command (cmd : command)
| Playbook (returncode : Z)
| Connect (ip : text) (port : Z) (timeout : Z)
| Sleep (seconds : Z)
| Chdir (dir : string)
| ReadFile (f : file)
| WriteFile (f : file) (content : text)
| Input (prompt : string).

(** What the script can change and what it leaves behind: the two files
    it writes and the events in the order they happened. *)
Record world := {
  tfvars : option text;
  inventory : option text;
  trace : list event }.

(** What the outside answers. *)
Record outside := {
  run_result : command -> option text;
  connect_ex : nat -> result Z;
  playbook_returncode : nat -> Z;
  answer : string -> text;
  tfvars_example : option text;
  key_exists : bool;
  pub_key_exists : bool }.

Inductive outcome (A : Type) :=
| Return (a : A)
| Raise (e : exn)
| Exit (code : Z)
| Diverge.
Arguments Return {A} a.
Arguments Raise {A} e.
Arguments Exit {A} code.
Arguments Diverge {A}.

Definition M (A : Type) := world -> outcome A * world.

Definition ret {A} (a : A) : M A := fun w => (Return a, w).

Definition bind {A B} (m : M A) (f : A -> M B) : M B :=
  fun w =>
    match m w with
    | (Return a, w') => f a w'
    | (Raise e, w') => (Raise e, w')
    | (Exit c, w') => (Exit c, w')
    | (Diverge, w') => (Diverge, w')
    end.

Notation "x <- m ;; k" := (bind m (fun x => k))
  (at level 61, m at next level, right associativity).
Notation "m ;; k" := (bind m (fun _ => k))
  (at level 61, right associativity).

Definition raise {A} (e : exn) : M A := fun w => (Raise e, w).

(** [sys.exit(code)] *)
Definition sys_exit {A} (code : Z) : M A := fun w => (Exit code, w).

(** The world after more events. *)
Definition extend (w : world) (evs : list event) : world :=
  {| tfvars := tfvars w; inventory := inventory w;
     trace := trace w ++ evs |}.

Definition emit (e : event) : M unit :=
  fun w => (Return tt, extend w [e]).

(** [try: m  except Exception as e: handler(e)]; [SystemExit] is not an
    [Exception] and passes through. *)
Definition try_except {A} (m : M A) (handler : exn -> M A) : M A :=
  fun w =>
    match m w with
    | (Raise e, w') => handler e w'
    | r => r
    end.

(** [try: m  except: handler], which catches [SystemExit] too. *)
Definition try_bare {A} (m : M A) (handler : M A) : M A :=
  fun w =>
    match m w with
    | (Raise _, w') => handler w'
    | (Exit _, w') => handler w'
    | r => r
    end.

(** [while cond(s): s = body(s)] *)
Fixpoint while {S : Type} (fuel : nat) (cond : S -> bool) (body : S -> M S)
    (s : S) : M S :=
  if cond s then
    match fuel with
    | 0 => fun w => (Diverge, w)
    | S fuel' => s' <- body s ;; while fuel' cond body s'
    end
  else ret s.

Definition read_inventory : M text :=
  emit (ReadFile Inventory) ;;
  fun w => match inventory w with
           | Some content => (Return content, w)
           | None => (Raise (OSError "FileNotFoundError"), w)
           end.

Definition set_inventory (content : text) (w : world) : world :=
  {| tfvars := tfvars w; inventory := Some content; trace := trace w |}.

Definition set_tfvars (content : text) (w : world) : world :=
  {| tfvars := Some content; inventory := inventory w; trace := trace w |}.

Definition write_inventory (content : text) : M unit :=
  fun w => (Return tt,
            extend (set_inventory content w) [WriteFile Inventory content]).

Definition tfvars_exists : M bool :=
  fun w => (Return (match tfvars w with Some _ => true | None => false end), w).

Definition write_tfvars (content : text) : M unit :=
  fun w => (Return tt,
            extend (set_tfvars content w) [WriteFile Tfvars content]).

(** [s.split()] *)
Fixpoint split_fuel (fuel : nat) (s : text) : list text :=
  match fuel with
  | 0 => []
  | S fuel' =>
    match drop_while is_space s with
    | [] => []
    | s1 => take_while (fun c => negb (is_space c)) s1
            :: split_fuel fuel' (drop_while (fun c => negb (is_space c)) s1)
    end
  end.

Definition split (s : text) : list text := split_fuel (length s) s.

(** [c.lower()] on the letters A to Z. *)
Definition lower_char (c : ascii) : ascii :=
  let n := nat_of_ascii c in
  if (65 <=? n) && (n <=? 90) then ascii_of_nat (n + 32) else c.

Definition text_eqb (a b : text) : bool :=
  if list_eq_dec ascii_dec a b then true else false.

(** ** The script *)

Section Script.

Variable env : outside.

(** [log(message, level)] *)
Definition log (msg : message) (lvl : level) : M unit := emit (Log lvl msg).

Definition banner (title : string) : M unit := emit (Banner title).

Definition command_failed (cmd : command) : M text :=
  log [Str "Command failed: "; Exc (CalledProcessError cmd)] ERROR ;;
  sys_exit 1.

(** [run_command(cmd, capture_output=True)]: the stripped output. *)
Definition run_command_output (cmd : command) : M text :=
  emit (Command cmd) ;;
  match run_result env cmd with
  | Some stdout => ret (strip stdout)
  | None => command_failed cmd
  end.

(** [run_command(cmd)], which returns [None]. *)
Definition run_command (cmd : command) : M unit :=
  emit (Command cmd) ;;
  match run_result env cmd with
  | Some _ => ret tt
  | None => command_failed cmd ;; ret tt
  end.

(** [input(prompt)] *)
Definition input (prompt : string) : M text :=
  emit (Input prompt) ;; ret (answer env prompt).

Definition chdir (dir : string) : M unit := emit (Chdir dir).

Definition sleep (seconds : Z) : M unit := emit (Sleep seconds).

(** [version.split()[1]] *)
Definition second_word (version : text) : M text :=
  match nth_error (split version) 1 with
  | Some word => ret word
  | None => raise IndexError
  end.

Definition check_prerequisites : M unit :=
  log [Str "Checking prerequisites..."] INFO ;;
  try_bare
    (version <- run_command_output TerraformVersion ;;
     word <- second_word version ;;
     log [Str "Terraform: "; Val word] SUCCESS)
    (log [Str "Terraform not found! Please install Terraform."] ERROR ;;
     sys_exit 1) ;;
  try_bare
    (version <- run_command_output AnsibleVersion ;;
     word <- second_word version ;;
     log [Str "Ansible: "; Val word] SUCCESS)
    (log [Str "Ansible not found! Please install Ansible."] ERROR ;;
     sys_exit 1) ;;
  try_bare
    (run_command_output AwsGetCallerIdentity ;;
     log [Str "AWS credentials: Valid"] SUCCESS)
    (log [Str "AWS credentials not configured!"] ERROR ;;
     sys_exit 1) ;;
  if negb (key_exists env) || negb (pub_key_exists env) then
    log [Str "SSH key pair not found. Generating..."] WARNING ;;
    chdir "terraform" ;;
    run_command SshKeygen ;;
    chdir ".." ;;
    log [Str "SSH key pair generated"] SUCCESS
  else ret tt.

(** The body of the [try] of one attempt: [true] stands for the
    [return True] of line 129. *)
Definition probe (ip : text) (port : Z) (attempt : nat) : M bool :=
  emit (Connect ip port 5) ;;
  match connect_ex env attempt with
  | Ok result =>
      if (result =? 0)%Z then
        log [Str ""] SUCCESS ;;
        log [Rule 60] SUCCESS ;;
        log [Str "✓ WinRM is ready! Instance is accessible!"] SUCCESS ;;
        log [Rule 60] SUCCESS ;;
        ret true
      else
        log [Str "  → Port "; Num port;
             Str " not open yet, waiting 30 seconds..."] WARNING ;;
        ret false
  | Err e => raise e
  end.

(** The [for attempt in range(1, max_attempts + 1)] loop and what follows
    it. *)
Fixpoint poll (ip : text) (port : Z) (max_attempts : nat)
    (attempts : list nat) : M bool :=
  match attempts with
  | [] =>
      log [Str ""] ERROR ;;
      log [Str "✗ Instance not ready after "; Num (Z.of_nat max_attempts);
           Str " attempts ("; Num (Z.of_nat max_attempts * 30); Str "s)."]
          ERROR ;;
      ret false
  | attempt :: later =>
      let elapsed_time := ((Z.of_nat attempt - 1) * 30)%Z in
      log [Str "["; Num elapsed_time; Str "s] Attempt ";
           Num (Z.of_nat attempt); Str "/"; Num (Z.of_nat max_attempts);
           Str " - Testing WinRM connectivity..."] INFO ;;
      ready <- try_except (probe ip port attempt)
                 (fun e =>
                    log [Str "  → Connection test failed: "; Exc e] WARNING ;;
                    ret false) ;;
      if ready : bool then ret true
      else
        (if attempt <? max_attempts then sleep 30 else ret tt) ;;
        poll ip port max_attempts later
  end.

Definition test_winrm_connectivity (ip : text) (port : Z)
    (max_attempts : nat) : M bool :=
  log [Rule 60] INFO ;;
  log [Str "Waiting for Windows Server to boot and WinRM to be ready..."]
      INFO ;;
  log [Str "Target: "; Val ip; Str ":"; Num port] INFO ;;
  log [Str "This may take 5-10 minutes..."] INFO ;;
  log [Rule 60] INFO ;;
  poll ip port max_attempts (seq 1 max_attempts).

Definition read_tfvars_example : M text :=
  emit (ReadFile TfvarsExample) ;;
  match tfvars_example env with
  | Some content => ret content
  | None => raise (OSError "FileNotFoundError")
  end.

Definition deploy_infrastructure (args : arguments) : M (text * text) :=
  banner "PHASE 1: TERRAFORM INFRASTRUCTURE DEPLOYMENT" ;;
  chdir "terraform" ;;
  log [Str "Initializing Terraform..."] INFO ;;
  run_command TerraformInit ;;
  present <- tfvars_exists ;;
  (if negb present then
     log [Str "Creating terraform.tfvars from example..."] INFO ;;
     tfvars_content <- read_tfvars_example ;;
     write_tfvars (render_tfvars args tfvars_content) ;;
     log [Str "Please review and update terraform.tfvars with your values"]
         WARNING ;;
     if negb (force args) then
       input "Press Enter to continue after reviewing terraform.tfvars..." ;;
       ret tt
     else ret tt
   else ret tt) ;;
  log [Str "Planning Terraform deployment..."] INFO ;;
  run_command TerraformPlan ;;
  (if negb (force args) then
     confirm <- input "Do you want to apply this plan? (y/N): " ;;
     if negb (text_eqb (map lower_char confirm) (txt "y")) then
       log [Str "Deployment cancelled by user"] WARNING ;;
       sys_exit 0
     else ret tt
   else ret tt) ;;
  log [Str "Applying Terraform deployment..."] INFO ;;
  run_command TerraformApply ;;
  instance_ip <- run_command_output (TerraformOutput "instance_public_ip") ;;
  instance_id <- run_command_output (TerraformOutput "instance_id") ;;
  log [Str "Infrastructure deployed successfully!"] SUCCESS ;;
  log [Str "Instance IP: "; Val instance_ip] INFO ;;
  log [Str "Instance ID: "; Val instance_id] INFO ;;
  chdir ".." ;;
  ret (instance_ip, instance_id).

(** The body of the [while] of lines 274-296 on the pair
    [(retry_count, success)]; the invocation made at [retry_count] is the
    one the outside answers under that number. *)
Definition playbook_attempt (max_retries : nat) (st : nat * bool)
  : M (nat * bool) :=
  let (retry_count, success) := st in
  (if 0 <? retry_count then
     log [Str ""] WARNING ;;
     log [Str "Retrying playbook (attempt "; Num (Z.of_nat retry_count + 1);
          Str "/"; Num (Z.of_nat max_retries + 1); Str ")..."] WARNING ;;
     log [Str "Waiting 30 seconds for system to stabilize..."] INFO ;;
     sleep 30
   else ret tt) ;;
  let returncode := playbook_returncode env retry_count in
  emit (Playbook returncode) ;;
  if (returncode =? 0)%Z then
    log [Str ""] INFO ;;
    log [Rule 60] SUCCESS ;;
    log [Str "ANSIBLE PLAYBOOK COMPLETED SUCCESSFULLY!"] SUCCESS ;;
    log [Rule 60] SUCCESS ;;
    ret (retry_count, true)
  else
    let retry_count := S retry_count in
    (if retry_count <=? max_retries then
       log [Str "Playbook failed, will retry..."] WARNING
     else ret tt) ;;
    ret (retry_count, success).

(** [while retry_count <= max_retries and not success] *)
Definition playbook_pending (max_retries : nat) (st : nat * bool) : bool :=
  (fst st <=? max_retries) && negb (snd st).

Definition run_playbook_with_retries (max_retries : nat) : M (nat * bool) :=
  while (S max_retries) (playbook_pending max_retries)
        (playbook_attempt max_retries) (0, false).

Definition manual_command : message :=
  [Str "Manual command: ansible-playbook -i ansible/inventory/hosts.yml ansible/playbooks/site.yml"].

Definition password_summary (password : text) : message :=
  [Str "Administrator Password: "; Secret password].

Definition configure_with_ansible (instance_ip instance_id : text)
    (args : arguments) : M unit :=
  banner "PHASE 2: WAITING FOR INSTANCE TO BE READY" ;;
  ready <- test_winrm_connectivity instance_ip 5985 20 ;;
  if negb ready then
    log [Str "Instance not ready. You can run Ansible manually later."]
        WARNING ;;
    log manual_command INFO
  else
    banner "PHASE 3: ANSIBLE CONFIGURATION" ;;
    log [Str "Getting Windows Administrator password..."] INFO ;;
    try_except
      (password <- run_command_output
                     (Ec2GetPasswordData instance_id (region args)) ;;
       match password with
       | _ :: _ =>
         log [Str "Password retrieved successfully"] SUCCESS ;;
         content <- read_inventory ;;
         content <- match update_inventory instance_ip password content with
                    | Ok content' => ret content'
                    | Err e => raise e
                    end ;;
         write_inventory content ;;
         log [Str "Updated inventory with IP: "; Val instance_ip;
              Str " and password"] SUCCESS ;;
         chdir "ansible" ;;
         log [Rule 60] INFO ;;
         log [Str "STARTING ANSIBLE PLAYBOOK EXECUTION"] INFO ;;
         log [Str "This will take 25-40 minutes to complete..."] INFO ;;
         log [Rule 60] INFO ;;
         log [Str ""] INFO ;;
         log [Str "Executing: ansible-playbook -i inventory/hosts.yml playbooks/site.yml -v"]
             INFO ;;
         log [Str ""] INFO ;;
         let max_retries := 2 in
         st <- run_playbook_with_retries max_retries ;;
         chdir ".." ;;
         (if negb (snd st) then
            log [Str ""] ERROR ;;
            log [Str "Ansible playbook failed after ";
                 Num (Z.of_nat max_retries + 1); Str " attempts"] ERROR
          else ret tt) ;;
         banner "DEPLOYMENT COMPLETED SUCCESSFULLY!" ;;
         log [Str "RDP: "; Val instance_ip; Str ":3389"] INFO ;;
         log [Str "IIS: http://"; Val instance_ip] INFO ;;
         log (password_summary password) INFO
       | [] =>
         log [Str "Could not retrieve password. Please get it manually:"]
             WARNING ;;
         log [Str "aws ec2 get-password-data --instance-id ";
              Val instance_id;
              Str " --priv-launch-key terraform/dc-automation-key --region ";
              Val (region args)] INFO
       end)
      (fun e => log [Str "Error retrieving password: "; Exc e] ERROR)
  .

Definition destroy_infrastructure (args : arguments) : M unit :=
  banner "DESTROYING INFRASTRUCTURE" ;;
  (if negb (force args) then
     confirm <- input "Are you sure you want to destroy all infrastructure? (y/N): " ;;
     if negb (text_eqb (map lower_char confirm) (txt "y")) then
       log [Str "Destroy cancelled by user"] WARNING ;;
       sys_exit 0
     else ret tt
   else ret tt) ;;
  chdir "terraform" ;;
  run_command TerraformDestroy ;;
  chdir ".." ;;
  log [Str "Infrastructure destroyed successfully!"] SUCCESS.

Definition ansible_only : M unit :=
  banner "RUNNING ANSIBLE CONFIGURATION ONLY" ;;
  inventory <- read_inventory ;;
  (if negb (contains key_password inventory) then
     log [Str "Password not found in inventory. Please run full deployment first."]
         ERROR ;;
     log [Str "Or manually add ansible_password to ansible/inventory/hosts.yml"]
         INFO ;;
     sys_exit 1
   else ret tt) ;;
  chdir "ansible" ;;
  emit (Playbook (playbook_returncode env 0)) ;;
  chdir "..".

Definition main (args : arguments) : M unit :=
  banner "DC AUTOMATION - TERRAFORM + ANSIBLE DEPLOYMENT" ;;
  check_prerequisites ;;
  match act args with
  | Deploy =>
      deployed <- deploy_infrastructure args ;;
      let (instance_ip, instance_id) := deployed : text * text in
      if negb (skip_ansible args) then
        configure_with_ansible instance_ip instance_id args
      else ret tt
  | Destroy => destroy_infrastructure args
  | AnsibleOnly => ansible_only
  end ;;
  log [Str "Script completed!"] SUCCESS.

End Script.

(** The status the process ends with: 0 when [main] returns, the argument
    of [sys.exit], 1 for an exception nobody caught. *)
Definition exit_status {A} (o : outcome A) : option Z :=
  match o with
  | Return _ => Some 0%Z
  | Exit code => Some code
  | Raise _ => Some 1%Z
  | Diverge => None
  end.

(** * Properties *)

(** ** Worlds and traces *)

Lemma extend_extend w evs1 evs2 :
  extend (extend w evs1) evs2 = extend w (evs1 ++ evs2).
Proof.
  unfold extend; simpl. now rewrite app_assoc.
Qed.

Lemma extend_nil w : extend w [] = w.
Proof.
  destruct w; unfold extend; simpl. now rewrite app_nil_r.
Qed.

Lemma inventory_extend w evs : inventory (extend w evs) = inventory w.
Proof. reflexivity. Qed.

Lemma trace_extend w evs : trace (extend w evs) = trace w ++ evs.
Proof. reflexivity. Qed.

Create Rewrite HintDb world.
#[global] Hint Rewrite extend_extend inventory_extend trace_extend : world.

(** Unfolds the monad so that straight-line code runs on a symbolic
    world. *)
Ltac run :=
  unfold log, banner, sleep, chdir, emit, bind, ret, raise, sys_exit; simpl.

Ltac tidy := autorewrite with world; simpl.

(** The events that act on the outside; log lines and banners only
    report. *)
Definition is_effect (e : event) : bool :=
  match e with
  | Log _ _ | Banner _ => false
  | _ => true
  end.

Definition effects (evs : list event) : list event := filter is_effect evs.

Definition is_playbook (e : event) : bool :=
  match e with
  | Playbook _ => true
  | _ => false
  end.

Lemma effects_app evs1 evs2 :
  effects (evs1 ++ evs2) = effects evs1 ++ effects evs2.
Proof. apply filter_app. Qed.

(** A message puts the password into a log line when one of its
    fragments is the interpolation of the [password] variable. *)
Definition mentions_secret (msg : message) : bool :=
  existsb (fun f => match f with Secret _ => true | _ => false end) msg.

(** The line of the handler of [configure_with_ansible].  Its exception
    was raised while the password was in memory, and the message of an
    exception of [re] quotes the template it refuses. *)
Definition failure_report (e : exn) : message :=
  [Str "Error retrieving password: "; Exc e].

Definition is_failure_report (msg : message) : bool :=
  match msg with
  | [Str s; Exc _] => String.eqb s "Error retrieving password: "
  | _ => false
  end.

(** The log lines that can hold text of the password. *)
Definition logs_secret (e : event) : bool :=
  match e with
  | Log _ msg => mentions_secret msg || is_failure_report msg
  | _ => false
  end.

Definition secret_free (evs : list event) : Prop :=
  existsb logs_secret evs = false.

Lemma secret_free_app evs1 evs2 :
  secret_free evs1 -> secret_free evs2 -> secret_free (evs1 ++ evs2).
Proof.
  unfold secret_free. intros H1 H2. now rewrite existsb_app, H1, H2.
Qed.

(** ** The retry controller *)

(** Invocations of the playbook with a stabilisation sleep between an
    invocation that failed and the next one, and nowhere else. *)
Inductive retry_shape : list event -> Prop :=
| retry_last rc : retry_shape [Playbook rc]
| retry_more rc rest :
    rc <> 0%Z -> retry_shape rest ->
    retry_shape (Playbook rc :: Sleep 30 :: rest).


Lemma while_unfold {S : Type} fuel (cond : S -> bool) body (s : S) :
  while (Datatypes.S fuel) cond body s
  = if cond s then (s' <- body s ;; while fuel cond body s') else ret s.
Proof. reflexivity. Qed.

Lemma while_done {S : Type} fuel (cond : S -> bool) body (s : S) w :
  cond s = false -> while fuel cond body s w = (Return s, w).
Proof. intros H. destruct fuel; simpl; now rewrite H. Qed.

Lemma bind_return {A B} (m : M A) (f : A -> M B) w a w' :
  m w = (Return a, w') -> bind m f w = f a w'.
Proof. intros H. unfold bind. now rewrite H. Qed.

(** One turn of the loop: a sleep first when it is a retry, then one
    invocation. *)
Lemma playbook_attempt_run env max_retries retry_count w :
  let rc := playbook_returncode env retry_count in
  exists evs,
    playbook_attempt env max_retries (retry_count, false) w
    = (Return (if (rc =? 0)%Z then (retry_count, true)
               else (S retry_count, false)),
       extend w evs) /\
    effects evs
    = (if 0 <? retry_count then [Sleep 30%Z] else []) ++ [Playbook rc] /\
    filter is_playbook evs = [Playbook rc] /\
    secret_free evs.
Proof.
  intros rc. unfold playbook_attempt. fold rc.
  destruct (0 <? retry_count), (rc =? 0)%Z,
    (S retry_count <=? max_retries);
    run; tidy; eexists; repeat split; reflexivity.
Qed.

Lemma playbook_pending_eq max_retries retry_count success :
  playbook_pending max_retries (retry_count, success)
  = (retry_count <=? max_retries) && negb success.
Proof. reflexivity. Qed.

Lemma retry_loop_from env max_retries fuel :
  forall retry_count w,
    S max_retries <= fuel + retry_count ->
    retry_count <= max_retries ->
    exists st evs rest,
      while fuel (playbook_pending max_retries)
            (playbook_attempt env max_retries) (retry_count, false) w
      = (Return st, extend w evs) /\
      effects evs = (if 0 <? retry_count then [Sleep 30%Z] else []) ++ rest /\
      retry_shape rest /\
      length (filter is_playbook evs) + retry_count <= S max_retries /\
      secret_free evs.
Proof.
  induction fuel as [|fuel IH]; intros retry_count w Hfuel Hle.
  - simpl in Hfuel. lia.
  - destruct (playbook_attempt_run env max_retries retry_count w)
      as (evs1 & Hbody & Heff & Hcount & Hquiet).
    set (rc := playbook_returncode env retry_count) in *.
    assert (Hstep :
      while (S fuel) (playbook_pending max_retries)
            (playbook_attempt env max_retries) (retry_count, false) w
      = while fuel (playbook_pending max_retries)
              (playbook_attempt env max_retries)
              (if (rc =? 0)%Z then (retry_count, true)
               else (S retry_count, false))
              (extend w evs1)).
    { rewrite while_unfold.
      replace (playbook_pending max_retries (retry_count, false)) with true
        by (rewrite playbook_pending_eq, andb_true_r; symmetry;
            now apply Nat.leb_le).
      cbv iota. erewrite bind_return; [reflexivity | exact Hbody]. }
    rewrite Hstep. clear Hstep Hbody.
    destruct (Z.eqb_spec rc 0) as [Hrc|Hrc].
    + (* the invocation succeeds and the loop ends *)
      exists (retry_count, true), evs1, [Playbook rc].
      rewrite while_done
        by (rewrite playbook_pending_eq; apply andb_false_r).
      rewrite Hcount. repeat split; auto. constructor. simpl; lia.
    + destruct (Nat.leb_spec (S retry_count) max_retries) as [Hnext|Hlast].
      * (* a failure with retries left *)
        destruct (IH (S retry_count) (extend w evs1))
          as (st & evs & rest & Hw & He & Hs & Hc & Hq); [lia | lia |].
        exists st, (evs1 ++ evs), (Playbook rc :: Sleep 30 :: rest).
        rewrite Hw. tidy. split; [reflexivity|].
        rewrite effects_app, Heff, He. simpl.
        split; [now rewrite <- app_assoc|].
        split; [now constructor|].
        split; [|now apply secret_free_app].
        rewrite filter_app, length_app, Hcount. simpl in *. lia.
      * (* the last failure: the retries are exhausted *)
        exists (S retry_count, false), evs1, [Playbook rc].
        rewrite while_done
          by (rewrite playbook_pending_eq, andb_true_r;
              apply Nat.leb_gt; lia).
        rewrite Hcount. repeat split; auto. constructor. simpl; lia.
Qed.

Lemma retry_loop_run env max_retries w :
  exists st evs,
    run_playbook_with_retries env max_retries w = (Return st, extend w evs) /\
    retry_shape (effects evs) /\
    length (filter is_playbook evs) <= max_retries + 1 /\
    secret_free evs.
Proof.
  destruct (@retry_loop_from env max_retries (S max_retries) 0 w)
    as (st & evs & rest & Hw & He & Hs & Hc & Hq); [lia | lia |].
  exists st, evs. split; [exact Hw|]. rewrite He. simpl.
  repeat split; auto. lia.
Qed.

(** C1.  A run of the retry controller invokes the playbook at most
    [max_retries + 1] times (three times for the [max_retries = 2] of the
    script).  Its effects are invocations of the playbook and sleeps of 30
    seconds and nothing else: the first and the last effect are
    invocations, and a sleep stands exactly between an invocation that
    failed and the next one. *)
Theorem retry_controller_bounded env max_retries w :
  exists st evs,
    run_playbook_with_retries env max_retries w = (Return st, extend w evs) /\
    retry_shape (effects evs) /\
    length (filter is_playbook evs) <= max_retries + 1.
Proof.
  destruct (retry_loop_run env max_retries w)
    as (st & evs & Hrun & Hshape & Hcount & _).
  now exists st, evs.
Qed.

(** ** The readiness prober *)

(** [n] connection attempts, each with the timeout of 5 seconds, and a
    sleep of 30 seconds between two of them. *)
Fixpoint attempts_trace (ip : text) (port : Z) (n : nat) : list event :=
  match n with
  | 0 => []
  | S m =>
      Connect ip port 5
      :: match m with
         | 0 => []
         | S _ => Sleep 30 :: attempts_trace ip port m
         end
  end.

(** The attempt is answered by an accepted connection. *)
Definition accepted (env : outside) (attempt : nat) : bool :=
  match connect_ex env attempt with
  | Ok result => (result =? 0)%Z
  | Err _ => false
  end.

Lemma attempts_trace_S ip port n :
  attempts_trace ip port (S n)
  = Connect ip port 5
    :: (if 0 <? n then [Sleep 30%Z] else []) ++ attempts_trace ip port n.
Proof. destruct n; reflexivity. Qed.

Lemma probe_run env ip port attempt w :
  exists evs,
    try_except (probe env ip port attempt)
      (fun e =>
         log [Str "  → Connection test failed: "; Exc e] WARNING ;; ret false)
      w
    = (Return (accepted env attempt), extend w evs) /\
    effects evs = [Connect ip port 5] /\
    secret_free evs.
Proof.
  unfold try_except, probe, accepted.
  destruct (connect_ex env attempt) as [result|e].
  - destruct (result =? 0)%Z; run; tidy; eexists; repeat split; reflexivity.
  - run; tidy; eexists; repeat split; reflexivity.
Qed.

Lemma poll_run env ip port max_attempts len :
  forall first w,
    first + len = S max_attempts ->
    exists ready evs n,
      poll env ip port max_attempts (seq first len) w
      = (Return ready, extend w evs) /\
      effects evs = attempts_trace ip port n /\
      n <= len /\
      (forall k, k < n - 1 -> accepted env (first + k) = false) /\
      (ready = true -> 1 <= n /\ accepted env (first + (n - 1)) = true) /\
      (ready = false ->
       n = len /\ forall k, k < n -> accepted env (first + k) = false) /\
      secret_free evs.
Proof.
  induction len as [|len IH]; intros first w Hlen.
  - exists false, [Log ERROR [Str ""];
                   Log ERROR [Str "✗ Instance not ready after ";
                              Num (Z.of_nat max_attempts);
                              Str " attempts (";
                              Num (Z.of_nat max_attempts * 30); Str "s)."]], 0.
    simpl. run. tidy. repeat split; auto; try lia; discriminate.
  - destruct (probe_run env ip port first
                (extend w [Log INFO
                   [Str "["; Num ((Z.of_nat first - 1) * 30); Str "s] Attempt ";
                    Num (Z.of_nat first); Str "/"; Num (Z.of_nat max_attempts);
                    Str " - Testing WinRM connectivity..."]]))
      as (evs1 & Hprobe & Heff1 & Hq1).
    assert (Hstep :
      poll env ip port max_attempts (seq first (S len)) w
      = (if accepted env first then ret true
         else ((if first <? max_attempts then sleep 30 else ret tt) ;;
               poll env ip port max_attempts (seq (S first) len)))
          (extend w (Log INFO
                   [Str "["; Num ((Z.of_nat first - 1) * 30); Str "s] Attempt ";
                    Num (Z.of_nat first); Str "/"; Num (Z.of_nat max_attempts);
                    Str " - Testing WinRM connectivity..."] :: evs1))).
    { simpl seq. cbn [poll]. unfold log at 1, emit at 1. unfold bind at 1.
      erewrite bind_return; [|exact Hprobe]. now tidy. }
    rewrite Hstep; clear Hstep Hprobe.
    destruct (accepted env first) eqn:Hacc.
    + (* accepted: the prober returns at once *)
      eexists true, _, 1. split; [reflexivity|].
      simpl. rewrite Heff1. replace (first + 0) with first by lia.
      repeat split; auto; try lia; discriminate.
    + destruct (IH (S first)
                  (extend w (Log INFO
                   [Str "["; Num ((Z.of_nat first - 1) * 30); Str "s] Attempt ";
                    Num (Z.of_nat first); Str "/"; Num (Z.of_nat max_attempts);
                    Str " - Testing WinRM connectivity..."] :: evs1
                   ++ (if first <? max_attempts then [Sleep 30%Z] else []))))
        as (ready & evs & n & Hrun & Heff & Hn & Hbefore & Hyes & Hno & Hq);
        [lia|].
      assert (Hquiet : secret_free
        (Log INFO
           [Str "["; Num ((Z.of_nat first - 1) * 30); Str "s] Attempt ";
            Num (Z.of_nat first); Str "/"; Num (Z.of_nat max_attempts);
            Str " - Testing WinRM connectivity..."] :: evs1
         ++ (if first <? max_attempts then [Sleep 30%Z] else []) ++ evs)).
      { apply (@secret_free_app [_]); [reflexivity|].
        apply secret_free_app; [exact Hq1|].
        apply secret_free_app; [now destruct (first <? max_attempts)|exact Hq]. }
      assert (Hfirst : forall k, accepted env (S first + k) = false ->
                                 accepted env (first + S k) = false).
      { intros k. now replace (first + S k) with (S first + k) by lia. }
      exists ready,
        (Log INFO
           [Str "["; Num ((Z.of_nat first - 1) * 30); Str "s] Attempt ";
            Num (Z.of_nat first); Str "/"; Num (Z.of_nat max_attempts);
            Str " - Testing WinRM connectivity..."] :: evs1
         ++ (if first <? max_attempts then [Sleep 30%Z] else []) ++ evs),
        (if first <? max_attempts then S n else 1).
      destruct (Nat.ltb_spec first max_attempts) as [Hlt|Hge].
      * (* more attempts follow the sleep *)
        split.
        { unfold sleep, emit. unfold bind at 1. tidy.
          rewrite Hrun. tidy.
          now rewrite <- app_assoc. }
        split.
        { change (effects (?e :: ?l)) with (effects l).
          rewrite !effects_app, Heff1, Heff, attempts_trace_S. simpl.
          destruct ready.
          - destruct (Hyes eq_refl) as [Hn1 _].
            now replace (0 <? n) with true by (symmetry; apply Nat.ltb_lt; lia).
          - destruct (Hno eq_refl) as [-> _].
            now replace (0 <? len) with true by (symmetry; apply Nat.ltb_lt; lia). }
        split; [lia|].
        split.
        { intros [|k] Hk; [now replace (first + 0) with first by lia|].
          apply Hfirst, Hbefore. lia. }
        split.
        { intros Hr. destruct (Hyes Hr) as [Hn1 Hacc'].
          split; [lia|]. rewrite <- Hacc'. f_equal. lia. }
        split; [|exact Hquiet].
        { intros Hr. destruct (Hno Hr) as [-> Hall]. split; [reflexivity|].
          intros [|k] Hk; [now replace (first + 0) with first by lia|].
          apply Hfirst, Hall. lia. }
      * (* this was the last attempt *)
        assert (len = 0) by lia. subst len.
        assert (n = 0) by lia. subst n.
        split.
        { unfold ret at 1. unfold bind at 1. simpl in Hrun |- *.
          rewrite app_nil_r in Hrun. rewrite Hrun. now tidy. }
        split.
        { change (effects (?e :: ?l)) with (effects l).
          rewrite !effects_app, Heff1, Heff. reflexivity. }
        split; [lia|].
        split; [intros k Hk; simpl in Hk; lia|].
        split.
        { intros Hr. destruct (Hyes Hr) as [Hn1 _]. lia. }
        split; [|exact Hquiet].
        { intros Hr. split; [reflexivity|].
          intros k Hk. assert (k = 0) by lia. subst k.
          now replace (first + 0) with first by lia. }
Qed.


Lemma prober_run env ip port max_attempts w :
  exists ready evs n,
    test_winrm_connectivity env ip port max_attempts w
    = (Return ready, extend w evs) /\
    effects evs = attempts_trace ip port n /\
    n <= max_attempts /\
    (forall k, 1 <= k < n -> accepted env k = false) /\
    (ready = true -> 1 <= n /\ accepted env n = true) /\
    (ready = false ->
     n = max_attempts /\
     forall k, 1 <= k <= max_attempts -> accepted env k = false) /\
    secret_free evs.
Proof.
  destruct (@poll_run env ip port max_attempts max_attempts 1
              (extend w [Log INFO [Rule 60];
                         Log INFO [Str "Waiting for Windows Server to boot and WinRM to be ready..."];
                         Log INFO [Str "Target: "; Val ip; Str ":"; Num port];
                         Log INFO [Str "This may take 5-10 minutes..."];
                         Log INFO [Rule 60]]))
    as (ready & evs & n & Hrun & Heff & Hn & Hbefore & Hyes & Hno & Hq);
    [lia|].
  exists ready, ([Log INFO [Rule 60];
                  Log INFO [Str "Waiting for Windows Server to boot and WinRM to be ready..."];
                  Log INFO [Str "Target: "; Val ip; Str ":"; Num port];
                  Log INFO [Str "This may take 5-10 minutes..."];
                  Log INFO [Rule 60]] ++ evs), n.
  split.
  { unfold test_winrm_connectivity. run. tidy. rewrite Hrun. now tidy. }
  split; [rewrite effects_app; exact Heff|].
  split; [exact Hn|].
  split.
  { intros k Hk. replace k with (1 + (k - 1)) by lia. apply Hbefore. lia. }
  split.
  { intros Hr. destruct (Hyes Hr) as [Hn1 Hacc]. split; [exact Hn1|].
    rewrite <- Hacc. f_equal. lia. }
  split; [|now apply secret_free_app].
  intros Hr. destruct (Hno Hr) as [-> Hall]. split; [reflexivity|].
  intros k Hk. replace k with (1 + (k - 1)) by lia. apply Hall. lia.
Qed.

(** C2.  The prober makes the attempts 1, 2, ... in turn, each a
    connection with the timeout of 5 seconds, and sleeps 30 seconds between
    two attempts and nowhere else.  It makes [n] attempts, at most
    [max_attempts]; when it returns true, attempt [n] is the first one that
    was accepted and nothing follows it; when it returns false, all
    [max_attempts] attempts were made and none was accepted. *)
Theorem readiness_prober_attempts env ip port max_attempts w :
  exists ready evs n,
    test_winrm_connectivity env ip port max_attempts w
    = (Return ready, extend w evs) /\
    effects evs = attempts_trace ip port n /\
    n <= max_attempts /\
    (forall k, 1 <= k < n -> accepted env k = false) /\
    (ready = true -> 1 <= n /\ accepted env n = true) /\
    (ready = false ->
     n = max_attempts /\
     forall k, 1 <= k <= max_attempts -> accepted env k = false).
Proof.
  destruct (prober_run env ip port max_attempts w)
    as (ready & evs & n & H1 & H2 & H3 & H4 & H5 & H6 & _).
  exists ready, evs, n. repeat split; auto; try apply H5; try apply H6; auto.
Qed.

Lemma not_accepted env k :
  connect_ex env k <> Ok 0%Z -> accepted env k = false.
Proof.
  unfold accepted. intros H. destruct (connect_ex env k) as [r|e]; auto.
  destruct (Z.eqb_spec r 0); auto. subst. contradiction.
Qed.

(** C7.  When no attempt is answered by an accepted connection, the
    prober returns [False] to its caller, with no exception, after having
    made all [max_attempts] attempts. *)
Theorem readiness_prober_gives_up env ip port max_attempts w :
  (forall k, connect_ex env k <> Ok 0%Z) ->
  exists evs,
    test_winrm_connectivity env ip port max_attempts w
    = (Return false, extend w evs) /\
    effects evs = attempts_trace ip port max_attempts.
Proof.
  intros Hnever.
  destruct (prober_run env ip port max_attempts w)
    as (ready & evs & n & Hrun & Heff & Hn & Hbefore & Hyes & Hno & _).
  destruct ready.
  - destruct (Hyes eq_refl) as [_ Hacc].
    rewrite (not_accepted _ _ (Hnever n)) in Hacc. discriminate.
  - destruct (Hno eq_refl) as [-> _]. now exists evs.
Qed.

(** ** The configuration phase *)

Definition is_inventory_write (e : event) : bool :=
  match e with
  | WriteFile Inventory _ => true
  | _ => false
  end.

(** The events of the configuration proper: the inventory is written or
    the playbook is run. *)
Definition configures (e : event) : bool :=
  is_inventory_write e || is_playbook e.

Lemma existsb_effects (f : event -> bool) evs :
  (forall e, f e = true -> is_effect e = true) ->
  existsb f evs = existsb f (effects evs).
Proof.
  intros Hf. induction evs as [|e evs IH]; [reflexivity|].
  simpl. destruct (is_effect e) eqn:He; simpl; rewrite IH; [reflexivity|].
  destruct (f e) eqn:Hfe; [|reflexivity].
  apply Hf in Hfe. congruence.
Qed.

Lemma existsb_attempts_trace (f : event -> bool) ip port n :
  f (Connect ip port 5) = false -> f (Sleep 30) = false ->
  existsb f (attempts_trace ip port n) = false.
Proof.
  intros Hc Hs. induction n as [|n IH]; [reflexivity|].
  rewrite attempts_trace_S. simpl. rewrite Hc, existsb_app, IH.
  destruct (0 <? n); simpl; now rewrite ?Hs.
Qed.

Lemma configures_effect e : configures e = true -> is_effect e = true.
Proof. now destruct e. Qed.

Lemma prober_configures_nothing ip port n evs :
  effects evs = attempts_trace ip port n -> existsb configures evs = false.
Proof.
  intros H. rewrite (existsb_effects configures evs configures_effect), H.
  now apply existsb_attempts_trace.
Qed.

(** The script up to the moment the instance exists. *)
Definition provisioning (env : outside) (args : arguments)
  : M (text * text) :=
  banner "DC AUTOMATION - TERRAFORM + ANSIBLE DEPLOYMENT" ;;
  check_prerequisites env ;;
  deploy_infrastructure env args.

Lemma main_deploy env args w :
  act args = Deploy -> skip_ansible args = false ->
  main env args w
  = (deployed <- provisioning env args ;;
     configure_with_ansible env (fst deployed) (snd deployed) args ;;
     log [Str "Script completed!"] SUCCESS) w.
Proof.
  intros Hact Hskip. unfold main, provisioning. rewrite Hact, Hskip.
  unfold bind.
  destruct (banner _ w) as [[[]| | |] w1]; try reflexivity.
  destruct (check_prerequisites env w1) as [[[]| | |] w2]; try reflexivity.
  destruct (deploy_infrastructure env args w2) as [[[ip id]| | |] w3];
    reflexivity.
Qed.

Arguments test_winrm_connectivity : simpl never.
Arguments run_playbook_with_retries : simpl never.
Arguments update_inventory : simpl never.
Arguments strip : simpl never.

(** When the prober gives up, the configuration phase does nothing but
    log. *)
Lemma configure_not_ready env ip id args w evs :
  test_winrm_connectivity env ip 5985 20
    (extend w [Banner "PHASE 2: WAITING FOR INSTANCE TO BE READY"])
  = (Return false,
     extend (extend w [Banner "PHASE 2: WAITING FOR INSTANCE TO BE READY"])
            evs) ->
  configure_with_ansible env ip id args w
  = (Return tt,
     extend w
       (Banner "PHASE 2: WAITING FOR INSTANCE TO BE READY" :: evs ++
        [Log WARNING
           [Str "Instance not ready. You can run Ansible manually later."];
         Log INFO manual_command])).
Proof.
  intros Hrun. unfold configure_with_ansible.
  unfold banner at 1, emit at 1. unfold bind at 1.
  unfold bind at 1. rewrite Hrun. run. now tidy.
Qed.

(** C6.  When the script has provisioned the instance and no connection
    attempt is ever accepted, the configuration phase is skipped: after
    provisioning the only effects are the 20 connection attempts (no
    command retrieves the secret, no file is written, the playbook is not
    run), the inventory is as provisioning left it, the manual command is
    logged and the process ends with status 0. *)
Theorem readiness_exhausted_skips_configuration
    env args w instance_ip instance_id w1 :
  act args = Deploy ->
  skip_ansible args = false ->
  provisioning env args w = (Return (instance_ip, instance_id), w1) ->
  (forall k, connect_ex env k <> Ok 0%Z) ->
  exists evs,
    main env args w = (Return tt, extend w1 evs) /\
    exit_status (fst (main env args w)) = Some 0%Z /\
    effects evs = attempts_trace instance_ip 5985 20 /\
    In (Log INFO manual_command) evs /\
    inventory (snd (main env args w)) = inventory w1.
Proof.
  intros Hact Hskip Hprov Hnever.
  destruct (prober_run env instance_ip 5985 20
              (extend w1 [Banner "PHASE 2: WAITING FOR INSTANCE TO BE READY"]))
    as (ready & evs & n & Hrun & Heff & _ & _ & Hyes & Hno & _).
  destruct ready.
  { destruct (Hyes eq_refl) as [_ Hacc].
    rewrite (not_accepted _ _ (Hnever n)) in Hacc. discriminate. }
  destruct (Hno eq_refl) as [-> _].
  pose proof (@configure_not_ready env instance_ip instance_id args w1 evs Hrun)
    as Hconf.
  assert (Hmain : main env args w
    = (Return tt,
       extend w1
         ((Banner "PHASE 2: WAITING FOR INSTANCE TO BE READY" :: evs ++
           [Log WARNING
              [Str "Instance not ready. You can run Ansible manually later."];
            Log INFO manual_command])
          ++ [Log SUCCESS [Str "Script completed!"]]))).
  { rewrite main_deploy by assumption.
    unfold bind at 1. rewrite Hprov. simpl fst; simpl snd.
    unfold bind at 1. rewrite Hconf. run. now tidy. }
  rewrite Hmain. eexists. split; [reflexivity|].
  split; [reflexivity|].
  split.
  { rewrite effects_app. change (effects (?e :: ?l)) with (effects l).
    rewrite effects_app, Heff. simpl. now rewrite ?app_nil_r. }
  split; [|reflexivity].
  apply in_or_app. left. right. apply in_or_app. right. right. now left.
Qed.

Lemma trace_set_inventory c w : trace (set_inventory c w) = trace w.
Proof. reflexivity. Qed.

Lemma inventory_set_inventory c w : inventory (set_inventory c w) = Some c.
Proof. reflexivity. Qed.

#[global] Hint Rewrite trace_set_inventory inventory_set_inventory : world.

(** Closes goals that say a list of events holds none of some kind, from
    the hypotheses that say so of its parts. *)
Ltac quiet :=
  unfold secret_free in *;
  repeat (progress (simpl; rewrite ?existsb_app));
  repeat match goal with
         | H : existsb _ _ = false |- _ => rewrite H
         end;
  simpl; reflexivity.

(** Splits the events of a failed edit, which follow those of the prober,
    [evs0], into the report of the handler and what is before it. *)
Ltac failed_last evs0 :=
  match goal with
  | |- exists before e,
         _ /\ _ /\ ?b :: (evs0 ++ ?a) ++ [Log ERROR [_; Exc ?x]] = _ /\ _ =>
      exists (b :: evs0 ++ a), x;
      split; [reflexivity|]; split; [|split; [reflexivity | quiet]]
  end.

(** What the handler can report once a password is in memory: the
    inventory cannot be read, or [re] refuses one of the two templates. *)
Definition edit_failed (ip password : text) (w : world) (e : exn) : Prop :=
  (inventory w = None /\ e = OSError "FileNotFoundError") \/
  exists c, inventory w = Some c /\ update_inventory ip password c = Err e.

(** Every way through [configure_with_ansible]: either the inventory is
    left alone and the playbook is not run, and then no log line holds
    the password unless the edit failed, which the last line reports; or
    a non-empty password was retrieved, the edited inventory was written
    and the last event is the log line of the summary, the only one that
    holds the password. *)
Lemma configure_cases env ip id args w :
  exists o w' evs,
    configure_with_ansible env ip id args w = (o, w') /\
    trace w' = trace w ++ evs /\
    ((w' = extend w evs /\ existsb configures evs = false /\
      (secret_free evs \/
       exists raw before e,
         run_result env (Ec2GetPasswordData id (region args)) = Some raw /\
         edit_failed ip (strip raw) w e /\
         evs = before ++ [Log ERROR (failure_report e)] /\
         secret_free before)) \/
     (exists raw c c' before,
        run_result env (Ec2GetPasswordData id (region args)) = Some raw /\
        strip raw <> [] /\
        inventory w = Some c /\
        update_inventory ip (strip raw) c = Ok c' /\
        inventory w' = Some c' /\
        o = Return tt /\
        evs = before ++ [Log INFO (password_summary (strip raw))] /\
        secret_free before)).
Proof.
  destruct (prober_run env ip 5985 20
              (extend w [Banner "PHASE 2: WAITING FOR INSTANCE TO BE READY"]))
    as (ready & evs0 & n & Hrun & Heff & _ & _ & _ & _ & Hq0).
  pose proof (@prober_configures_nothing _ _ _ _ Heff) as Hc0.
  destruct ready.
  2:{ (* the prober gave up *)
      rewrite (@configure_not_ready env ip id args w evs0 Hrun).
      do 3 eexists. split; [reflexivity|]. split; [reflexivity|].
      left. split; [reflexivity|]. split; [quiet | left; quiet]. }
  unfold configure_with_ansible.
  unfold banner at 1, emit at 1. unfold bind at 1.
  unfold bind at 1. rewrite Hrun. cbn [negb]. cbv iota.
  unfold try_except, run_command_output.
  destruct (run_result env (Ec2GetPasswordData id (region args)))
    as [raw|] eqn:Hraw.
  2:{ (* the command failed: [sys.exit(1)] *)
      unfold command_failed. run. tidy.
      do 3 eexists. split; [reflexivity|]. split; [reflexivity|].
      left. split; [reflexivity|]. split; [quiet | left; quiet]. }
  destruct (strip raw) as [|p password] eqn:Hpw.
  { (* an empty password *)
    run. tidy.
    do 3 eexists. split; [reflexivity|]. split; [reflexivity|].
    left. split; [reflexivity|]. split; [quiet | left; quiet]. }
  unfold read_inventory. run. tidy.
  destruct (inventory w) as [c|] eqn:Hinv.
  2:{ (* no inventory file *)
      run. tidy.
      do 3 eexists. split; [reflexivity|]. split; [reflexivity|].
      left. split; [reflexivity|]. split; [quiet|].
      right. exists raw. rewrite Hpw. failed_last evs0.
      left. now split. }
  destruct (update_inventory ip (p :: password) c) as [c'|e] eqn:Hup.
  2:{ (* [re.sub] refused a template *)
      run. tidy.
      do 3 eexists. split; [reflexivity|]. split; [reflexivity|].
      left. split; [reflexivity|]. split; [quiet|].
      right. exists raw. rewrite Hpw. failed_last evs0.
      right. now exists c. }
  unfold write_inventory. run. tidy.
  match goal with
  | |- context [run_playbook_with_retries env 2 ?W] =>
      destruct (retry_loop_run env 2 W) as (st & evsL & HL & _ & _ & HqL)
  end.
  rewrite HL.
  destruct (snd st); run; tidy;
    do 3 eexists; (split; [reflexivity|]); tidy;
    (split; [rewrite <- app_assoc; reflexivity|]);
    right; exists raw, c, c';
    eexists; rewrite Hpw;
    (split; [reflexivity|]); (split; [discriminate|]);
    (split; [reflexivity|]); (split; [exact Hup|]);
    (split; [reflexivity|]); (split; [reflexivity|]);
    (split;
     [ match goal with
       | |- context [evsL ++ ?t] =>
           let t' := eval cbv in (removelast t) in
           change t with (t' ++ [Log INFO (password_summary (p :: password))])
       end;
       rewrite (app_assoc evsL); rewrite !app_comm_cons;
       rewrite app_assoc; reflexivity
     | quiet ]).
Qed.

(** C10.  When no non-empty password is retrieved (the command fails or
    its output is empty once stripped), the configuration phase leaves the
    files as they are, writes no inventory and does not run the
    playbook. *)
Theorem empty_secret_skips_configuration env ip id args w :
  (forall raw,
     run_result env (Ec2GetPasswordData id (region args)) = Some raw ->
     strip raw = []) ->
  exists o evs,
    configure_with_ansible env ip id args w = (o, extend w evs) /\
    inventory (snd (configure_with_ansible env ip id args w)) = inventory w /\
    existsb is_inventory_write evs = false /\
    existsb is_playbook evs = false.
Proof.
  intros Hempty.
  destruct (configure_cases env ip id args w)
    as (o & w' & evs & Hrun & _ & [(-> & Hnone & _) | Hsecret]).
  - exists o, evs. rewrite Hrun. split; [reflexivity|]. split; [reflexivity|].
    unfold configures in Hnone.
    split; apply not_true_is_false; intros Hex;
      apply existsb_exists in Hex; destruct Hex as (e & Hin & He);
      assert (Hc : existsb (fun e => is_inventory_write e || is_playbook e) evs
                   = true)
        by (apply existsb_exists; exists e; rewrite He;
            split; [exact Hin | now rewrite ?orb_true_r]);
      congruence.
  - destruct Hsecret as (raw & c & c' & before & Hraw & Hne & _).
    now apply Hempty in Hraw.
Qed.

(** ** The configuration-only entry point *)

(** The script up to the dispatch on the action. *)
Definition startup (env : outside) : M unit :=
  banner "DC AUTOMATION - TERRAFORM + ANSIBLE DEPLOYMENT" ;;
  check_prerequisites env.

Lemma main_ansible_only env args w :
  act args = AnsibleOnly ->
  main env args w
  = (startup env ;; ansible_only env ;;
     log [Str "Script completed!"] SUCCESS) w.
Proof.
  intros Hact. unfold main, startup. rewrite Hact.
  unfold bind, banner, emit.
  destruct (check_prerequisites env _) as [[[]| | |] w2]; reflexivity.
Qed.



(** *** Concrete runs *)

(** An outside where every command succeeds. *)
Definition sample_run_result (password_output : text) (cmd : command)
  : option text :=
  match cmd with
  | TerraformVersion => Some (txt "Terraform v1.5.7")
  | AnsibleVersion => Some (txt "ansible [core 2.15.4]")
  | TerraformOutput name =>
      if String.eqb name "instance_id" then Some (txt "i-0abc")
      else Some (txt "203.0.113.5")
  | Ec2GetPasswordData _ _ => Some password_output
  | _ => Some []
  end.

(** [connect_ex] answers [ECONNREFUSED] at every attempt before
    [ready_at], when there is one. *)
Definition sample_outside (password_output : text) (ready_at : option nat)
    (returncodes : nat -> Z) : outside :=
  {| run_result := sample_run_result password_output;
     connect_ex := fun attempt =>
                     match ready_at with
                     | Some n => if n <=? attempt then Ok 0%Z else Ok 111%Z
                     | None => Ok 111%Z
                     end;
     playbook_returncode := returncodes;
     answer := fun _ => txt "y";
     tfvars_example := Some [];
     key_exists := true;
     pub_key_exists := true |}.

Definition sample_arguments (a : action) : arguments :=
  {| act := a;
     environment := txt "staging";
     region := txt "eu-west-1";
     instance_type := txt "t3a.medium";
     elastic_ip := false;
     create_rds := false;
     skip_ansible := false;
     force := true |}.

Definition sample_world (inv : text) : world :=
  {| tfvars := Some []; inventory := Some inv; trace := [] |}.

(** An inventory with a host and no password. *)
Definition inventory_without_password : text :=
  txt "all:" ++ newline ::
  txt "  hosts:" ++ newline ::
  txt "    dc01:" ++ newline ::
  txt "      ansible_host: 10.0.0.1" ++ [newline].

Definition never_ready : outside :=
  sample_outside (txt "S3cret") None (fun _ => 0%Z).



Lemma readiness_prober_gives_up_witness :
  exists evs,
    test_winrm_connectivity never_ready (txt "203.0.113.5") 5985 20
      (sample_world [])
    = (Return false, extend (sample_world []) evs) /\
    effects evs = attempts_trace (txt "203.0.113.5") 5985 20.
Proof.
  apply (@readiness_prober_gives_up never_ready).
  intros k. discriminate.
Defined.

Lemma readiness_exhausted_skips_configuration_witness :
  exists evs,
    main never_ready (sample_arguments Deploy) (sample_world [])
    = (Return tt,
       extend (snd (provisioning never_ready (sample_arguments Deploy)
                      (sample_world []))) evs) /\
    exit_status (fst (main never_ready (sample_arguments Deploy)
                        (sample_world []))) = Some 0%Z /\
    effects evs = attempts_trace (txt "203.0.113.5") 5985 20 /\
    In (Log INFO manual_command) evs /\
    inventory (snd (main never_ready (sample_arguments Deploy)
                      (sample_world [])))
    = inventory (snd (provisioning never_ready (sample_arguments Deploy)
                        (sample_world []))).
Proof.
  apply (@readiness_exhausted_skips_configuration never_ready
           (sample_arguments Deploy) (sample_world [])
           (txt "203.0.113.5") (txt "i-0abc")
           (snd (provisioning never_ready (sample_arguments Deploy)
                   (sample_world [])))).
  - reflexivity.
  - reflexivity.
  - vm_compute. reflexivity.
  - intros k. discriminate.
Defined.

(** An outside whose password command prints blank space only. *)
Definition blank_password : outside :=
  sample_outside (txt "  ") (Some 1) (fun _ => 0%Z).

Lemma empty_secret_skips_configuration_witness :
  exists o evs,
    configure_with_ansible blank_password (txt "203.0.113.5") (txt "i-0abc")
      (sample_arguments Deploy) (sample_world inventory_without_password)
    = (o, extend (sample_world inventory_without_password) evs) /\
    inventory (snd (configure_with_ansible blank_password
                      (txt "203.0.113.5") (txt "i-0abc")
                      (sample_arguments Deploy)
                      (sample_world inventory_without_password)))
    = inventory (sample_world inventory_without_password) /\
    existsb is_inventory_write evs = false /\
    existsb is_playbook evs = false.
Proof.
  apply (@empty_secret_skips_configuration blank_password).
  intros raw Hraw. simpl in Hraw. injection Hraw as <-. reflexivity.
Defined.

(** ** Text lemmas *)

Lemma ascii_eqb_eq a b : ascii_eqb a b = true <-> a = b.
Proof. apply Ascii.eqb_eq. Qed.

Lemma ascii_eqb_refl a : ascii_eqb a a = true.
Proof. now apply ascii_eqb_eq. Qed.

Lemma strip_prefix_app lit s rest :
  strip_prefix lit s = Some rest <-> s = lit ++ rest.
Proof.
  revert s. induction lit as [|a lit IH]; intros s; simpl.
  - split; [now intros [= ->] | now intros ->].
  - destruct s as [|b s]; [split; discriminate|].
    destruct (ascii_eqb a b) eqn:Hab.
    + apply ascii_eqb_eq in Hab. subst b. rewrite IH.
      split; [now intros -> | now intros [= ->]].
    + split; [discriminate|]. intros [= -> _].
      now rewrite ascii_eqb_refl in Hab.
Qed.

Lemma strip_prefix_same lit rest : strip_prefix lit (lit ++ rest) = Some rest.
Proof. now apply strip_prefix_app. Qed.

(** A prefix of a text is a prefix of every text that extends it. *)
Lemma strip_prefix_none_app lit a b :
  strip_prefix lit (a ++ b) = None -> strip_prefix lit a = None.
Proof.
  intros H. destruct (strip_prefix lit a) as [r|] eqn:Ha; [|reflexivity].
  apply strip_prefix_app in Ha. subst a.
  now rewrite <- app_assoc, strip_prefix_same in H.
Qed.

(** A text found at the start of [s] has its characters in [s]. *)
Lemma strip_prefix_In lit s rest c :
  strip_prefix lit s = Some rest -> In c lit -> In c s.
Proof.
  intros H Hin. apply strip_prefix_app in H. subst s.
  apply in_or_app. now left.
Qed.

Lemma contains_cons lit c s :
  contains lit (c :: s) = starts_with lit (c :: s) || contains lit s.
Proof. reflexivity. Qed.

(** A text with a character that [s] lacks does not occur in [s]. *)
Lemma contains_missing_char lit s c :
  In c lit -> ~ In c s -> contains lit s = false.
Proof.
  intros Hlit. induction s as [|b s IH]; intros Hs.
  - destruct lit; [destruct Hlit | reflexivity].
  - rewrite contains_cons, IH by (intros H; apply Hs; now right).
    unfold starts_with.
    destruct (strip_prefix lit (b :: s)) as [r|] eqn:Hp; [|reflexivity].
    exfalso. apply Hs. eapply strip_prefix_In; eauto.
Qed.

(** *** Lines *)

Definition no_newline (s : text) : Prop :=
  forallb (fun c => negb (is_newline c)) s = true.

Lemma lines_cons c s :
  lines (c :: s)
  = if is_newline c then [] :: lines s
    else (c :: hd [] (lines s)) :: tl (lines s).
Proof.
  simpl. destruct (is_newline c); [reflexivity|].
  destruct (lines s) eqn:Hl; [|reflexivity].
  destruct s as [|b s]; simpl in Hl; [discriminate|].
  destruct (is_newline b); [discriminate|]. now destruct (lines s).
Qed.

Lemma lines_app a s :
  no_newline a ->
  lines (a ++ s) = (a ++ hd [] (lines s)) :: tl (lines s).
Proof.
  unfold no_newline. induction a as [|c a IH]; intros Ha.
  - simpl app. destruct (lines s) eqn:Hl; [|reflexivity].
    destruct s as [|b s]; [discriminate|]. rewrite lines_cons in Hl.
    destruct (is_newline b); discriminate.
  - simpl in Ha. apply andb_true_iff in Ha as [Hc Ha].
    change ((c :: a) ++ s) with (c :: a ++ s).
    rewrite lines_cons, IH by assumption.
    now destruct (is_newline c).
Qed.

(** A text starts with its first line. *)
Lemma first_line_prefix s : exists r, s = hd [] (lines s) ++ r.
Proof.
  induction s as [|c s IH]; [now exists []|].
  rewrite lines_cons. destruct (is_newline c).
  - now exists (c :: s).
  - destruct IH as (r & Hr). exists r. simpl. now rewrite <- Hr.
Qed.

(** ** The characters of a file *)

Definition no_carriage_return (raw : text) : Prop :=
  forallb (fun c => negb (ascii_eqb c carriage_return)) raw = true.

(** A file without CR is read as it is. *)
Lemma universal_newlines_plain raw :
  no_carriage_return raw -> universal_newlines raw = raw.
Proof.
  unfold no_carriage_return. induction raw as [|c raw IH]; [reflexivity|].
  simpl. intros H. apply andb_true_iff in H as [Hc H].
  apply negb_true_iff in Hc. rewrite Hc. now rewrite IH.
Qed.

(** Where the line end is LF the text is written as it is. *)
Lemma write_newlines_plain s : write_newlines [newline] s = s.
Proof.
  unfold write_newlines. induction s as [|c s IH]; [reflexivity|].
  simpl. rewrite IH. destruct (is_newline c) eqn:Hc; [|reflexivity].
  apply ascii_eqb_eq in Hc. now subst c.
Qed.

(** ** [str.replace] *)

Section Replace.

Variables old new : text.
Hypothesis old_nonempty : old <> [].

Lemma strip_prefix_shorter c s rest :
  strip_prefix old (c :: s) = Some rest -> length rest <= length s.
Proof.
  intros Hr. apply strip_prefix_app in Hr.
  apply (f_equal (@length ascii)) in Hr. rewrite length_app in Hr.
  destruct old; [contradiction|]. simpl in Hr. lia.
Qed.

Lemma replace_fuel_enough fuel :
  forall s fuel', length s <= fuel -> length s <= fuel' ->
  replace_fuel fuel old new s = replace_fuel fuel' old new s.
Proof.
  induction fuel as [|fuel IH]; intros s fuel' H H'.
  - destruct s; [|simpl in H; lia]. now destruct fuel'.
  - destruct s as [|c s]; [now destruct fuel'|].
    destruct fuel' as [|fuel']; [simpl in H'; lia|].
    simpl length in *. cbn [replace_fuel].
    destruct (strip_prefix old (c :: s)) as [rest|] eqn:Hp.
    + apply strip_prefix_shorter in Hp. f_equal. apply IH; lia.
    + f_equal. apply IH; lia.
Qed.

Lemma replace_eq s : replace old new s = replace_fuel (length s) old new s.
Proof. unfold replace. destruct old; [contradiction | reflexivity]. Qed.

Lemma replace_nil : replace old new [] = [].
Proof. now rewrite replace_eq. Qed.

(** The equation of the scan. *)
Lemma replace_cons c s :
  replace old new (c :: s)
  = match strip_prefix old (c :: s) with
    | Some rest => new ++ replace old new rest
    | None => c :: replace old new s
    end.
Proof.
  rewrite !replace_eq. simpl length. cbn [replace_fuel].
  destruct (strip_prefix old (c :: s)) as [rest|] eqn:Hp.
  - rewrite replace_eq. f_equal. apply strip_prefix_shorter in Hp.
    apply replace_fuel_enough; lia.
  - reflexivity.
Qed.

Lemma replace_occurrence rest :
  replace old new (old ++ rest) = new ++ replace old new rest.
Proof.
  destruct (old ++ rest) as [|c s] eqn:Hs.
  - apply app_eq_nil in Hs as [Hold _]. contradiction.
  - rewrite replace_cons, <- Hs. now rewrite strip_prefix_same.
Qed.

(** Where [old] does not occur nothing changes. *)
Lemma replace_absent s : contains old s = false -> replace old new s = s.
Proof.
  induction s as [|c s IH]; intros H; [apply replace_nil|].
  rewrite contains_cons in H. apply orb_false_iff in H as [Hhere Hlater].
  rewrite replace_cons. unfold starts_with in Hhere.
  destruct (strip_prefix old (c :: s)); [discriminate|].
  now rewrite IH.
Qed.

Hypothesis old_one_line : no_newline old.
Hypothesis new_one_line : no_newline new.

(** Occurrences lie within lines and the replacement adds no line: the
    text is replaced line by line. *)
Lemma replace_lines s :
  lines (replace old new s) = map (replace old new) (lines s).
Proof.
  remember (length s) as n eqn:Hn. revert s Hn.
  induction n as [n IH] using lt_wf_ind. intros s Hn.
  destruct s as [|c s]; [now rewrite replace_nil; simpl; rewrite replace_nil|].
  rewrite replace_cons.
  destruct (strip_prefix old (c :: s)) as [rest|] eqn:Hp.
  - pose proof (strip_prefix_shorter _ _ Hp) as Hlen.
    apply strip_prefix_app in Hp. rewrite Hp.
    rewrite !lines_app by assumption.
    rewrite (IH (length rest)) by (subst n; simpl; lia || reflexivity).
    simpl map. rewrite replace_occurrence.
    destruct (lines rest) as [|h t] eqn:Hl; simpl.
    + now rewrite replace_nil.
    + reflexivity.
  - rewrite !lines_cons.
    rewrite (IH (length s)) by (subst n; simpl; lia || reflexivity).
    destruct (is_newline c) eqn:Hc.
    + simpl. now rewrite replace_nil.
    + destruct (first_line_prefix s) as (r & Hr).
      assert (Hhere : strip_prefix old (c :: hd [] (lines s)) = None).
      { apply strip_prefix_none_app with (b := r).
        change ((c :: hd [] (lines s)) ++ r) with (c :: hd [] (lines s) ++ r).
        now rewrite <- Hr. }
      destruct (lines s) as [|h t] eqn:Hl; simpl in *.
      * rewrite replace_cons, Hhere. now rewrite replace_nil.
      * now rewrite replace_cons, Hhere.
Qed.

End Replace.

(** ** The variables template *)

(** The assignments the script looks for, in the order of lines 161-165,
    and what it puts in their place. *)
Definition defaults : list text :=
  [quoted_assignment "environment" (txt "dev");
   quoted_assignment "aws_region" (txt "us-east-1");
   quoted_assignment "instance_type" (txt "t3a.medium");
   plain_assignment "use_elastic_ip" (txt "false");
   plain_assignment "create_rds" (txt "false")].

Definition overrides (args : arguments) : list text :=
  [quoted_assignment "environment" (environment args);
   quoted_assignment "aws_region" (region args);
   quoted_assignment "instance_type" (instance_type args);
   plain_assignment "use_elastic_ip" (bool_lower (elastic_ip args));
   plain_assignment "create_rds" (bool_lower (create_rds args))].

(** The characters of environment names, regions and instance types. *)
Definition is_name_char (c : ascii) : bool :=
  is_ascii_letter c || is_digit c
  || ascii_eqb c "-" || ascii_eqb c "_" || ascii_eqb c ".".

Definition name_like (v : text) : Prop := forallb is_name_char v = true.

Definition valid_request (args : arguments) : Prop :=
  name_like (environment args) /\ name_like (region args) /\
  name_like (instance_type args).

(** No line of the template carries a default when none of the five
    assignments occurs in it. *)
Definition carries_no_default (l : text) : bool :=
  forallb (fun d => negb (contains d l)) defaults.

Lemma forallb_impl (p q : ascii -> bool) s :
  (forall c, p c = true -> q c = true) ->
  forallb p s = true -> forallb q s = true.
Proof.
  intros Hpq. rewrite !forallb_forall. auto.
Qed.

Lemma name_like_no_newline v : name_like v -> no_newline v.
Proof.
  apply forallb_impl. intros c Hc. unfold is_newline.
  destruct (ascii_eqb c newline) eqn:E; [|reflexivity].
  apply ascii_eqb_eq in E. now subst c.
Qed.

Lemma no_newline_app a b : no_newline a -> no_newline b -> no_newline (a ++ b).
Proof. unfold no_newline. intros Ha Hb. now rewrite forallb_app, Ha, Hb. Qed.

Lemma quoted_assignment_one_line name v :
  no_newline (txt name) -> no_newline v ->
  no_newline (quoted_assignment name v).
Proof.
  intros Hn Hv. unfold quoted_assignment.
  repeat apply no_newline_app; auto; try reflexivity.
Qed.

(** A text with an equals sign does not occur in what follows the equals
    sign of an assignment of a name-like value. *)
Lemma contains_after_equals d v :
  existsb (ascii_eqb "=") d = true -> name_like v ->
  contains d (v ++ [dquote]) = false.
Proof.
  intros Hd Hv. apply existsb_exists in Hd as (c & Hin & Hc).
  apply ascii_eqb_eq in Hc. subst c.
  apply contains_missing_char with (c := "="%char); [assumption|].
  intros Hin'. apply in_app_or in Hin' as [Hin'|[Hin'|[]]]; [|discriminate].
  unfold name_like in Hv. rewrite forallb_forall in Hv.
  now apply Hv in Hin'.
Qed.

Lemma some_eq {A : Type} (x y : A) : Some x = Some y -> x = y.
Proof. now intros [= ->]. Qed.

(** Closes [contains d l = false] for a default [d] and a line [l] that
    is concrete or the assignment of a name-like value. *)
Ltac absent_here :=
  first [ reflexivity
        | unfold quoted_assignment; cbn;
          apply contains_after_equals; [reflexivity | assumption]
        | match goal with
          | |- context [bool_lower ?b] => destruct b; reflexivity
          end ].

(** Steps over the innermost [replace] whose text is free of [old]. *)
Ltac skip_replace_by tac :=
  match goal with
  | |- context [replace ?o ?n ?line] =>
      lazymatch line with
      | context [replace] => fail
      | _ => rewrite (@replace_absent o n) with (s := line);
             [ | discriminate | tac ]
      end
  end.

Ltac skip_replace := skip_replace_by absent_here.

(** Rewrites the innermost [replace], which meets its own default. *)
Ltac hit_replace :=
  match goal with
  | |- context [replace ?o ?n ?o] =>
      replace (replace o n o) with n
        by (rewrite <- (app_nil_r o) at 2;
            rewrite replace_occurrence, replace_nil, app_nil_r by discriminate;
            reflexivity)
  end.

Lemma render_default args :
  valid_request args ->
  forall k d o,
    nth_error defaults k = Some d ->
    nth_error (overrides args) k = Some o ->
    render_tfvars args d = o.
Proof.
  intros (Henv & Hreg & Htype) k d o Hd Ho.
  unfold defaults, overrides in *.
  destruct k as [|[|[|[|[|k]]]]]; cbn [nth_error] in Hd, Ho;
    try (destruct k; discriminate);
    apply some_eq in Hd, Ho; subst d o; unfold render_tfvars.
  all: repeat skip_replace; hit_replace; repeat skip_replace; reflexivity.
Qed.

(** A line without any default is left as it is. *)
Lemma render_other args l :
  carries_no_default l = true -> render_tfvars args l = l.
Proof.
  unfold carries_no_default, defaults. cbn [forallb].
  rewrite !andb_true_iff, !negb_true_iff.
  intros (H1 & H2 & H3 & H4 & H5 & _). unfold render_tfvars.
  repeat skip_replace_by assumption. reflexivity.
Qed.

(** The substitution works line by line. *)
Lemma render_lines args template :
  valid_request args ->
  lines (render_tfvars args template)
  = map (render_tfvars args) (lines template).
Proof.
  intros (Henv & Hreg & Htype). unfold render_tfvars.
  rewrite !replace_lines;
    try discriminate; try reflexivity;
    try (apply quoted_assignment_one_line;
         [reflexivity | now apply name_like_no_newline]);
    try (match goal with
         | |- context [bool_lower ?b] => now destruct b
         end).
  rewrite !map_map. reflexivity.
Qed.

(** *** Assignments *)

(** The equals sign: every text the script looks for and every text it
    puts in holds one. *)
Definition equals : ascii := "="%char.

Definition no_equals (s : text) : Prop :=
  forallb (fun c => negb (ascii_eqb c equals)) s = true.

Lemma no_equals_app a b : no_equals (a ++ b) <-> no_equals a /\ no_equals b.
Proof. unfold no_equals. now rewrite forallb_app, andb_true_iff. Qed.

Lemma no_equals_cons c s :
  no_equals (c :: s) <-> ascii_eqb c equals = false /\ no_equals s.
Proof.
  unfold no_equals. simpl. now rewrite andb_true_iff, negb_true_iff.
Qed.

Lemma no_equals_not_in s : no_equals s -> ~ In equals s.
Proof.
  unfold no_equals. rewrite forallb_forall. intros H Hin.
  apply H in Hin. now rewrite ascii_eqb_refl in Hin.
Qed.

Lemma name_like_no_equals v : name_like v -> no_equals v.
Proof.
  apply forallb_impl. intros c Hc.
  destruct (ascii_eqb c equals) eqn:E; [|reflexivity].
  apply ascii_eqb_eq in E. now subst c.
Qed.

(** A text is cut at its first equals sign in one way. *)
Lemma split_at_equals u :
  forall u' v v',
    no_equals u -> no_equals u' ->
    u ++ equals :: v = u' ++ equals :: v' -> u = u' /\ v = v'.
Proof.
  induction u as [|c u IH]; intros [|c' u'] v v' Hu Hu' Heq.
  - now injection Heq.
  - simpl in Heq. injection Heq as <- _.
    apply no_equals_cons in Hu' as [Hc _]. now rewrite ascii_eqb_refl in Hc.
  - simpl in Heq. injection Heq as -> _.
    apply no_equals_cons in Hu as [Hc _]. now rewrite ascii_eqb_refl in Hc.
  - simpl in Heq. injection Heq as -> Heq.
    apply no_equals_cons in Hu as [_ Hu].
    apply no_equals_cons in Hu' as [_ Hu'].
    destruct (IH _ _ _ Hu Hu' Heq) as [-> ->]. now split.
Qed.

(** Where a text occurs. *)
Lemma contains_split lit s :
  contains lit s = true -> exists a b, s = a ++ lit ++ b.
Proof.
  induction s as [|c s IH]; intros H.
  - simpl in H. rewrite orb_false_r in H. unfold starts_with in H.
    destruct (strip_prefix lit []) as [r|] eqn:Hp; [|discriminate].
    apply strip_prefix_app in Hp. now exists [], r.
  - rewrite contains_cons in H. apply orb_true_iff in H as [H|H].
    + unfold starts_with in H.
      destruct (strip_prefix lit (c :: s)) as [r|] eqn:Hp; [|discriminate].
      apply strip_prefix_app in Hp. now exists [], r.
    + destruct (IH H) as (a & b & ->). now exists (c :: a), b.
Qed.

Definition count_equals (s : text) : nat :=
  length (filter (fun c => ascii_eqb c equals) s).

Lemma count_equals_app a b :
  count_equals (a ++ b) = count_equals a + count_equals b.
Proof. unfold count_equals. now rewrite filter_app, length_app. Qed.

Lemma count_equals_none s : no_equals s <-> count_equals s = 0.
Proof.
  unfold no_equals, count_equals. induction s as [|c s IH]; [easy|].
  simpl. destruct (ascii_eqb c equals); simpl; [easy|]. exact IH.
Qed.

Section Aligned.

(** The text looked for: [l], the equals sign and [r]. *)
Variables l r : text.
Hypothesis l_no_equals : no_equals l.
Hypothesis r_no_equals : no_equals r.

Let old : text := l ++ equals :: r.

(** In a text with one equals sign an occurrence lies with its equals
    sign on that one. *)
Lemma occurrence_aligned pre l' r' post a b :
  no_equals pre -> no_equals l' -> no_equals r' -> no_equals post ->
  pre ++ (l' ++ equals :: r') ++ post = a ++ old ++ b ->
  a ++ l = pre ++ l' /\ r ++ b = r' ++ post.
Proof.
  intros Hpre Hl' Hr' Hpost Heq.
  assert (Hcount : count_equals a + count_equals b = 0).
  { apply (f_equal count_equals) in Heq. unfold old in Heq.
    rewrite !count_equals_app in Heq.
    change (count_equals (equals :: ?x)) with (S (count_equals x)) in Heq.
    apply count_equals_none in Hpre, Hl', Hr', Hpost.
    pose proof l_no_equals as Hl. pose proof r_no_equals as Hr.
    apply count_equals_none in Hl, Hr. lia. }
  assert (Ha : no_equals a) by (apply count_equals_none; lia).
  unfold old in Heq. rewrite <- !app_assoc in Heq. simpl in Heq.
  rewrite !app_assoc in Heq. rewrite <- !app_assoc in Heq.
  change (pre ++ l' ++ equals :: r' ++ post)
    with (pre ++ l' ++ equals :: (r' ++ post)) in Heq.
  rewrite (app_assoc pre l'), (app_assoc a l) in Heq.
  apply split_at_equals in Heq as [H1 H2].
  - now split.
  - now apply no_equals_app.
  - apply no_equals_app. now split.
Qed.

Variable new : text.

Lemma old_nonempty : old <> [].
Proof. unfold old. now destruct l. Qed.

(** A text with another key in front of its one equals sign is left
    alone. *)
Lemma replace_other_key pre l' r' post :
  no_equals pre -> no_equals l' -> no_equals r' -> no_equals post ->
  (forall a p, a ++ l <> p ++ l') ->
  replace old new (pre ++ (l' ++ equals :: r') ++ post)
  = pre ++ (l' ++ equals :: r') ++ post.
Proof.
  intros Hpre Hl' Hr' Hpost Hother.
  apply replace_absent; [apply old_nonempty|].
  destruct (contains old _) eqn:Hc; [exfalso|reflexivity].
  apply contains_split in Hc as (a & b & Heq).
  destruct (@occurrence_aligned pre l' r' post a b Hpre Hl' Hr' Hpost Heq)
    as [H _].
  exact (Hother _ _ H).
Qed.

(** The text itself is replaced where it stands. *)
Lemma replace_here pre post :
  no_equals pre -> no_equals post ->
  replace old new (pre ++ old ++ post) = pre ++ new ++ post.
Proof.
  intros Hpre Hpost. induction pre as [|c pre IH].
  - simpl. rewrite replace_occurrence by apply old_nonempty. f_equal.
    apply replace_absent; [apply old_nonempty|].
    apply contains_missing_char with (c := equals).
    + unfold old. apply in_or_app. right. now left.
    + now apply no_equals_not_in.
  - change ((c :: pre) ++ old ++ post) with (c :: pre ++ old ++ post).
    rewrite replace_cons by apply old_nonempty.
    destruct (strip_prefix old (c :: pre ++ old ++ post)) as [rest|] eqn:Hp.
    + exfalso. apply strip_prefix_app in Hp.
      change (c :: pre ++ old ++ post) with ((c :: pre) ++ old ++ post) in Hp.
      destruct (@occurrence_aligned (c :: pre) l r post [] rest Hpre
                  l_no_equals r_no_equals Hpost Hp) as [H _].
      apply (f_equal (@length ascii)) in H. simpl in H.
      rewrite length_app in H. lia.
    + simpl. f_equal. apply IH. now apply no_equals_cons in Hpre as [_ ?].
Qed.

End Aligned.

(** The five texts and their replacements are assignments: a name and a
    blank, the equals sign, a blank and the value. *)
Lemma quoted_assignment_parts name value :
  quoted_assignment name value
  = (txt name ++ txt " ") ++ equals :: txt " " ++ dquote :: value ++ [dquote].
Proof. unfold quoted_assignment. now rewrite <- app_assoc. Qed.

Lemma plain_assignment_parts name value :
  plain_assignment name value = (txt name ++ txt " ") ++ equals :: txt " " ++ value.
Proof. unfold plain_assignment. now rewrite <- app_assoc. Qed.

Lemma no_equals_quoted v :
  no_equals v -> no_equals (txt " " ++ dquote :: v ++ [dquote]).
Proof.
  intros Hv. unfold no_equals in *. simpl. now rewrite forallb_app, Hv.
Qed.

(** Closes the conditions of one [replace] on an assignment. *)
Ltac no_equals_here :=
  first [ assumption
        | reflexivity
        | apply no_equals_quoted; first [ apply name_like_no_equals; assumption
                                        | reflexivity ] ].

Ltac other_key :=
  let a := fresh "a" in
  let p := fresh "p" in
  let H := fresh "H" in
  intros a p H; apply (f_equal (@rev ascii)) in H;
  rewrite !rev_app_distr in H; simpl in H; discriminate H.

(** Steps over the innermost [replace], which meets the assignment of
    its own name or of another one. *)
Ltac replace_assignment :=
  match goal with
  | |- context [replace (?lj ++ equals :: ?rj) ?new
                  (?pre ++ (?lk ++ equals :: ?rk) ++ ?post)] =>
      first
        [ rewrite (@replace_here lj rj ltac:(no_equals_here)
                     ltac:(no_equals_here) new pre post)
            by no_equals_here
        | rewrite (@replace_other_key lj rj ltac:(no_equals_here)
                     ltac:(no_equals_here) new pre lk rk post)
            by first [ no_equals_here | other_key ] ]
  end.

(** One of the five texts between texts without equals sign has the
    assignment of the request in its place. *)
Lemma render_assignment args :
  valid_request args ->
  forall k d o pre post,
    nth_error defaults k = Some d ->
    nth_error (overrides args) k = Some o ->
    no_equals pre -> no_equals post ->
    render_tfvars args (pre ++ d ++ post) = pre ++ o ++ post.
Proof.
  intros (Henv & Hreg & Htype) k d o pre post Hd Ho Hpre Hpost.
  unfold defaults, overrides in *.
  destruct k as [|[|[|[|[|k]]]]]; cbn [nth_error] in Hd, Ho;
    try (destruct k; discriminate);
    apply some_eq in Hd, Ho; subst d o; unfold render_tfvars; cbv zeta;
    destruct (elastic_ip args), (create_rds args); cbn [bool_lower];
    rewrite ?quoted_assignment_parts, ?plain_assignment_parts;
    repeat replace_assignment; reflexivity.
Qed.

(** C5, as the script has it.  The step is five [str.replace] calls on
    the text of the template, one after the other, for the five texts
    written out below, each replaced by the assignment of the request
    wherever it occurs.  For a request whose environment, region and
    instance type are name-like, the variables document has the lines of
    the template, one for one, each the substitution of the line of the
    template; a text in which none of the five texts occurs is the same
    text; and a line that holds one of the five texts between texts
    without equals sign (the assignment alone, indented, commented out,
    with a comment behind it, or as the end of a longer name) has the
    assignment of the request in its place and is the same around it.  The texts are what Python
    reads and writes in text mode; where the line end is LF and the
    template holds no CR they are the characters of the two files. *)
Theorem variables_substitution args template :
  valid_request args ->
  defaults
  = [txt "environment = " ++ dquote :: txt "dev" ++ [dquote];
     txt "aws_region = " ++ dquote :: txt "us-east-1" ++ [dquote];
     txt "instance_type = " ++ dquote :: txt "t3a.medium" ++ [dquote];
     txt "use_elastic_ip = false";
     txt "create_rds = false"] /\
  overrides args
  = [txt "environment = " ++ dquote :: environment args ++ [dquote];
     txt "aws_region = " ++ dquote :: region args ++ [dquote];
     txt "instance_type = " ++ dquote :: instance_type args ++ [dquote];
     txt "use_elastic_ip = "
       ++ (if elastic_ip args then txt "true" else txt "false");
     txt "create_rds = "
       ++ (if create_rds args then txt "true" else txt "false")] /\
  render_tfvars args template
  = fold_left (fun content change => replace (fst change) (snd change) content)
      (combine defaults (overrides args)) template /\
  length (lines (render_tfvars args template)) = length (lines template) /\
  (forall i l,
     nth_error (lines template) i = Some l ->
     nth_error (lines (render_tfvars args template)) i
     = Some (render_tfvars args l)) /\
  (forall l, carries_no_default l = true -> render_tfvars args l = l) /\
  (forall k d o pre post,
     nth_error defaults k = Some d ->
     nth_error (overrides args) k = Some o ->
     no_equals pre -> no_equals post ->
     render_tfvars args (pre ++ d ++ post) = pre ++ o ++ post) /\
  (forall raw,
     no_carriage_return raw ->
     derive_tfvars_file [newline] args raw = render_tfvars args raw).
Proof.
  intros Hvalid. split; [reflexivity|]. split; [reflexivity|].
  split; [reflexivity|].
  rewrite (render_lines template Hvalid).
  split; [apply length_map|].
  split; [intros i l Hl; now rewrite nth_error_map, Hl|].
  split; [intros l; apply render_other|].
  split; [now apply render_assignment|].
  intros raw Hraw. unfold derive_tfvars_file.
  now rewrite write_newlines_plain, universal_newlines_plain.
Qed.


(** The step itself: with no variables file and a template at hand,
    [deploy_infrastructure] writes the rendered template once
    [terraform init] has succeeded, and an existing variables file is
    never rewritten. *)
Lemma deploy_writes_tfvars env args w template :
  tfvars w = None ->
  tfvars_example env = Some template ->
  run_result env TerraformInit <> None ->
  tfvars (snd (deploy_infrastructure env args w))
  = Some (render_tfvars args template).
Proof.
  intros Hnone Htemplate Hinit.
  unfold deploy_infrastructure, run_command, run_command_output,
    command_failed, tfvars_exists, read_tfvars_example, write_tfvars, input.
  destruct (run_result env TerraformInit); [|contradiction].
  run. rewrite Hnone, Htemplate.
  destruct (force args); run;
    destruct (run_result env TerraformPlan); run; try reflexivity;
    try destruct (text_eqb _ _); run; try reflexivity;
    destruct (run_result env TerraformApply); run; try reflexivity;
    destruct (run_result env (TerraformOutput "instance_public_ip")); run;
    try reflexivity;
    destruct (run_result env (TerraformOutput "instance_id")); run;
    reflexivity.
Qed.

Lemma deploy_keeps_tfvars env args w content :
  tfvars w = Some content ->
  tfvars (snd (deploy_infrastructure env args w)) = Some content.
Proof.
  intros Hsome.
  unfold deploy_infrastructure, run_command, run_command_output,
    command_failed, tfvars_exists, read_tfvars_example, write_tfvars, input.
  destruct (run_result env TerraformInit); run; rewrite Hsome; run;
    try assumption; try reflexivity.
  destruct (force args); run;
    destruct (run_result env TerraformPlan); run; try assumption;
    try destruct (text_eqb _ _); run; try assumption;
    destruct (run_result env TerraformApply); run; try assumption;
    destruct (run_result env (TerraformOutput "instance_public_ip")); run;
    try assumption;
    destruct (run_result env (TerraformOutput "instance_id")); run;
    assumption.
Qed.

Definition sample_template : text :=
  txt "# Terraform variables" ++ newline ::
  quoted_assignment "aws_region" (txt "us-east-1") ++ newline ::
  quoted_assignment "environment" (txt "dev") ++ newline ::
  quoted_assignment "project_name" (txt "dc-automation") ++ newline ::
  quoted_assignment "instance_type" (txt "t3a.medium") ++ newline ::
  plain_assignment "use_elastic_ip" (txt "false") ++ newline ::
  plain_assignment "create_rds" (txt "false") ++ [newline].

(** A template with a variable whose name ends in [environment] and
    holds the default value, and with an environment that is not the
    default. *)
Definition decoy_template : text :=
  txt "db_environment = " ++ dquote :: txt "dev" ++ dquote :: newline ::
  txt "environment = " ++ dquote :: txt "production" ++ [dquote; newline].

(** C5, as the specification has it, fails.  For the valid request of
    the environment [staging], the line of the variable [db_environment],
    which is none of the five fields, is not kept: its value becomes
    [staging]; the line of the variable [environment] is kept, so that
    this variable does not get the environment of the request; and a
    default that is commented out is rewritten as well.  On the
    characters of the files, a template with the line ends CR LF gives,
    where the line end is LF, a variables file in which the line is not
    the line of the template. *)
Lemma variables_substitution_rewrites_other_lines :
  valid_request (sample_arguments Deploy) /\
  environment (sample_arguments Deploy) = txt "staging" /\
  lines decoy_template
  = [txt "db_environment = " ++ dquote :: txt "dev" ++ [dquote];
     txt "environment = " ++ dquote :: txt "production" ++ [dquote];
     []] /\
  lines (render_tfvars (sample_arguments Deploy) decoy_template)
  = [txt "db_environment = " ++ dquote :: txt "staging" ++ [dquote];
     txt "environment = " ++ dquote :: txt "production" ++ [dquote];
     []] /\
  render_tfvars (sample_arguments Deploy)
    (txt "# environment = " ++ dquote :: txt "dev" ++ [dquote])
  = txt "# environment = " ++ dquote :: txt "staging" ++ [dquote] /\
  derive_tfvars_file [newline] (sample_arguments Deploy)
    (txt "project = x" ++ [carriage_return; newline])
  = txt "project = x" ++ [newline].
Proof.
  split; [repeat split; reflexivity|].
  repeat split; vm_compute; reflexivity.
Qed.

Lemma variables_substitution_witness :
  valid_request (sample_arguments Deploy) /\
  length (lines (render_tfvars (sample_arguments Deploy) sample_template))
  = length (lines sample_template) /\
  nth_error (lines (render_tfvars (sample_arguments Deploy) sample_template)) 2
  = Some (txt "environment = " ++ dquote :: txt "staging" ++ [dquote]) /\
  nth_error (lines (render_tfvars (sample_arguments Deploy) sample_template)) 3
  = nth_error (lines sample_template) 3 /\
  render_tfvars (sample_arguments Deploy)
    (txt "  # db_" ++ quoted_assignment "aws_region" (txt "us-east-1")
     ++ txt " # region")
  = txt "  # db_" ++ quoted_assignment "aws_region" (txt "eu-west-1")
    ++ txt " # region".
Proof.
  assert (Hvalid : valid_request (sample_arguments Deploy))
    by (repeat split; reflexivity).
  split; [exact Hvalid|].
  destruct (@variables_substitution (sample_arguments Deploy) sample_template
              Hvalid) as (_ & _ & _ & Hlength & Hline & Hother & Hdefault & _).
  split; [exact Hlength|].
  split.
  - rewrite (Hline 2 (quoted_assignment "environment" (txt "dev")) eq_refl).
    apply f_equal.
    exact (Hdefault 0 _ _ [] [] eq_refl eq_refl eq_refl eq_refl).
  - split.
    + rewrite (Hline 3 (quoted_assignment "project_name" (txt "dc-automation"))
                 eq_refl).
      rewrite Hother; reflexivity.
    + exact (Hdefault 1 _ _ (txt "  # db_") (txt " # region")
               eq_refl eq_refl eq_refl eq_refl).
Defined.

(** ** The two patterns, read off *)

(** [[\d\.]+] at the start of a text: the value and what follows it. *)
Definition value_host (s : text) : option (text * text) :=
  match take_while digit_or_dot s with
  | [] => None
  | v => Some (v, drop_while digit_or_dot s)
  end.

(** A double quote, the characters up to the next double quote, and that
    double quote. *)
Definition value_password (s : text) : option (text * text) :=
  match s with
  | q :: s' =>
      if ascii_eqb q dquote then
        match drop_while not_dquote s' with
        | _ :: rest => Some (dquote :: take_while not_dquote s' ++ [dquote], rest)
        | [] => None
        end
      else None
  | [] => None
  end.

Section Field.

Variable key : text.
Variable value : text -> option (text * text).

(** What follows the leading blank space of a field: the key, blank
    space again and the value. *)
Definition match_key (t : text) : option (text * text * text) :=
  match strip_prefix key t with
  | None => None
  | Some r =>
      match take_while is_space r with
      | [] => None
      | ws2 =>
          match value (drop_while is_space r) with
          | Some (v, rest) => Some (key ++ ws2, v, rest)
          | None => None
          end
      end
  end.

(** A field at the start of [s]: group 1, the value, and the rest. *)
Definition match_field (bol : bool) (s : text) : option (text * text * text) :=
  if bol then
    match take_while is_space s with
    | [] => None
    | ws1 =>
        match match_key (drop_while is_space s) with
        | Some (g, v, rest) => Some (ws1 ++ g, v, rest)
        | None => None
        end
    end
  else None.

End Field.

Lemma take_drop_while p s : take_while p s ++ drop_while p s = s.
Proof.
  induction s as [|c s IH]; [reflexivity|]. simpl.
  destruct (p c); [simpl; now rewrite IH | reflexivity].
Qed.

Lemma skipn_take_while p s : skipn (length (take_while p s)) s = drop_while p s.
Proof.
  induction s as [|c s IH]; [reflexivity|]. simpl.
  destruct (p c); [simpl; exact IH | reflexivity].
Qed.

(** What follows the longest run does not start in the class. *)
Lemma drop_while_head p s :
  match drop_while p s with
  | c :: _ => p c = false
  | [] => True
  end.
Proof.
  induction s as [|c s IH]; [exact I|]. simpl.
  destruct (p c) eqn:Hc; [exact IH | exact Hc].
Qed.

(** Inside the longest run every character is in the class. *)
Lemma skipn_in_run p s j :
  j < length (take_while p s) ->
  exists c r, skipn j s = c :: r /\ p c = true.
Proof.
  revert j. induction s as [|c s IH]; intros j Hj; [simpl in Hj; lia|].
  simpl in Hj. destruct (p c) eqn:Hc; [|simpl in Hj; lia].
  destruct j as [|j]; [now exists c, s|].
  simpl in *. apply IH. lia.
Qed.

(** *** Giving back *)

(** When the rest of the pattern fails wherever characters have been
    given back, the repetition stands or falls with its longest run. *)
Lemma give_back_longest {R : Type} lo (k : nat -> option R) n :
  (forall j, j < n -> lo <= j -> k j = None) ->
  Re.give_back lo k n = if lo <=? n then k n else None.
Proof.
  intros Hless.
  assert (Hnone : forall j, j < n -> Re.give_back lo k j = None).
  { induction j as [|j IH]; intros Hj; simpl.
    - destruct (lo <=? 0) eqn:Hlo; [|reflexivity].
      apply Nat.leb_le in Hlo. now rewrite Hless.
    - destruct (lo <=? S j) eqn:Hlo.
      + apply Nat.leb_le in Hlo. rewrite Hless by lia. apply IH. lia.
      + apply IH. lia. }
  destruct n as [|n]; simpl.
  - now destruct (lo <=? 0), (k 0).
  - destruct (lo <=? S n); [|apply Hnone; lia].
    destruct (k (S n)); [reflexivity | apply Hnone; lia].
Qed.

Lemma give_back_first {R : Type} lo (k : nat -> option R) n r :
  lo <= n -> k n = Some r -> Re.give_back lo k n = Some r.
Proof.
  intros Hlo Hk. destruct n; simpl;
    (replace (lo <=? _) with true by (symmetry; now apply Nat.leb_le));
    now rewrite Hk.
Qed.

Lemma give_back_short {R : Type} lo (k : nat -> option R) n :
  n < lo -> Re.give_back lo k n = None.
Proof.
  induction n as [|n IH]; intros Hn; simpl;
    (replace (lo <=? _) with false by (symmetry; apply Nat.leb_gt; lia));
    [reflexivity | apply IH; lia].
Qed.

(** *** The engine on the shape of the two patterns *)

Section FieldPattern.

Variable key : text.
Variable value : text -> option (text * text).
Variable tail : list Re.node.

Definition field_pattern : Re.pattern :=
  {| Re.group1 := [Re.Bol; Re.Many 1 is_space; Re.Chars key;
                   Re.Many 1 is_space];
     Re.tail := tail |}.

Hypothesis key_starts : exists k0 key', key = k0 :: key' /\ is_space k0 = false.

Hypothesis tail_value :
  forall (R : Type) (f : text -> R) b s1,
    Re.match_nodes tail b s1 (fun _ s2 => Some (f s2))
    = match value s1 with
      | Some (_, rest) => Some (f rest)
      | None => None
      end.

Hypothesis value_splits :
  forall s v rest, value s = Some (v, rest) -> s = v ++ rest.

Hypothesis value_not_blank :
  forall c r, is_space c = true -> value (c :: r) = None.

Lemma key_not_after_blank c r :
  is_space c = true -> strip_prefix key (c :: r) = None.
Proof.
  intros Hc. destruct key_starts as (k0 & key' & -> & Hk0). simpl.
  destruct (ascii_eqb k0 c) eqn:E; [|reflexivity].
  apply ascii_eqb_eq in E. congruence.
Qed.

(** The backtracking matcher finds what [match_field] reads off. *)
Lemma match_at_field bol s :
  Re.match_at field_pattern bol s = match_field key value bol s.
Proof.
  unfold Re.match_at, match_field, field_pattern. cbn [Re.group1 Re.tail].
  cbn [Re.match_nodes]. destruct bol; [|reflexivity].
  rewrite give_back_longest.
  2:{ intros j Hj _.
      destruct (skipn_in_run is_space s Hj) as (c & r & -> & Hc).
      now rewrite key_not_after_blank. }
  destruct (take_while is_space s) as [|w ws1] eqn:Hws1; [reflexivity|].
  rewrite <- Hws1. replace (1 <=? length (take_while is_space s)) with true
    by (rewrite Hws1; reflexivity).
  rewrite skipn_take_while. unfold match_key.
  destruct (strip_prefix key (drop_while is_space s)) as [r|] eqn:Hkey;
    [|reflexivity].
  rewrite give_back_longest.
  2:{ intros j Hj _.
      destruct (skipn_in_run is_space r Hj) as (c & r' & -> & Hc).
      now rewrite tail_value, value_not_blank. }
  destruct (take_while is_space r) as [|w2 ws2] eqn:Hws2; [reflexivity|].
  rewrite <- Hws2. replace (1 <=? length (take_while is_space r)) with true
    by (rewrite Hws2; reflexivity).
  rewrite skipn_take_while, tail_value.
  destruct (value (drop_while is_space r)) as [[v rest]|] eqn:Hv;
    [|reflexivity].
  apply value_splits in Hv. apply strip_prefix_app in Hkey.
  assert (Hs : s = (take_while is_space s ++ key ++ take_while is_space r)
                   ++ v ++ rest).
  { rewrite <- !app_assoc, <- Hv, take_drop_while, <- Hkey.
    now rewrite take_drop_while. }
  f_equal. f_equal. f_equal.
  - rewrite Hv. rewrite Hs at 1 2. rewrite !length_app.
    replace (_ - _)
      with (length (take_while is_space s ++ key ++ take_while is_space r)
            + 0)
      by (rewrite !length_app; lia).
    rewrite firstn_app_2. simpl. now rewrite app_nil_r.
  - rewrite Hv at 1 2. rewrite length_app.
    replace (_ - _) with (length v + 0) by lia.
    rewrite firstn_app_2. simpl. now rewrite app_nil_r.
Qed.

End FieldPattern.

(** *** Character classes *)

Lemma space_not_digit_or_dot c : is_space c = true -> digit_or_dot c = false.
Proof. destruct c as [[] [] [] [] [] [] [] []]; cbv; congruence. Qed.

Lemma space_not_dquote c : is_space c = true -> ascii_eqb c dquote = false.
Proof. destruct c as [[] [] [] [] [] [] [] []]; cbv; congruence. Qed.

Lemma digit_or_dot_not_newline c : digit_or_dot c = true -> is_newline c = false.
Proof. destruct c as [[] [] [] [] [] [] [] []]; cbv; congruence. Qed.

Lemma digit_or_dot_not_dquote c :
  digit_or_dot c = true -> ascii_eqb c dquote = false.
Proof. destruct c as [[] [] [] [] [] [] [] []]; cbv; congruence. Qed.

Lemma newline_is_space c : is_newline c = true -> is_space c = true.
Proof. destruct c as [[] [] [] [] [] [] [] []]; cbv; congruence. Qed.

(** *** The two patterns of the script *)

Lemma value_host_splits s v rest : value_host s = Some (v, rest) -> s = v ++ rest.
Proof.
  unfold value_host. intros H.
  destruct (take_while digit_or_dot s) eqn:Hv; [discriminate|].
  injection H as <- <-. rewrite <- Hv. symmetry. apply take_drop_while.
Qed.

Lemma value_password_splits s v rest :
  value_password s = Some (v, rest) -> s = v ++ rest.
Proof.
  unfold value_password. intros H. destruct s as [|q s]; [discriminate|].
  destruct (ascii_eqb q dquote) eqn:Hq; [|discriminate].
  apply ascii_eqb_eq in Hq. subst q.
  destruct (drop_while not_dquote s) as [|q2 r] eqn:Hd; [discriminate|].
  injection H as <- <-.
  pose proof (drop_while_head not_dquote s) as Hq2. rewrite Hd in Hq2.
  unfold not_dquote in Hq2. apply negb_false_iff, ascii_eqb_eq in Hq2.
  subst q2. simpl. rewrite <- app_assoc. simpl. rewrite <- Hd.
  now rewrite take_drop_while.
Qed.

Lemma match_at_host bol s :
  Re.match_at host_pattern bol s = match_field key_host value_host bol s.
Proof.
  apply (@match_at_field key_host value_host [Re.Many 1 digit_or_dot]).
  - now exists "a"%char, (txt "nsible_host:").
  - intros R f b s1. cbn [Re.match_nodes]. unfold value_host.
    destruct (take_while digit_or_dot s1) eqn:Hv.
    + apply give_back_short. simpl. lia.
    + rewrite <- Hv. apply give_back_first.
      * rewrite Hv. simpl. lia.
      * now rewrite skipn_take_while.
  - apply value_host_splits.
  - intros c r Hc. unfold value_host. simpl.
    now rewrite (space_not_digit_or_dot _ Hc).
Qed.

Lemma match_at_password bol s :
  Re.match_at password_pattern bol s
  = match_field key_password value_password bol s.
Proof.
  apply (@match_at_field key_password value_password
           [Re.Chars [dquote]; Re.Many 0 not_dquote; Re.Chars [dquote]]).
  - now exists "a"%char, (txt "nsible_password:").
  - intros R f b s1. cbn [Re.match_nodes]. unfold value_password.
    destruct s1 as [|q s1]; [reflexivity|]. cbn [strip_prefix].
    destruct (ascii_eqb dquote q) eqn:Hq.
    + apply ascii_eqb_eq in Hq. subst q. rewrite ascii_eqb_refl.
      rewrite give_back_longest.
      2:{ intros j Hj _.
          destruct (skipn_in_run not_dquote s1 Hj) as (c & r & -> & Hc).
          cbn [strip_prefix]. unfold not_dquote in Hc.
          apply negb_true_iff in Hc.
          destruct (ascii_eqb dquote c) eqn:E; [|reflexivity].
          apply ascii_eqb_eq in E. subst c. now rewrite ascii_eqb_refl in Hc. }
      cbn [Nat.leb]. rewrite skipn_take_while.
      pose proof (drop_while_head not_dquote s1) as Hhead.
      destruct (drop_while not_dquote s1) as [|q2 rest]; [reflexivity|].
      unfold not_dquote in Hhead. apply negb_false_iff, ascii_eqb_eq in Hhead.
      subst q2. cbn [strip_prefix]. now rewrite ascii_eqb_refl.
    + destruct (ascii_eqb q dquote) eqn:Hq'; [|reflexivity].
      apply ascii_eqb_eq in Hq'. subst q. now rewrite ascii_eqb_refl in Hq.
  - apply value_password_splits.
  - intros c r Hc. unfold value_password.
    now rewrite (space_not_dquote _ Hc).
Qed.

(** ** The scan of [re.sub] over a field pattern *)

Definition blank (ws : text) : Prop := ws <> [] /\ forallb is_space ws = true.

Lemma take_while_forallb p s : forallb p (take_while p s) = true.
Proof.
  induction s as [|c s IH]; [reflexivity|]. simpl.
  destruct (p c) eqn:Hc; [simpl; now rewrite Hc | reflexivity].
Qed.

(** The longest run of a run followed by a character outside the class. *)
Lemma take_while_app p a s :
  forallb p a = true ->
  take_while p (a ++ s) = a ++ take_while p s.
Proof.
  induction a as [|c a IH]; intros Ha; [reflexivity|].
  simpl in *. apply andb_true_iff in Ha as [Hc Ha].
  now rewrite Hc, IH.
Qed.

Lemma drop_while_app p a s :
  forallb p a = true ->
  drop_while p (a ++ s) = drop_while p s.
Proof.
  induction a as [|c a IH]; intros Ha; [reflexivity|].
  simpl in *. apply andb_true_iff in Ha as [Hc Ha].
  now rewrite Hc, IH.
Qed.

(** The values [re.sub] replaces in [s], in the order of the scan. *)
Fixpoint replaced_fuel (fuel : nat) (p : Re.pattern) (bol : bool) (s : text)
  : list text :=
  match fuel with
  | 0 => []
  | S fuel' =>
    match s with
    | [] => []
    | c :: s' =>
      match Re.match_at p bol s with
      | Some (g, v, rest) =>
          match g ++ v with
          | [] => replaced_fuel fuel' p (is_newline c) s'
          | _ => v :: replaced_fuel fuel' p (Re.bol_after bol (g ++ v)) rest
          end
      | None => replaced_fuel fuel' p (is_newline c) s'
      end
    end
  end.

Definition replaced_values (p : Re.pattern) (s : text) : list text :=
  replaced_fuel (S (length s)) p true s.

(** [s'] is [s] but for the values of fields named [key].  A field
    starts a line: from the start of the line on there is blank space,
    the key, blank space and the value; [field_value old rest] says that
    [old] is the whole value in front of [rest].  Only the value may
    differ, and a value does not end a line.  The first argument says
    whether [s] starts a line. *)
Inductive patched (key : text) (field_value : text -> text -> Prop)
  : bool -> text -> text -> Prop :=
| patched_nil bol : patched key field_value bol [] []
| patched_char bol c s s' :
    patched key field_value (is_newline c) s s' ->
    patched key field_value bol (c :: s) (c :: s')
| patched_value ws1 ws2 old new rest rest' :
    blank ws1 -> blank ws2 -> field_value old rest ->
    patched key field_value false rest rest' ->
    patched key field_value true (ws1 ++ key ++ ws2 ++ old ++ rest)
                                 (ws1 ++ key ++ ws2 ++ new ++ rest').



Section Scan.

Variable key : text.
Variable value : text -> option (text * text).
Variable p : Re.pattern.
Variable repl : text -> text -> text.

Hypothesis pattern_field :
  forall bol s, Re.match_at p bol s = match_field key value bol s.

Hypothesis value_splits :
  forall s v rest, value s = Some (v, rest) -> s = v ++ rest.

(** A value is not empty and does not end a line. *)
Hypothesis value_ends :
  forall s v rest, value s = Some (v, rest) ->
  forall b g, Re.bol_after b (g ++ v) = false.

(** What a match is made of. *)
Lemma match_key_parts t g v rest :
  match_key key value t = Some (g, v, rest) ->
  exists ws2, g = key ++ ws2 /\ blank ws2 /\ t = g ++ v ++ rest /\
              value (drop_while is_space (skipn (length key) t))
              = Some (v, rest) /\
              ws2 = take_while is_space (skipn (length key) t).
Proof.
  unfold match_key. intros H.
  destruct (strip_prefix key t) as [r|] eqn:Hkey; [|discriminate].
  apply strip_prefix_app in Hkey. subst t.
  destruct (take_while is_space r) as [|w ws2] eqn:Hws; [discriminate|].
  destruct (value (drop_while is_space r)) as [[v' rest']|] eqn:Hv;
    [|discriminate].
  injection H as <- <- <-. exists (w :: ws2).
  assert (Hskip : skipn (length key) (key ++ r) = r).
  { now rewrite skipn_app, Nat.sub_diag, skipn_all. }
  rewrite Hskip. split; [reflexivity|].
  split; [split; [discriminate | rewrite <- Hws; apply take_while_forallb]|].
  split; [|now split].
  apply value_splits in Hv. rewrite <- !app_assoc, <- Hv, <- Hws.
  now rewrite take_drop_while.
Qed.

Lemma match_field_parts bol s g v rest :
  match_field key value bol s = Some (g, v, rest) ->
  bol = true /\
  exists ws1 ws2,
    g = ws1 ++ key ++ ws2 /\ blank ws1 /\ blank ws2 /\
    s = g ++ v ++ rest /\
    match_key key value (drop_while is_space s) = Some (key ++ ws2, v, rest).
Proof.
  unfold match_field. intros H. destruct bol; [|discriminate].
  split; [reflexivity|].
  destruct (take_while is_space s) as [|w ws1] eqn:Hws; [discriminate|].
  destruct (match_key key value (drop_while is_space s))
    as [[[g' v'] rest']|] eqn:Hk; [|discriminate].
  injection H as <- <- <-.
  destruct (match_key_parts _ Hk) as (ws2 & -> & Hb2 & Ht & _).
  exists (w :: ws1), ws2. split; [reflexivity|].
  split; [split; [discriminate | rewrite <- Hws; apply take_while_forallb]|].
  split; [assumption|]. split; [|reflexivity].
  rewrite <- (take_drop_while is_space s) at 1. rewrite Hws, Ht.
  simpl. now rewrite <- ?app_assoc.
Qed.

Lemma match_field_shorter bol s g v rest :
  match_field key value bol s = Some (g, v, rest) ->
  g <> [] /\ length rest < length s.
Proof.
  intros H. destruct (match_field_parts _ _ H)
    as (_ & ws1 & ws2 & -> & (Hne & _) & _ & -> & _).
  split.
  - destruct ws1; [contradiction | discriminate].
  - rewrite !length_app. destruct ws1; [contradiction|]. simpl. lia.
Qed.

Lemma sub_fuel_enough fuel :
  forall fuel' bol s, length s < fuel -> length s < fuel' ->
  Re.sub_fuel fuel p repl bol s = Re.sub_fuel fuel' p repl bol s.
Proof.
  induction fuel as [|fuel IH]; intros fuel' bol s H H'; [lia|].
  destruct fuel' as [|fuel']; [lia|].
  cbn [Re.sub_fuel]. destruct s as [|c s]; [reflexivity|].
  rewrite pattern_field.
  destruct (match_field key value bol (c :: s)) as [[[g v] rest]|] eqn:Hm.
  - destruct (match_field_shorter _ _ Hm) as (Hg & Hlen).
    destruct (g ++ v) eqn:Hgv.
    + apply app_eq_nil in Hgv as [-> _]. contradiction.
    + f_equal. simpl in *. apply IH; lia.
  - f_equal. simpl in *. apply IH; lia.
Qed.

(** The scan from a position, at the beginning of a line or not. *)
Definition scan (bol : bool) (s : text) : text :=
  Re.sub_fuel (S (length s)) p repl bol s.

Lemma sub_with_scan s : Re.sub_with p repl s = scan true s.
Proof. reflexivity. Qed.

Lemma scan_nil bol : scan bol [] = [].
Proof. unfold scan. cbn [Re.sub_fuel length]. now rewrite pattern_field; destruct bol. Qed.

Lemma scan_match bol s g v rest :
  match_field key value bol s = Some (g, v, rest) ->
  scan bol s = repl g v ++ scan false rest.
Proof.
  intros Hm. destruct (match_field_shorter _ _ Hm) as (Hg & Hlen).
  destruct (match_field_parts _ _ Hm)
    as (_ & _ & ws2 & _ & _ & _ & _ & Hk).
  destruct (match_key_parts _ Hk) as (_ & _ & _ & _ & Hv & _).
  destruct s as [|c s]; [simpl in Hlen; lia|].
  unfold scan at 1. cbn [Re.sub_fuel]. rewrite pattern_field, Hm.
  destruct (g ++ v) eqn:Hgv.
  - apply app_eq_nil in Hgv as [-> _]. contradiction.
  - rewrite <- Hgv, (value_ends Hv). f_equal.
    unfold scan. apply sub_fuel_enough; simpl in *; lia.
Qed.

Lemma scan_skip bol c s :
  match_field key value bol (c :: s) = None ->
  scan bol (c :: s) = c :: scan (is_newline c) s.
Proof.
  intros Hm. unfold scan. cbn [Re.sub_fuel length].
  rewrite pattern_field, Hm. f_equal.
Qed.

(** *** What the scan leaves alone *)

Section Frame.

Variable field_value : text -> text -> Prop.

Hypothesis value_field_value :
  forall s v rest, value s = Some (v, rest) -> field_value v rest.

(** The replacement starts with group 1. *)
Hypothesis repl_keeps_group : forall g v, exists new, repl g v = g ++ new.


End Frame.

(** *** Lines *)

Definition values (bol : bool) (s : text) : list text :=
  replaced_fuel (S (length s)) p bol s.

Lemma replaced_fuel_enough fuel :
  forall fuel' bol s, length s < fuel -> length s < fuel' ->
  replaced_fuel fuel p bol s = replaced_fuel fuel' p bol s.
Proof.
  induction fuel as [|fuel IH]; intros fuel' bol s H H'; [lia|].
  destruct fuel' as [|fuel']; [lia|].
  cbn [replaced_fuel]. destruct s as [|c s]; [reflexivity|].
  rewrite pattern_field.
  destruct (match_field key value bol (c :: s)) as [[[g v] rest]|] eqn:Hm.
  - destruct (match_field_shorter _ _ Hm) as (Hg & Hlen).
    destruct (g ++ v) eqn:Hgv.
    + apply app_eq_nil in Hgv as [-> _]. contradiction.
    + f_equal. simpl in *. apply IH; lia.
  - simpl in *. apply IH; lia.
Qed.

Lemma values_match bol s g v rest :
  match_field key value bol s = Some (g, v, rest) ->
  values bol s = v :: values false rest.
Proof.
  intros Hm. destruct (match_field_shorter _ _ Hm) as (Hg & Hlen).
  destruct (match_field_parts _ _ Hm)
    as (_ & _ & ws2 & _ & _ & _ & _ & Hk).
  destruct (match_key_parts _ Hk) as (_ & _ & _ & _ & Hv & _).
  destruct s as [|c s]; [simpl in Hlen; lia|].
  unfold values at 1. cbn [replaced_fuel]. rewrite pattern_field, Hm.
  destruct (g ++ v) eqn:Hgv.
  - apply app_eq_nil in Hgv as [-> _]. contradiction.
  - rewrite <- Hgv, (value_ends Hv). f_equal.
    unfold values. apply replaced_fuel_enough; simpl in *; lia.
Qed.

Lemma values_skip bol c s :
  match_field key value bol (c :: s) = None ->
  values bol (c :: s) = values (is_newline c) s.
Proof.
  intros Hm. unfold values. cbn [replaced_fuel length].
  now rewrite pattern_field, Hm.
Qed.


End Scan.

(** ** Replacement templates *)

Definition no_backslash (t : text) : Prop :=
  forallb (fun c => negb (ascii_eqb c backslash)) t = true.

(** A template without backslash stands for itself. *)
Lemma parse_template_literal groups t :
  no_backslash t ->
  forall fuel, length t <= fuel ->
  Re.parse_template_fuel fuel groups t = Ok (map Re.Lit t).
Proof.
  unfold no_backslash. induction t as [|c t IH]; intros Ht fuel Hfuel.
  - now destruct fuel.
  - destruct fuel as [|fuel]; [simpl in Hfuel; lia|].
    simpl in Ht. apply andb_true_iff in Ht as [Hc Ht].
    cbn [Re.parse_template_fuel]. rewrite Hc.
    rewrite IH by (auto; simpl in Hfuel; lia). reflexivity.
Qed.

(** The templates of the script start with the reference to group 1. *)
Lemma parse_template_group1 t :
  Re.parse_template 1 (txt "\g<1>" ++ t)
  = match Re.parse_template_fuel (5 + length t) 1 t with
    | Ok items => Ok (Re.Group 1 :: items)
    | Err e => Err e
    end.
Proof.
  unfold Re.parse_template.
  change (txt "\g<1>" ++ t)
    with (backslash :: "g"%char :: "<"%char :: "1"%char :: ">"%char :: t).
  change (length (backslash :: "g"%char :: "<"%char :: "1"%char :: ">"%char :: t))
    with (5 + length t).
  generalize (5 + length t). intros fuel.
  cbn [Re.parse_template_fuel].
  reflexivity.
Qed.

Lemma sub_fuel_ext p repl repl' :
  (forall g v, repl g v = repl' g v) ->
  forall fuel bol s,
    Re.sub_fuel fuel p repl bol s = Re.sub_fuel fuel p repl' bol s.
Proof.
  intros Hext. induction fuel as [|fuel IH]; intros bol s; [reflexivity|].
  cbn [Re.sub_fuel]. destruct s as [|c s].
  - destruct (Re.match_at p bol []) as [[[g v] rest]|]; [apply Hext|reflexivity].
  - destruct (Re.match_at p bol (c :: s)) as [[[g v] rest]|].
    + rewrite Hext. destruct (g ++ v); now rewrite IH.
    + now rewrite IH.
Qed.

Lemma expand_literal t g whole : Re.expand (map Re.Lit t) g whole = t.
Proof. induction t as [|c t IH]; [reflexivity|]. simpl. now rewrite IH. Qed.

(** With a replacement free of backslashes, [re.sub] puts group 1 and the
    replacement in the place of each match. *)
Lemma sub_literal p t s :
  no_backslash t ->
  Re.sub p (txt "\g<1>" ++ t) s
  = Ok (Re.sub_with p (fun g _ => g ++ t) s).
Proof.
  intros Ht. unfold Re.sub. rewrite parse_template_group1.
  rewrite (parse_template_literal 1 Ht) by lia.
  unfold Re.sub_with. f_equal. apply sub_fuel_ext.
  intros g v. simpl. now rewrite expand_literal.
Qed.


(** ** The inventory edit *)

Definition host_value (v : text) : Prop :=
  v <> [] /\ forallb digit_or_dot v = true.

Definition quoted_value (v : text) : Prop :=
  exists body, v = dquote :: body ++ [dquote] /\
               forallb not_dquote body = true.

Lemma bol_after_last b g v c :
  Re.bol_after b (g ++ v ++ [c]) = is_newline c.
Proof.
  unfold Re.bol_after. rewrite !rev_app_distr. reflexivity.
Qed.

Lemma value_host_is_value s v rest :
  value_host s = Some (v, rest) -> host_value v.
Proof.
  unfold value_host. intros H.
  destruct (take_while digit_or_dot s) eqn:Hv; [discriminate|].
  injection H as <- _. split; [discriminate|].
  rewrite <- Hv. apply take_while_forallb.
Qed.

Lemma value_host_ends s v rest :
  value_host s = Some (v, rest) ->
  forall b g, Re.bol_after b (g ++ v) = false.
Proof.
  intros H b g. destruct (value_host_is_value _ H) as (Hne & Hall).
  destruct (exists_last Hne) as (v' & c & ->).
  rewrite bol_after_last. apply digit_or_dot_not_newline.
  rewrite forallb_app in Hall. apply andb_true_iff in Hall as [_ Hc].
  simpl in Hc. now rewrite andb_true_r in Hc.
Qed.

Lemma value_password_is_value s v rest :
  value_password s = Some (v, rest) -> quoted_value v.
Proof.
  unfold value_password. intros H. destruct s as [|q s]; [discriminate|].
  destruct (ascii_eqb q dquote); [|discriminate].
  destruct (drop_while not_dquote s); [discriminate|].
  injection H as <- _. exists (take_while not_dquote s).
  split; [reflexivity | apply take_while_forallb].
Qed.

Lemma value_password_ends s v rest :
  value_password s = Some (v, rest) ->
  forall b g, Re.bol_after b (g ++ v) = false.
Proof.
  intros H b g. destruct (value_password_is_value _ H) as (body & -> & _).
  change (dquote :: body ++ [dquote]) with ((dquote :: body) ++ [dquote]).
  now rewrite bol_after_last.
Qed.

(** The scans of the two [re.sub] calls, with the replacement [new] for
    every value. *)
Definition host_scan (new : text) : bool -> text -> text :=
  scan host_pattern (fun g _ => g ++ new).

Definition password_scan (new : text) : bool -> text -> text :=
  scan password_pattern (fun g _ => g ++ new).

(** The value of an [ansible_host] field in front of [rest]: the whole
    run of digits and dots. *)
Definition host_field (v rest : text) : Prop :=
  host_value v /\
  match rest with
  | c :: _ => digit_or_dot c = false
  | [] => True
  end.






(** *** What the frame keeps *)

Section Kept.

Variable key : text.
Variable field_value : text -> text -> Prop.

(** The key does not start with blank space. *)
Hypothesis key_starts :
  match key with
  | k :: _ => is_space k = false
  | [] => False
  end.

(** Within a line nothing is a field: the text up to the end of the line
    is the same. *)
Lemma patched_within_line l :
  no_newline l ->
  forall rest s',
    patched key field_value false (l ++ rest) s' ->
    exists rest', s' = l ++ rest' /\ patched key field_value false rest rest'.
Proof.
  unfold no_newline. induction l as [|c l IH]; intros Hl rest s' H.
  - now exists s'.
  - simpl in Hl. apply andb_true_iff in Hl as [Hc Hl].
    apply negb_true_iff in Hc.
    change ((c :: l) ++ rest) with (c :: l ++ rest) in H.
    inversion H; subst.
    match goal with
    | Hrest : patched _ _ (is_newline c) _ _ |- _ =>
        rewrite Hc in Hrest;
        destruct (IH Hl _ _ Hrest) as (rest' & -> & Hrest')
    end.
    now exists rest'.
Qed.

(** No field starts in blank space that something other than the key
    follows. *)
Lemma not_a_field ws c l ws1 X :
  forallb is_space ws = true ->
  is_space c = false ->
  strip_prefix key (c :: l) = None ->
  blank ws1 ->
  ws ++ c :: l <> ws1 ++ key ++ X.
Proof.
  intros Hws Hc Hkey (_ & Hws1) Heq.
  apply (f_equal (drop_while is_space)) in Heq.
  rewrite !drop_while_app in Heq by assumption.
  destruct key as [|k key']; [contradiction|].
  simpl in Heq. rewrite Hc, key_starts in Heq.
  rewrite Heq in Hkey.
  change (k :: key' ++ X) with ((k :: key') ++ X) in Hkey.
  now rewrite strip_prefix_same in Hkey.
Qed.

(** A line on which the key does not follow the leading blank space is
    not a field: it is the same in both texts, whatever comes after
    that, the key and a value too. *)
Lemma patched_other_line ws c l :
  forallb is_space ws = true ->
  is_space c = false ->
  strip_prefix key (c :: l) = None ->
  no_newline l ->
  forall bol s',
    patched key field_value bol (ws ++ c :: l) s' -> s' = ws ++ c :: l.
Proof.
  intros Hws Hc Hkey Hl.
  assert (Hline : is_newline c = false).
  { destruct (is_newline c) eqn:E; [|reflexivity].
    apply newline_is_space in E. congruence. }
  induction ws as [|w ws IH]; intros bol s' H.
  - simpl in H. inversion H; subst.
    + match goal with
      | Hrest : patched _ _ (is_newline c) _ _ |- _ =>
          rewrite Hline in Hrest;
          destruct (@patched_within_line l Hl [] _
                      ltac:(rewrite app_nil_r; exact Hrest))
            as (rest' & -> & Hnil)
      end.
      inversion Hnil. now rewrite app_nil_r.
    + exfalso.
      match goal with
      | Heq : _ ++ key ++ _ = c :: l, Hb : blank ?ws1 |- _ =>
          exact (@not_a_field [] c l ws1 _ eq_refl Hc Hkey Hb (eq_sym Heq))
      end.
  - simpl in Hws. apply andb_true_iff in Hws as [Hw Hws].
    change ((w :: ws) ++ c :: l) with (w :: ws ++ c :: l) in H.
    inversion H; subst.
    + simpl. f_equal. eapply IH; eauto.
    + exfalso.
      match goal with
      | Heq : _ ++ key ++ _ = w :: ws ++ c :: l, Hb : blank ?ws1 |- _ =>
          refine (@not_a_field (w :: ws) c l ws1 _ _ Hc Hkey Hb (eq_sym Heq));
          simpl; now rewrite Hw, Hws
      end.
Qed.

End Kept.





(** An inventory with two hosts. *)
Definition two_hosts : text :=
  txt "all:" ++ newline ::
  txt "  hosts:" ++ newline ::
  txt "    dc01:" ++ newline ::
  txt "      # primary" ++ newline ::
  txt "      ansible_host: 10.0.0.1" ++ newline ::
  txt "      ansible_password: " ++ dquote :: txt "old" ++ dquote :: newline ::
  txt "    dc02:" ++ newline ::
  txt "      ansible_host: 10.0.0.2" ++ newline ::
  txt "      ansible_password: " ++ dquote :: txt "other" ++ [dquote; newline].

Definition text_of (r : result text) : text :=
  match r with
  | Ok t => t
  | Err _ => []
  end.




(** A quoted value may run over a line end, and the edit then removes
    the line end with it. *)
Lemma inventory_edit_can_join_lines :
  let inv := txt "  ansible_password: " ++ dquote :: txt "first" ++ newline ::
             txt "  second" ++ [dquote; newline] in
  update_inventory (txt "203.0.113.5") (txt "S3cret") inv
  = Ok (txt "  ansible_password: " ++ dquote :: txt "S3cret"
        ++ [dquote; newline]) /\
  count_newlines inv = 2.
Proof. split; vm_compute; reflexivity. Qed.

(** A field that is commented out is no field: the frame keeps the
    line, whatever the edit does elsewhere. *)
Lemma commented_field_is_kept s' :
  patched key_host host_field true (txt "      # ansible_host: 10.0.0.9") s' ->
  s' = txt "      # ansible_host: 10.0.0.9".
Proof.
  apply (@patched_other_line key_host host_field eq_refl
           (txt "      ") "#"%char (txt " ansible_host: 10.0.0.9"));
    reflexivity.
Qed.


(** ** Scanning twice *)

(** A text without blank space. *)
Definition solid (a : text) : Prop :=
  forallb (fun c => negb (is_space c)) a = true.

Lemma solid_cons c a : solid (c :: a) <-> is_space c = false /\ solid a.
Proof.
  unfold solid. simpl. rewrite andb_true_iff, negb_true_iff. tauto.
Qed.

Lemma not_space_not_newline c : is_space c = false -> is_newline c = false.
Proof.
  intros H. destruct (is_newline c) eqn:E; [|reflexivity].
  apply newline_is_space in E. congruence.
Qed.

(** The text does not start with blank space. *)
Definition starts_solid (t : text) : Prop :=
  match t with
  | c :: _ => is_space c = false
  | [] => True
  end.

Lemma take_while_solid t : starts_solid t -> take_while is_space t = [].
Proof. destruct t as [|c t]; [reflexivity|]. simpl. now intros ->. Qed.

Lemma drop_while_solid t : starts_solid t -> drop_while is_space t = t.
Proof. destruct t as [|c t]; [reflexivity|]. simpl. now intros ->. Qed.

Lemma drop_while_starts_solid s : starts_solid (drop_while is_space s).
Proof.
  pose proof (drop_while_head is_space s) as H.
  now destruct (drop_while is_space s).
Qed.

(** Nothing matches at a character that is not blank. *)
Lemma match_field_solid_any key value b t :
  starts_solid t -> match_field key value b t = None.
Proof.
  intros Ht. unfold match_field. destruct b; [|reflexivity].
  now rewrite take_while_solid.
Qed.

(** In front of blank space the match is decided by what follows the
    blank space. *)
Lemma match_field_blank_any key value ws t :
  blank ws -> starts_solid t ->
  match_field key value true (ws ++ t)
  = match match_key key value t with
    | Some (g, v, rest) => Some (ws ++ g, v, rest)
    | None => None
    end.
Proof.
  intros (Hne & Hws) Ht. unfold match_field.
  rewrite take_while_app, drop_while_app by assumption.
  rewrite take_while_solid, drop_while_solid, app_nil_r by assumption.
  destruct ws; [contradiction | reflexivity].
Qed.

Section Scanner.

Variable key : text.
Variable value : text -> option (text * text).
Variable p : Re.pattern.
Variable new : text.

Hypothesis pattern_field :
  forall bol s, Re.match_at p bol s = match_field key value bol s.
Hypothesis value_splits :
  forall s v rest, value s = Some (v, rest) -> s = v ++ rest.
Hypothesis value_ends :
  forall s v rest, value s = Some (v, rest) ->
  forall b g, Re.bol_after b (g ++ v) = false.

Let F : bool -> text -> text := scan p (fun g _ => g ++ new).

Lemma F_nil b : F b [] = [].
Proof. apply (scan_nil key value p _ pattern_field). Qed.

Lemma F_match b s g v rest :
  match_field key value b s = Some (g, v, rest) ->
  F b s = g ++ new ++ F false rest.
Proof.
  intros H. unfold F.
  rewrite (@scan_match key value p _ pattern_field value_splits value_ends
             b s g v rest H).
  now rewrite <- app_assoc.
Qed.

Lemma F_skip b c s :
  match_field key value b (c :: s) = None ->
  F b (c :: s) = c :: F (is_newline c) s.
Proof. apply (scan_skip key value p _ pattern_field). Qed.

Lemma match_field_solid b t :
  starts_solid t -> match_field key value b t = None.
Proof. apply match_field_solid_any. Qed.

Lemma F_solid_cons b c s :
  is_space c = false -> F b (c :: s) = c :: F false s.
Proof.
  intros Hc. rewrite F_skip by now apply match_field_solid.
  now rewrite (not_space_not_newline _ Hc).
Qed.

Lemma F_solid_app a :
  solid a -> a <> [] -> forall b s, F b (a ++ s) = a ++ F false s.
Proof.
  induction a as [|c a IH]; intros Ha Hne b s; [contradiction|].
  apply solid_cons in Ha as [Hc Ha]. simpl.
  rewrite F_solid_cons by assumption. f_equal.
  destruct a as [|c' a]; [reflexivity|]. apply IH; [assumption|discriminate].
Qed.

(** The scan keeps the first character. *)
Lemma F_head b s : hd_error (F b s) = hd_error s.
Proof.
  destruct s as [|c s]; [now rewrite F_nil|].
  destruct (match_field key value b (c :: s)) as [[[g v] rest]|] eqn:Hm.
  - rewrite (F_match _ _ Hm).
    destruct (@match_field_parts key value value_splits _ _ _ _ _ Hm)
      as (_ & ws1 & ws2 & -> & (Hne & _) & _ & Hs & _).
    destruct ws1 as [|w ws1]; [contradiction|].
    simpl in Hs. injection Hs as -> _. reflexivity.
  - now rewrite (F_skip _ _ _ Hm).
Qed.

Lemma F_starts_solid b t : starts_solid t -> starts_solid (F b t).
Proof.
  intros Ht. pose proof (F_head b t) as H.
  destruct t as [|c t]; [now rewrite F_nil|].
  destruct (F b (c :: t)); [exact I|]. simpl in H. now injection H as ->.
Qed.

Lemma match_field_blank ws t :
  blank ws -> starts_solid t ->
  match_field key value true (ws ++ t)
  = match match_key key value t with
    | Some (g, v, rest) => Some (ws ++ g, v, rest)
    | None => None
    end.
Proof. apply match_field_blank_any. Qed.

(** Blank space in front of a text without field is copied. *)
Lemma F_blank_app ws :
  forallb is_space ws = true ->
  forall t b,
    starts_solid t -> match_key key value t = None ->
    F b (ws ++ t) = ws ++ F (Re.bol_after b ws) t.
Proof.
  induction ws as [|w ws IH]; intros Hws t b Ht Hk; [reflexivity|].
  simpl in Hws. apply andb_true_iff in Hws as [Hw Hws].
  change ((w :: ws) ++ t) with (w :: ws ++ t).
  rewrite F_skip.
  2:{ destruct b; [|reflexivity].
      change (w :: ws ++ t) with ((w :: ws) ++ t).
      rewrite match_field_blank, Hk; auto.
      split; [discriminate | simpl; now rewrite Hw, Hws]. }
  rewrite IH by assumption. simpl. f_equal. f_equal.
  unfold Re.bol_after. simpl. destruct (rev ws) eqn:Hr; simpl.
  - reflexivity.
  - reflexivity.
Qed.

Hypothesis key_solid : solid key.
Hypothesis key_nonempty : key <> [].

Lemma key_starts_solid X : starts_solid (key ++ X).
Proof.
  pose proof key_solid as Hs. pose proof key_nonempty as Hne.
  destruct key as [|k0 key0]; [contradiction|].
  apply solid_cons in Hs as [Hk0 _]. exact Hk0.
Qed.

(** Behind blank space the scan goes on with the text that follows, or
    with a field that starts in the blank space. *)
Lemma F_blank_any ws :
  forallb is_space ws = true ->
  forall t b,
    starts_solid t ->
    exists Y, F b (ws ++ t) = ws ++ Y /\
              ((exists b', Y = F b' t) \/ (exists X, Y = key ++ X)).
Proof.
  induction ws as [|w ws IH]; intros Hws t b Ht.
  - exists (F b t). split; [reflexivity|]. left. now exists b.
  - simpl in Hws. apply andb_true_iff in Hws as [Hw Hws].
    destruct (match_field key value b ((w :: ws) ++ t))
      as [[[g v] rest]|] eqn:Hm.
    + rewrite (F_match _ _ Hm).
      assert (b = true) by (destruct b; [reflexivity | discriminate]).
      subst b. rewrite match_field_blank in Hm; auto;
        [|split; [discriminate | simpl; now rewrite Hw, Hws]].
      destruct (match_key key value t) as [[[g0 v0] rest0]|] eqn:Hk;
        [|discriminate].
      injection Hm as <- <- <-.
      destruct (@match_key_parts key value value_splits _ _ _ _ Hk)
        as (ws2 & -> & _).
      exists (key ++ ws2 ++ new ++ F false rest0).
      split; [|right; now eexists].
      simpl. now rewrite <- !app_assoc.
    + change ((w :: ws) ++ t) with (w :: ws ++ t) in *.
      rewrite (F_skip _ _ _ Hm).
      destruct (IH Hws t (is_newline w) Ht) as (Y & -> & HY).
      now exists Y.
Qed.

(** A text without blank space that does not start [u] does not start
    the scan of [u]. *)
Lemma strip_prefix_F lit :
  solid lit ->
  forall b u, strip_prefix lit u = None -> strip_prefix lit (F b u) = None.
Proof.
  induction lit as [|l0 lit IH]; intros Hlit b u Hu; [discriminate|].
  apply solid_cons in Hlit as [Hl0 Hlit].
  destruct u as [|x u]; [now rewrite F_nil|].
  simpl in Hu. destruct (ascii_eqb l0 x) eqn:E.
  - apply ascii_eqb_eq in E. subst x.
    rewrite F_solid_cons by assumption. simpl.
    rewrite ascii_eqb_refl. now apply IH.
  - pose proof (F_head b (x :: u)) as Hhead.
    destruct (F b (x :: u)) as [|y Y]; [reflexivity|].
    simpl in Hhead. injection Hhead as ->. simpl. now rewrite E.
Qed.

(** *** A field the scan does not touch stays where no field is *)

Section Other.

Variable key' : text.
Variable value' : text -> option (text * text).

Hypothesis key'_solid : solid key'.
Hypothesis key'_nonempty : key' <> [].
Hypothesis value'_not_key : forall X, value' (key ++ X) = None.
Hypothesis value'_stable :
  forall b t, value' t = None -> value' (F b t) = None.

Lemma match_key_F t :
  starts_solid t ->
  match_key key' value' t = None ->
  forall b, match_key key' value' (F b t) = None.
Proof.
  intros Ht Hk b. unfold match_key in *.
  destruct (strip_prefix key' t) as [r|] eqn:Hr.
  2:{ now rewrite strip_prefix_F. }
  apply strip_prefix_app in Hr. subst t.
  rewrite F_solid_app by assumption. rewrite strip_prefix_same.
  rewrite <- (take_drop_while is_space r).
  pose proof (drop_while_starts_solid r) as Ht3.
  destruct (F_blank_any (take_while is_space r) (take_while_forallb _ _)
              (drop_while is_space r) false Ht3) as (Y & -> & HY).
  assert (HsY : starts_solid Y).
  { destruct HY as [(b' & ->)|(X & ->)];
      [now apply F_starts_solid | apply key_starts_solid]. }
  rewrite take_while_app, drop_while_app by apply take_while_forallb.
  rewrite (take_while_solid _ HsY), (drop_while_solid _ HsY), app_nil_r.
  destruct (take_while is_space r) as [|w ws2]; [reflexivity|].
  destruct (value' (drop_while is_space r)) as [[v rest]|] eqn:Hv;
    [discriminate|].
  destruct HY as [(b' & ->)|(X & ->)].
  - now rewrite value'_stable.
  - now rewrite value'_not_key.
Qed.

(** Where neither field is found, the other field is not found after the
    scan either. *)
Lemma match_field_F b c s :
  match_field key value b (c :: s) = None ->
  match_field key' value' b (c :: s) = None ->
  match_field key' value' b (c :: F (is_newline c) s) = None.
Proof.
  intros HA HB. destruct b; [|reflexivity].
  destruct (is_space c) eqn:Hc.
  2:{ now apply (@match_field_solid_any key' value' true (c :: _)). }
  pose proof (take_drop_while is_space s) as Hs.
  pose proof (drop_while_starts_solid s) as Ht.
  set (ws := take_while is_space s) in *.
  set (t := drop_while is_space s) in *.
  assert (Hws : forallb is_space ws = true) by apply take_while_forallb.
  assert (Hb : blank (c :: ws)).
  { split; [discriminate | simpl; now rewrite Hc, Hws]. }
  rewrite <- Hs in HA, HB |- *.
  change (c :: ws ++ t) with ((c :: ws) ++ t) in HA, HB.
  rewrite match_field_blank_any in HA, HB by assumption.
  assert (HkA : match_key key value t = None)
    by (destruct (match_key key value t) as [[[? ?] ?]|];
        [discriminate | reflexivity]).
  assert (HkB : match_key key' value' t = None)
    by (destruct (match_key key' value' t) as [[[? ?] ?]|];
        [discriminate | reflexivity]).
  rewrite F_blank_app by assumption.
  change (c :: ws ++ ?Y) with ((c :: ws) ++ Y).
  rewrite match_field_blank_any; [|assumption|now apply F_starts_solid].
  now rewrite match_key_F.
Qed.

End Other.

(** *** The scan of a scan *)

Section Idempotent.

Hypothesis value_not_key : forall X, value (key ++ X) = None.
Hypothesis value_stable :
  forall b t, value t = None -> value (F b t) = None.
Hypothesis new_nonempty : new <> [].
Hypothesis new_starts_solid : starts_solid new.

(** The replacement is a value again, in front of what the scan makes of
    the rest. *)
Hypothesis new_matches :
  forall s v rest b,
    value s = Some (v, rest) ->
    value (new ++ F b rest) = Some (new, F b rest).

Lemma new_app_starts_solid X : starts_solid (new ++ X).
Proof.
  pose proof new_starts_solid as Hs. pose proof new_nonempty as Hne.
  destruct new; [contradiction | exact Hs].
Qed.

(** Where a field was found, the same field with the replacement as its
    value is found after the scan. *)
Lemma match_field_replaced b s g v rest :
  match_field key value b s = Some (g, v, rest) ->
  match_field key value b (g ++ new ++ F false rest)
  = Some (g, new, F false rest).
Proof.
  intros Hm.
  destruct (@match_field_parts key value value_splits _ _ _ _ _ Hm)
    as (-> & ws1 & ws2 & -> & Hb1 & Hb2 & _ & Hk).
  destruct (@match_key_parts key value value_splits _ _ _ _ Hk)
    as (_ & _ & _ & _ & Hv & _).
  rewrite <- !app_assoc.
  rewrite match_field_blank by (auto; apply key_starts_solid).
  unfold match_key. rewrite strip_prefix_same.
  destruct Hb2 as (Hne2 & Hws2).
  rewrite take_while_app, drop_while_app by assumption.
  rewrite (take_while_solid _ (new_app_starts_solid _)).
  rewrite (drop_while_solid _ (new_app_starts_solid _)), app_nil_r.
  rewrite (new_matches false Hv).
  destruct ws2; [contradiction | reflexivity].
Qed.

Theorem F_idempotent :
  forall n b s, length s = n -> F b (F b s) = F b s.
Proof.
  induction n as [n IH] using lt_wf_ind. intros b s Hn.
  destruct s as [|c s]; [now rewrite !F_nil|].
  destruct (match_field key value b (c :: s)) as [[[g v] rest]|] eqn:Hm.
  - rewrite (F_match _ _ Hm).
    rewrite (F_match _ _ (match_field_replaced _ _ Hm)).
    destruct (@match_field_shorter key value value_splits _ _ _ _ _ Hm)
      as (_ & Hlen).
    now rewrite (IH (length rest)) by (subst n; auto).
  - rewrite (F_skip _ _ _ Hm).
    rewrite F_skip
      by (apply match_field_F; auto).
    f_equal. apply (IH (length s)); [subst n; simpl; lia | reflexivity].
Qed.

End Idempotent.

End Scanner.

(** ** The edit of an edited inventory *)

Lemma digit_or_dot_not_space c : digit_or_dot c = true -> is_space c = false.
Proof.
  intros H. destruct (is_space c) eqn:E; [|reflexivity].
  apply space_not_digit_or_dot in E. congruence.
Qed.

Lemma key_host_solid : solid key_host.
Proof. reflexivity. Qed.

Lemma key_password_solid : solid key_password.
Proof. reflexivity. Qed.

Lemma key_host_nonempty : key_host <> [].
Proof. discriminate. Qed.

Lemma key_password_nonempty : key_password <> [].
Proof. discriminate. Qed.

(** [value_host] fails exactly on a text that does not start with a digit
    or a dot. *)
Lemma value_host_none t :
  value_host t = None <->
  match hd_error t with
  | Some c => digit_or_dot c = false
  | None => True
  end.
Proof.
  unfold value_host. destruct t as [|c t]; simpl; [tauto|].
  destruct (digit_or_dot c); split; auto; discriminate.
Qed.

Lemma value_host_rest_head s v rest :
  value_host s = Some (v, rest) -> value_host rest = None.
Proof.
  unfold value_host at 1. intros H.
  destruct (take_while digit_or_dot s); [discriminate|].
  injection H as _ <-. apply value_host_none.
  pose proof (drop_while_head digit_or_dot s) as Hh.
  now destruct (drop_while digit_or_dot s).
Qed.

(** A run of digits and dots in front of a text that does not go on with
    one is the value. *)
Lemma value_host_intro v X :
  host_value v -> value_host X = None -> value_host (v ++ X) = Some (v, X).
Proof.
  intros (Hne & Hall) HX. unfold value_host.
  rewrite take_while_app, drop_while_app by assumption.
  assert (Ht : take_while digit_or_dot X = []).
  { unfold value_host in HX.
    now destruct (take_while digit_or_dot X). }
  assert (Hd : drop_while digit_or_dot X = X).
  { rewrite <- (take_drop_while digit_or_dot X) at 2. now rewrite Ht. }
  rewrite Ht, Hd, app_nil_r. destruct v; [contradiction | reflexivity].
Qed.

Lemma value_password_intro body X :
  forallb not_dquote body = true ->
  value_password (dquote :: body ++ dquote :: X)
  = Some (dquote :: body ++ [dquote], X).
Proof.
  intros Hbody. unfold value_password. rewrite ascii_eqb_refl.
  rewrite take_while_app, drop_while_app by assumption.
  simpl. now rewrite app_nil_r.
Qed.

Definition no_dquote (t : text) : Prop := forallb not_dquote t = true.

Lemma no_dquote_app a b : no_dquote (a ++ b) <-> no_dquote a /\ no_dquote b.
Proof. unfold no_dquote. rewrite forallb_app. apply andb_true_iff. Qed.

(** What stands in front of the first double quote. *)
Lemma before_dquote a b r1 r2 :
  no_dquote a -> no_dquote b ->
  a ++ r1 = b ++ dquote :: r2 ->
  exists b2, b = a ++ b2 /\ r1 = b2 ++ dquote :: r2.
Proof.
  revert b. induction a as [|c a IH]; intros b Ha Hb Heq.
  - now exists b.
  - destruct b as [|d b].
    + simpl in Heq. injection Heq as -> _.
      unfold no_dquote in Ha. simpl in Ha. discriminate.
    + simpl in Heq. injection Heq as -> Heq.
      unfold no_dquote in *. simpl in Ha, Hb.
      apply andb_true_iff in Ha as [_ Ha]. apply andb_true_iff in Hb as [_ Hb].
      destruct (IH b Ha Hb Heq) as (b2 & -> & ->). now exists b2.
Qed.

Lemma first_dquote a b r1 r2 :
  no_dquote a -> no_dquote b ->
  a ++ dquote :: r1 = b ++ dquote :: r2 -> a = b /\ r1 = r2.
Proof.
  intros Ha Hb Heq.
  destruct (@before_dquote a b (dquote :: r1) r2 Ha Hb Heq) as (b2 & -> & Hr).
  destruct b2 as [|c b2].
  - simpl in Hr. injection Hr as ->. now rewrite app_nil_r.
  - simpl in Hr. injection Hr as <- _.
    apply no_dquote_app in Hb as [_ Hb]. discriminate.
Qed.

Lemma blank_no_dquote ws : forallb is_space ws = true -> no_dquote ws.
Proof.
  apply forallb_impl. intros c Hc. unfold not_dquote.
  now rewrite (space_not_dquote _ Hc).
Qed.

Lemma host_value_no_dquote v : host_value v -> no_dquote v.
Proof.
  intros (_ & Hall). revert Hall. apply forallb_impl.
  intros c Hc. unfold not_dquote. now rewrite (digit_or_dot_not_dquote _ Hc).
Qed.

Lemma host_value_solid v : host_value v -> solid v.
Proof.
  intros (_ & Hall). revert Hall. apply forallb_impl.
  intros c Hc. now rewrite (digit_or_dot_not_space _ Hc).
Qed.

Lemma digit_or_dot_not_a c : digit_or_dot c = true -> ascii_eqb "a" c = false.
Proof. destruct c as [[] [] [] [] [] [] [] []]; cbv; congruence. Qed.

(** A field of the host, put together. *)
Lemma match_field_host_intro ws1 ws2 v X :
  blank ws1 -> blank ws2 -> host_value v -> value_host X = None ->
  match_field key_host value_host true (ws1 ++ key_host ++ ws2 ++ v ++ X)
  = Some (ws1 ++ key_host ++ ws2, v, X).
Proof.
  intros Hb1 (Hne2 & Hws2) Hv HX.
  rewrite match_field_blank_any by (auto; reflexivity).
  unfold match_key. rewrite strip_prefix_same.
  assert (Hsolid : starts_solid (v ++ X)).
  { destruct Hv as (Hne & Hall). destruct v as [|c v]; [contradiction|].
    simpl in *. apply andb_true_iff in Hall as [Hc _].
    now apply digit_or_dot_not_space. }
  rewrite take_while_app, drop_while_app by assumption.
  rewrite (take_while_solid _ Hsolid), (drop_while_solid _ Hsolid), app_nil_r.
  rewrite (@value_host_intro v X Hv HX).
  destruct ws2; [contradiction | reflexivity].
Qed.

Lemma field_regroup (ws1 key ws2 body rest : text) q :
  (ws1 ++ key ++ ws2) ++ (q :: body ++ [q]) ++ rest
  = ws1 ++ key ++ ws2 ++ q :: body ++ q :: rest.
Proof. rewrite <- !app_assoc. simpl. now rewrite <- !app_assoc. Qed.

Section Edit.

Variables instance_ip password : text.

Hypothesis ip_value : host_value instance_ip.
Hypothesis password_no_dquote : no_dquote password.

Let quoted : text := dquote :: password ++ [dquote].
Let H : bool -> text -> text := host_scan instance_ip.
Let P : bool -> text -> text := password_scan quoted.

Local Abbreviation on_host lemma :=
  (lemma key_host value_host host_pattern instance_ip match_at_host).
Local Abbreviation on_password lemma :=
  (lemma key_password value_password password_pattern quoted
     match_at_password).

(** The scan for the password finds nothing in a text without double
    quote. *)
Lemma P_no_dquote n :
  forall b s, length s = n -> no_dquote s -> P b s = s.
Proof.
  induction n as [n IH] using lt_wf_ind. intros b s Hn Hs.
  destruct s as [|c s]; [apply (on_password (@F_nil))|].
  destruct (match_field key_password value_password b (c :: s))
    as [[[g v] rest]|] eqn:Hm.
  - exfalso.
    destruct (@match_field_parts _ _ value_password_splits _ _ _ _ _ Hm)
      as (_ & ws1 & ws2 & -> & _ & _ & Hsplit & Hk).
    destruct (@match_key_parts _ _ value_password_splits _ _ _ _ Hk)
      as (_ & _ & _ & _ & Hv & _).
    destruct (value_password_is_value _ Hv) as (body & -> & _).
    rewrite Hsplit in Hs. rewrite !no_dquote_app in Hs.
    destruct Hs as (_ & Hq & _). discriminate.
  - unfold P, password_scan.
    rewrite (on_password (@F_skip) _ _ _ Hm). f_equal.
    apply (IH (length s)); [subst n; simpl; lia | reflexivity |].
    unfold no_dquote in *. simpl in Hs.
    now apply andb_true_iff in Hs as [_ Hs].
Qed.

Lemma value_host_stable (F : bool -> text -> text) :
  (forall b s, hd_error (F b s) = hd_error s) ->
  forall b t, value_host t = None -> value_host (F b t) = None.
Proof.
  intros Hhead b t Ht. apply value_host_none. rewrite Hhead.
  now apply value_host_none.
Qed.

Lemma H_head b s : hd_error (H b s) = hd_error s.
Proof.
  apply (on_host (@F_head) value_host_splits value_host_ends).
Qed.

Lemma P_head b s : hd_error (P b s) = hd_error s.
Proof.
  apply (on_password (@F_head) value_password_splits value_password_ends).
Qed.

Lemma value_password_stable b t :
  value_password t = None -> value_password (P b t) = None.
Proof.
  intros Ht. destruct t as [|q t]; [now rewrite (on_password (@F_nil))|].
  pose proof (P_head b (q :: t)) as Hhead.
  destruct (ascii_eqb q dquote) eqn:Hq.
  - apply ascii_eqb_eq in Hq. subst q.
    unfold P, password_scan.
    rewrite (on_password (@F_solid_cons)) by reflexivity.
    unfold value_password in *. rewrite ascii_eqb_refl in *.
    assert (Hfree : no_dquote t).
    { destruct (drop_while not_dquote t) eqn:Hd; [|discriminate].
      unfold no_dquote. rewrite <- (take_drop_while not_dquote t), Hd.
      rewrite app_nil_r. apply take_while_forallb. }
    change (scan password_pattern (fun g _ => g ++ quoted) false t)
      with (P false t).
    now rewrite (@P_no_dquote (length t)).
  - destruct (P b (q :: t)) as [|q' t']; [reflexivity|].
    simpl in Hhead. injection Hhead as ->.
    unfold value_password. now rewrite Hq.
Qed.

(** The edit of the host field twice is the edit once. *)
Lemma H_idempotent b s : H b (H b s) = H b s.
Proof.
  apply (@F_idempotent key_host value_host host_pattern instance_ip
           match_at_host value_host_splits value_host_ends
           key_host_solid key_host_nonempty) with (n := length s);
    try reflexivity.
  - apply value_host_stable. apply H_head.
  - now destruct ip_value.
  - destruct ip_value as (Hne & Hall). destruct instance_ip as [|c ip];
      [contradiction|].
    simpl in *. apply andb_true_iff in Hall as [Hc _].
    now apply digit_or_dot_not_space.
  - intros s0 v rest b0 Hv. apply value_host_intro; [exact ip_value|].
    apply value_host_stable; [apply H_head|].
    eapply value_host_rest_head; eauto.
Qed.

(** The edit of the password field twice is the edit once. *)
Lemma P_idempotent b s : P b (P b s) = P b s.
Proof.
  apply (@F_idempotent key_password value_password password_pattern quoted
           match_at_password value_password_splits value_password_ends
           key_password_solid key_password_nonempty) with (n := length s);
    try reflexivity.
  - apply value_password_stable.
  - discriminate.
  - intros s0 v rest b0 Hv. unfold quoted.
    change ((dquote :: password ++ [dquote]) ++ ?X)
      with (dquote :: (password ++ [dquote]) ++ X).
    rewrite <- app_assoc. simpl.
    now apply value_password_intro.
Qed.

(** The scan for the host goes over group 1 of a password field and the
    double quote behind it. *)
Lemma H_over_password_group ws1 ws2 X b :
  blank ws1 -> blank ws2 ->
  H b (ws1 ++ key_password ++ ws2 ++ dquote :: X)
  = ws1 ++ key_password ++ ws2 ++ dquote :: H false X.
Proof.
  intros (_ & Hws1) (_ & Hws2). unfold H, host_scan.
  rewrite (on_host (@F_blank_app)); [|assumption|reflexivity|reflexivity].
  rewrite (on_host (@F_solid_app)); [|reflexivity|discriminate].
  rewrite (on_host (@F_blank_app)); [|assumption|reflexivity|reflexivity].
  now rewrite (on_host (@F_solid_cons)).
Qed.

(** The scan for the password goes over a host field. *)
Lemma P_over_host_field ws1 ws2 v Y b :
  blank ws1 -> blank ws2 -> host_value v ->
  P b (ws1 ++ key_host ++ ws2 ++ v ++ Y)
  = ws1 ++ key_host ++ ws2 ++ v ++ P false Y.
Proof.
  intros (_ & Hws1) (_ & Hws2) Hv. unfold P, password_scan.
  destruct Hv as (Hne & Hall).
  assert (Hsolid : starts_solid (v ++ Y)).
  { destruct v as [|c v]; [contradiction|]. simpl in *.
    apply andb_true_iff in Hall as [Hc _]. now apply digit_or_dot_not_space. }
  rewrite (on_password (@F_blank_app)); [|assumption|reflexivity|reflexivity].
  rewrite (on_password (@F_solid_app)); [|reflexivity|discriminate].
  rewrite (on_password (@F_blank_app)); [|assumption|assumption|].
  2:{ unfold match_key. destruct v as [|c v]; [contradiction|].
      simpl in Hall. apply andb_true_iff in Hall as [Hc _].
      change (strip_prefix key_password ((c :: v) ++ Y))
        with (if ascii_eqb "a" c
              then strip_prefix (txt "nsible_password:") (v ++ Y)
              else None).
      now rewrite (digit_or_dot_not_a _ Hc). }
  now rewrite (on_password (@F_solid_app))
    by (auto; now apply host_value_solid).
Qed.

(** The scan for the host stops at a double quote and starts again
    behind it. *)
Lemma H_splits_at_dquote n :
  forall body b rest,
    length body = n -> no_dquote body ->
    exists body',
      no_dquote body' /\
      H b (body ++ dquote :: rest) = body' ++ dquote :: H false rest.
Proof.
  induction n as [n IH] using lt_wf_ind. intros body b rest Hn Hbody.
  destruct body as [|c body].
  { exists []. split; [reflexivity|]. unfold H, host_scan. simpl app.
    now rewrite (on_host (@F_solid_cons)). }
  destruct (match_field key_host value_host b ((c :: body) ++ dquote :: rest))
    as [[[g v] rest']|] eqn:Hm.
  - destruct (@match_field_parts _ _ value_host_splits _ _ _ _ _ Hm)
      as (_ & ws1 & ws2 & Hg & Hb1 & Hb2 & Hsplit & Hk).
    destruct (@match_key_parts _ _ value_host_splits _ _ _ _ Hk)
      as (_ & _ & _ & _ & Hv & _).
    pose proof (value_host_is_value _ Hv) as Hval.
    assert (Hfree : no_dquote (g ++ v)).
    { subst g. rewrite !no_dquote_app.
      repeat split; try reflexivity;
        [apply blank_no_dquote, Hb1 | apply blank_no_dquote, Hb2
        | now apply host_value_no_dquote]. }
    rewrite app_assoc in Hsplit. symmetry in Hsplit.
    destruct (@before_dquote _ _ _ _ Hfree Hbody Hsplit) as (body2 & Hb & ->).
    destruct (IH (length body2)) with (body := body2) (b := false)
                                      (rest := rest)
      as (body2' & Hfree2 & Hscan); auto.
    { subst n. rewrite Hb, !length_app.
      destruct Hb1 as (Hne1 & _). subst g. destruct ws1; [contradiction|].
      simpl. lia. }
    { rewrite Hb in Hbody. now apply no_dquote_app in Hbody as [_ ?]. }
    exists (g ++ instance_ip ++ body2'). split.
    + apply no_dquote_app in Hfree as [Hg' _]. rewrite !no_dquote_app.
      repeat split; auto. now apply host_value_no_dquote.
    + unfold H, host_scan in *.
      rewrite (on_host (@F_match) value_host_splits value_host_ends _ _ Hm).
      rewrite Hscan. now rewrite <- !app_assoc.
  - destruct (IH (length body)) with (body := body) (b := is_newline c)
                                     (rest := rest)
      as (body' & Hfree & Hscan); auto.
    { subst n. simpl. lia. }
    { unfold no_dquote in *. simpl in Hbody.
      now apply andb_true_iff in Hbody as [_ ?]. }
    exists (c :: body'). split.
    + unfold no_dquote in *. simpl in *.
      apply andb_true_iff in Hbody as [-> _]. exact Hfree.
    + unfold H, host_scan in *. simpl app in *.
      rewrite (on_host (@F_skip) _ _ _ Hm). now rewrite Hscan.
Qed.

(** The scan for the host adds no double quote. *)
Lemma H_no_dquote n :
  forall b s, length s = n -> no_dquote s -> no_dquote (H b s).
Proof.
  induction n as [n IH] using lt_wf_ind. intros b s Hn Hs.
  destruct s as [|c s].
  { unfold H, host_scan. now rewrite (on_host (@F_nil)). }
  destruct (match_field key_host value_host b (c :: s))
    as [[[g v] rest]|] eqn:Hm.
  - destruct (@match_field_parts _ _ value_host_splits _ _ _ _ _ Hm)
      as (_ & ws1 & ws2 & Hg & _ & _ & Hsplit & _).
    destruct (@match_field_shorter _ _ value_host_splits _ _ _ _ _ Hm)
      as (_ & Hlen).
    unfold H, host_scan.
    rewrite (on_host (@F_match) value_host_splits value_host_ends _ _ Hm).
    fold (host_scan instance_ip). fold H.
    rewrite Hsplit in Hs. rewrite !no_dquote_app in Hs.
    destruct Hs as (Hg' & _ & Hrest). rewrite !no_dquote_app.
    repeat split; auto.
    + now apply host_value_no_dquote.
    + apply (IH (length rest)); auto. now subst n.
  - unfold H, host_scan. rewrite (on_host (@F_skip) _ _ _ Hm).
    fold (host_scan instance_ip). fold H.
    unfold no_dquote in *. simpl in *.
    apply andb_true_iff in Hs as [-> Hs]. simpl.
    apply (IH (length s)); auto. subst n. simpl. lia.
Qed.

Lemma value_password_stable_host b t :
  value_password t = None -> value_password (H b t) = None.
Proof.
  intros Ht. destruct t as [|q t].
  { unfold H, host_scan. now rewrite (on_host (@F_nil)). }
  pose proof (H_head b (q :: t)) as Hhead.
  destruct (ascii_eqb q dquote) eqn:Hq.
  - apply ascii_eqb_eq in Hq. subst q.
    unfold H, host_scan.
    rewrite (on_host (@F_solid_cons)) by reflexivity.
    fold (host_scan instance_ip). fold H.
    unfold value_password in *. rewrite ascii_eqb_refl in *.
    assert (Hfree : no_dquote t).
    { destruct (drop_while not_dquote t) eqn:Hd; [|discriminate].
      unfold no_dquote. rewrite <- (take_drop_while not_dquote t), Hd.
      rewrite app_nil_r. apply take_while_forallb. }
    pose proof (@H_no_dquote (length t) false t eq_refl Hfree) as Hfree'.
    pose proof (take_drop_while not_dquote (H false t)) as Hsplit.
    pose proof (drop_while_head not_dquote (H false t)) as Hd.
    destruct (drop_while not_dquote (H false t)) as [|q2 r]; [reflexivity|].
    exfalso. rewrite <- Hsplit in Hfree'.
    apply no_dquote_app in Hfree' as [_ Hfree'].
    unfold no_dquote in Hfree'. simpl in Hfree'. now rewrite Hd in Hfree'.
  - destruct (H b (q :: t)) as [|q' t']; [reflexivity|].
    simpl in Hhead. injection Hhead as ->.
    unfold value_password. now rewrite Hq.
Qed.

(** A field of the password, put together. *)
Lemma match_field_password_intro ws1 ws2 body X :
  blank ws1 -> blank ws2 -> no_dquote body ->
  match_field key_password value_password true
    (ws1 ++ key_password ++ ws2 ++ dquote :: body ++ dquote :: X)
  = Some (ws1 ++ key_password ++ ws2, dquote :: body ++ [dquote], X).
Proof.
  intros Hb1 (Hne2 & Hws2) Hbody.
  rewrite match_field_blank_any by (auto; reflexivity).
  unfold match_key. rewrite strip_prefix_same.
  assert (Hsolid : starts_solid (dquote :: body ++ dquote :: X))
    by reflexivity.
  rewrite take_while_app, drop_while_app by assumption.
  rewrite (take_while_solid _ Hsolid), (drop_while_solid _ Hsolid), app_nil_r.
  rewrite (@value_password_intro body X Hbody).
  destruct ws2; [contradiction | reflexivity].
Qed.

(** On an inventory that the edit of the host leaves alone, the edit of
    the password, the edit of the host and the edit of the password
    again give what the edit of the password gave. *)
Theorem P_H_P :
  forall n b s, length s = n -> H b s = s -> P b (H b (P b s)) = P b s.
Proof.
  induction n as [n IH] using lt_wf_ind. intros b s Hn Hstable.
  destruct s as [|c s].
  { unfold P, password_scan. rewrite (on_password (@F_nil)).
    rewrite Hstable. now rewrite (on_password (@F_nil)). }
  destruct (match_field key_password value_password b (c :: s))
    as [[[g v] rest]|] eqn:HmP.
  - (* a password field *)
    destruct (@match_field_parts _ _ value_password_splits _ _ _ _ _ HmP)
      as (-> & ws1 & ws2 & Hg & Hb1 & Hb2 & Hsplit & Hk).
    destruct (@match_key_parts _ _ value_password_splits _ _ _ _ Hk)
      as (_ & _ & _ & _ & Hv & _).
    destruct (@match_field_shorter _ _ value_password_splits _ _ _ _ _ HmP)
      as (_ & Hlen).
    destruct (value_password_is_value _ Hv) as (body & Hbody & Hfree).
    assert (Hrest : H false rest = rest).
    { rewrite Hsplit, Hg, Hbody, field_regroup in Hstable.
      rewrite H_over_password_group in Hstable by assumption.
      do 3 apply app_inv_head in Hstable. injection Hstable as Hstable.
      destruct (@H_splits_at_dquote (length body) body false rest eq_refl Hfree)
        as (body' & Hfree' & Hscan).
      rewrite Hscan in Hstable.
      now destruct (@first_dquote _ _ _ _ Hfree' Hfree Hstable). }
    assert (HP : P true (c :: s) = g ++ quoted ++ P false rest).
    { unfold P, password_scan.
      now rewrite (on_password (@F_match) value_password_splits
                     value_password_ends _ _ HmP). }
    rewrite HP. rewrite Hg. unfold quoted at 1. rewrite field_regroup.
    rewrite H_over_password_group by assumption.
    destruct (@H_splits_at_dquote (length password) password false
                (P false rest) eq_refl password_no_dquote)
      as (secret' & Hfree' & ->).
    unfold P at 1. unfold password_scan.
    rewrite (on_password (@F_match) value_password_splits
               value_password_ends true _
               (g := ws1 ++ key_password ++ ws2)
               (v := dquote :: secret' ++ [dquote])
               (rest := H false (P false rest)))
      by now apply match_field_password_intro.
    fold (password_scan quoted). fold P.
    now rewrite (IH (length rest)) by (subst n; auto).
  - assert (HP : P b (c :: s) = c :: P (is_newline c) s).
    { unfold P, password_scan.
      now rewrite (on_password (@F_skip) _ _ _ HmP). }
    destruct (match_field key_host value_host b (c :: s))
      as [[[g v] rest]|] eqn:HmH.
    + (* a host field *)
      destruct (@match_field_parts _ _ value_host_splits _ _ _ _ _ HmH)
        as (-> & ws1 & ws2 & Hg & Hb1 & Hb2 & Hsplit & Hk).
      destruct (@match_key_parts _ _ value_host_splits _ _ _ _ Hk)
        as (_ & _ & _ & _ & Hv & _).
      destruct (@match_field_shorter _ _ value_host_splits _ _ _ _ _ HmH)
        as (_ & Hlen).
      pose proof (value_host_is_value _ Hv) as Hval.
      pose proof (value_host_rest_head _ Hv) as Hhead.
      assert (Heq : instance_ip = v /\ H false rest = rest).
      { unfold H, host_scan in Hstable.
        rewrite (on_host (@F_match) value_host_splits value_host_ends
                   _ _ HmH) in Hstable.
        fold (host_scan instance_ip) in Hstable. fold H in Hstable.
        rewrite Hsplit in Hstable. apply app_inv_head in Hstable.
        assert (Hleft : value_host (instance_ip ++ H false rest)
                        = Some (instance_ip, H false rest)).
        { apply value_host_intro; [exact ip_value|].
          apply value_host_stable; [apply H_head | exact Hhead]. }
        rewrite Hstable, (@value_host_intro _ _ Hval Hhead) in Hleft.
        injection Hleft as Hv' Hr'. split; congruence. }
      destruct Heq as (Hip & Hrest).
      assert (HP' : P true (c :: s) = g ++ v ++ P false rest).
      { rewrite Hsplit, Hg, <- !app_assoc. now apply P_over_host_field. }
      rewrite HP'. unfold H at 1. unfold host_scan.
      rewrite (on_host (@F_match) value_host_splits value_host_ends
                 true (g ++ v ++ P false rest) (g := g) (v := v)
                 (rest := P false rest)).
      2:{ rewrite Hg, <- !app_assoc.
          apply match_field_host_intro; auto.
          apply value_host_stable; [apply P_head | exact Hhead]. }
      fold (host_scan instance_ip). fold H. rewrite Hip.
      rewrite Hg, <- !app_assoc. rewrite P_over_host_field by assumption.
      now rewrite (IH (length rest)) by (subst n; auto).
    + (* no field *)
      assert (Hs : H (is_newline c) s = s).
      { unfold H, host_scan in Hstable.
        rewrite (on_host (@F_skip) _ _ _ HmH) in Hstable.
        now injection Hstable. }
      rewrite HP.
      assert (HmH' : match_field key_host value_host b
                       (c :: P (is_newline c) s) = None).
      { apply (@match_field_F key_password value_password password_pattern
                 quoted match_at_password value_password_splits
                 value_password_ends key_password_solid
                 key_password_nonempty key_host value_host
                 key_host_solid key_host_nonempty); auto.
        intros b0 t. apply value_host_stable. apply P_head. }
      assert (HmP' : match_field key_password value_password b
                       (c :: P (is_newline c) s) = None).
      { apply (@match_field_F key_password value_password password_pattern
                 quoted match_at_password value_password_splits
                 value_password_ends key_password_solid
                 key_password_nonempty key_password value_password
                 key_password_solid key_password_nonempty); auto.
        apply value_password_stable. }
      unfold H at 1. unfold host_scan.
      rewrite (on_host (@F_skip) _ _ _ HmH').
      fold (host_scan instance_ip). fold H.
      unfold P at 1. unfold password_scan.
      rewrite (on_password (@F_skip)).
      * fold (password_scan quoted). fold P. f_equal.
        apply (IH (length s)); [subst n; simpl; lia | reflexivity | exact Hs].
      * apply (@match_field_F key_host value_host host_pattern
                 instance_ip match_at_host value_host_splits
                 value_host_ends key_host_solid
                 key_host_nonempty key_password value_password
                 key_password_solid key_password_nonempty); auto.
        apply value_password_stable_host.
Qed.

End Edit.

Lemma digit_or_dot_not_backslash c :
  digit_or_dot c = true -> ascii_eqb c backslash = false.
Proof. destruct c as [[] [] [] [] [] [] [] []]; cbv; congruence. Qed.

Lemma host_value_no_backslash v : host_value v -> no_backslash v.
Proof.
  intros (_ & Hall). revert Hall. apply forallb_impl.
  intros c Hc. now rewrite (digit_or_dot_not_backslash _ Hc).
Qed.

(** A password the edit can write and find again: no double quote, which
    would end the quoted value, and no backslash, which [re] reads as an
    escape. *)
Definition plain_secret (password : text) : Prop :=
  no_dquote password /\ no_backslash password.

(** The edit with a host of digits and dots and a plain password. *)
Lemma update_inventory_scans instance_ip password content :
  host_value instance_ip -> plain_secret password ->
  update_inventory instance_ip password content
  = Ok (password_scan (dquote :: password ++ [dquote]) true
          (host_scan instance_ip true content)).
Proof.
  intros Hip (_ & Hback). unfold update_inventory.
  unfold host_template, password_template.
  rewrite sub_literal by now apply host_value_no_backslash.
  rewrite sub_literal; [reflexivity|].
  unfold no_backslash in *. simpl. now rewrite forallb_app, Hback.
Qed.

(** C3, as the script has it.  For a host that is a non-empty run of
    digits and dots and a password without double quote and backslash,
    the edit succeeds and the edit of the edited inventory gives the
    edited inventory again. *)
Theorem inventory_edit_idempotent instance_ip password content :
  host_value instance_ip -> plain_secret password ->
  exists once,
    update_inventory instance_ip password content = Ok once /\
    update_inventory instance_ip password once = Ok once.
Proof.
  intros Hip Hpw. pose proof Hpw as (Hquote & _).
  rewrite update_inventory_scans by assumption.
  eexists. split; [reflexivity|].
  rewrite update_inventory_scans by assumption. f_equal.
  apply (@P_H_P instance_ip password Hip Hquote
           (length (host_scan instance_ip true content)));
    [reflexivity | now apply H_idempotent].
Qed.

Lemma inventory_edit_idempotent_witness :
  host_value (txt "203.0.113.5") /\ plain_secret (txt "S3cret") /\
  exists once,
    update_inventory (txt "203.0.113.5") (txt "S3cret") two_hosts = Ok once /\
    update_inventory (txt "203.0.113.5") (txt "S3cret") once = Ok once.
Proof.
  assert (Hip : host_value (txt "203.0.113.5"))
    by (split; [discriminate | reflexivity]).
  assert (Hpw : plain_secret (txt "S3cret")) by (split; reflexivity).
  split; [exact Hip|]. split; [exact Hpw|].
  exact (@inventory_edit_idempotent (txt "203.0.113.5") (txt "S3cret")
           two_hosts Hip Hpw).
Defined.

(** A password with a double quote in it. *)
Definition quoting_secret : text := txt "a" ++ dquote :: txt "b".

Definition one_host : text :=
  txt "all:" ++ newline ::
  txt "  hosts:" ++ newline ::
  txt "    dc01:" ++ newline ::
  txt "      ansible_host: 10.0.0.1" ++ newline ::
  txt "      ansible_password: " ++ dquote :: txt "old" ++ [dquote; newline].

(** C3, as the specification has it, fails: with a double quote in the
    password the second edit finds a shorter quoted value than the first
    one wrote and leaves the tail of the password behind it; and of a
    host with a port the second edit finds the address alone and leaves
    the port behind it. *)
Lemma inventory_edit_twice_differs :
  (let once := text_of (update_inventory (txt "203.0.113.5") quoting_secret
                          one_host) in
   let twice := text_of (update_inventory (txt "203.0.113.5") quoting_secret
                           once) in
   update_inventory (txt "203.0.113.5") quoting_secret one_host = Ok once /\
   update_inventory (txt "203.0.113.5") quoting_secret once = Ok twice /\
   nth_error (lines once) 4
   = Some (txt "      ansible_password: " ++ dquote :: txt "a" ++ dquote ::
           txt "b" ++ [dquote]) /\
   nth_error (lines twice) 4
   = Some (txt "      ansible_password: " ++ dquote :: txt "a" ++ dquote ::
           txt "b" ++ dquote :: txt "b" ++ [dquote]) /\
   once <> twice) /\
  (let once := text_of (update_inventory (txt "10.0.0.5:5986") (txt "S3cret")
                          one_host) in
   let twice := text_of (update_inventory (txt "10.0.0.5:5986") (txt "S3cret")
                           once) in
   update_inventory (txt "10.0.0.5:5986") (txt "S3cret") one_host = Ok once /\
   update_inventory (txt "10.0.0.5:5986") (txt "S3cret") once = Ok twice /\
   nth_error (lines once) 3 = Some (txt "      ansible_host: 10.0.0.5:5986") /\
   nth_error (lines twice) 3
   = Some (txt "      ansible_host: 10.0.0.5:5986:5986") /\
   once <> twice).
Proof.
  cbv zeta. split.
  - split; [vm_compute; reflexivity|].
    split; [vm_compute; reflexivity|].
    split; [vm_compute; reflexivity|].
    split; [vm_compute; reflexivity|].
    vm_compute. discriminate.
  - split; [vm_compute; reflexivity|].
    split; [vm_compute; reflexivity|].
    split; [vm_compute; reflexivity|].
    split; [vm_compute; reflexivity|].
    vm_compute. discriminate.
Qed.

(** An empty host gives an edit that a second edit changes, when a digit
    comes after the blank space that follows the field. *)
Lemma empty_host_edit_differs :
  let inv := txt "  ansible_host: 1" ++ newline :: txt "2" ++ [newline] in
  let once := text_of (update_inventory [] (txt "S3cret") inv) in
  update_inventory [] (txt "S3cret") inv = Ok once /\
  update_inventory [] (txt "S3cret") once <> Ok once.
Proof.
  cbv zeta. split; [vm_compute; reflexivity|].
  vm_compute. intros E. injection E as E. discriminate.
Qed.

(** A backslash in the password is read as an escape: the octal escape of
    the double quote puts a double quote into the value. *)
Lemma escaped_quote_edit_differs :
  let secret := txt "a\042b" in
  let once := text_of (update_inventory (txt "203.0.113.5") secret one_host) in
  update_inventory (txt "203.0.113.5") secret one_host = Ok once /\
  update_inventory (txt "203.0.113.5") secret once <> Ok once.
Proof.
  cbv zeta. split; [vm_compute; reflexivity|].
  vm_compute. intros E. injection E as E. discriminate.
Qed.

(** ** What a refused template shows *)

















(** A password that is nothing but an escape [re] does not know. *)
Definition escape_secret : outside :=
  sample_outside (txt "\q") (Some 1) (fun _ => 0%Z).


(** * More of the script *)

(** * More of the script *)

(** ** What holds from one world to the next *)

(** A relation between the world before and the world after that holds
    over a whole computation when it holds over each of its steps. *)
Section Preserves.

Variable R : world -> world -> Prop.
Hypothesis R_refl : forall w, R w w.
Hypothesis R_trans : forall w1 w2 w3, R w1 w2 -> R w2 w3 -> R w1 w3.

Definition preserves {A} (m : M A) : Prop := forall w, R w (snd (m w)).

Lemma preserves_ret {A} (a : A) : preserves (ret a).
Proof. intros w. apply R_refl. Qed.

Lemma preserves_raise {A} e : preserves (@raise A e).
Proof. intros w. apply R_refl. Qed.

Lemma preserves_sys_exit {A} code : preserves (@sys_exit A code).
Proof. intros w. apply R_refl. Qed.

Lemma preserves_bind {A B} (m : M A) (f : A -> M B) :
  preserves m -> (forall a, preserves (f a)) -> preserves (bind m f).
Proof.
  intros Hm Hf w. specialize (Hm w). unfold bind.
  destruct (m w) as [[a|e|c|] w1]; simpl in *; auto.
  eapply R_trans; [exact Hm | apply Hf].
Qed.

Lemma preserves_try_except {A} (m : M A) handler :
  preserves m -> (forall e, preserves (handler e)) ->
  preserves (try_except m handler).
Proof.
  intros Hm Hh w. specialize (Hm w). unfold try_except.
  destruct (m w) as [[a|e|c|] w1]; simpl in *; auto.
  eapply R_trans; [exact Hm | apply Hh].
Qed.

Lemma preserves_try_bare {A} (m : M A) handler :
  preserves m -> preserves handler -> preserves (try_bare m handler).
Proof.
  intros Hm Hh w. specialize (Hm w). unfold try_bare.
  destruct (m w) as [[a|e|c|] w1]; simpl in *; auto;
    (eapply R_trans; [exact Hm | apply Hh]).
Qed.

Lemma preserves_while {S : Type} fuel (cond : S -> bool) body :
  (forall s, preserves (body s)) ->
  forall s, preserves (while fuel cond body s).
Proof.
  intros Hbody. induction fuel as [|fuel IH]; intros s; simpl;
    destruct (cond s); try apply preserves_ret.
  - intros w. apply R_refl.
  - apply preserves_bind; auto.
Qed.

Lemma preserves_if {A} (b : bool) (m1 m2 : M A) :
  preserves m1 -> preserves m2 -> preserves (if b then m1 else m2).
Proof. now destruct b. Qed.

End Preserves.

(** Walks through a script, leaving what the steps themselves have to
    show; [refl] and [trans] are the two properties of the relation. *)
Ltac walk refl trans :=
  repeat match goal with
  | |- preserves _ (bind _ _) => apply (preserves_bind trans); [|intros ?]
  | |- preserves _ (ret _) => apply (preserves_ret _ refl)
  | |- preserves _ (raise _) => apply (preserves_raise _ refl)
  | |- preserves _ (sys_exit _) => apply (preserves_sys_exit _ refl)
  | |- preserves _ (try_except _ _) =>
      apply (preserves_try_except trans); [|intros ?]
  | |- preserves _ (try_bare _ _) => apply (preserves_try_bare trans)
  | |- preserves _ (while _ _ _ _) =>
      apply (preserves_while refl trans); intros ?
  | |- preserves _ (if ?b then _ else _) => destruct b
  | |- preserves _ (match ?x with _ => _ end) => destruct x
  | |- preserves _ (let (_, _) := ?x in _) => destruct x
  | |- preserves _ (log _ _) => unfold log
  | |- preserves _ (banner _) => unfold banner
  | |- preserves _ (chdir _) => unfold chdir
  | |- preserves _ (sleep _) => unfold sleep
  | |- preserves _ (input _ _) => unfold input
  | |- preserves _ (run_command _ _) => unfold run_command
  | |- preserves _ (run_command_output _ _) => unfold run_command_output
  | |- preserves _ (command_failed _) => unfold command_failed
  | |- preserves _ (second_word _) => unfold second_word
  | |- preserves _ (read_tfvars_example _) => unfold read_tfvars_example
  | |- preserves _ (playbook_attempt _ _ _) =>
      unfold playbook_attempt; cbv zeta
  | |- preserves _ (run_playbook_with_retries _ _) =>
      unfold run_playbook_with_retries
  | |- preserves _ (probe _ _ _ _) => unfold probe
  | |- preserves _ (check_prerequisites _) => unfold check_prerequisites
  | |- preserves _ (deploy_infrastructure _ _) => unfold deploy_infrastructure
  | |- preserves _ (destroy_infrastructure _ _) =>
      unfold destroy_infrastructure
  | |- preserves _ (ansible_only _) => unfold ansible_only
  | |- preserves _ (test_winrm_connectivity _ _ _ _) =>
      unfold test_winrm_connectivity
  | |- preserves _ (configure_with_ansible _ _ _ _) =>
      unfold configure_with_ansible; cbv zeta
  | |- preserves _ (main _ _) => unfold main
  end.

(** *** The events a computation adds *)

(** The world after has the events of the world before and then events
    that all satisfy [P]. *)
Definition adds (P : event -> bool) (w w' : world) : Prop :=
  exists evs, trace w' = trace w ++ evs /\ forallb P evs = true.

Lemma adds_refl P w : adds P w w.
Proof. exists []. now rewrite app_nil_r. Qed.

Lemma adds_trans P w1 w2 w3 : adds P w1 w2 -> adds P w2 w3 -> adds P w1 w3.
Proof.
  intros (evs1 & H1 & P1) (evs2 & H2 & P2). exists (evs1 ++ evs2).
  rewrite H2, H1, app_assoc, forallb_app, P1, P2. now split.
Qed.

Lemma adds_emit P e : P e = true -> preserves (adds P) (emit e).
Proof. intros H w. exists [e]. simpl. now rewrite H. Qed.

Lemma adds_read_inventory P :
  P (ReadFile Inventory) = true -> preserves (adds P) read_inventory.
Proof.
  intros H w. exists [ReadFile Inventory]. unfold read_inventory, bind, emit.
  simpl. rewrite H. now destruct (inventory w).
Qed.

Lemma adds_write_inventory P content :
  P (WriteFile Inventory content) = true ->
  preserves (adds P) (write_inventory content).
Proof. intros H w. exists [WriteFile Inventory content]. simpl. now rewrite H. Qed.

Lemma adds_write_tfvars P content :
  P (WriteFile Tfvars content) = true ->
  preserves (adds P) (write_tfvars content).
Proof. intros H w. exists [WriteFile Tfvars content]. simpl. now rewrite H. Qed.

Lemma adds_tfvars_exists P : preserves (adds P) tfvars_exists.
Proof. intros w. apply adds_refl. Qed.

(** *** The two files *)

Definition same_files (w w' : world) : Prop :=
  inventory w' = inventory w /\ tfvars w' = tfvars w.

Lemma same_files_refl w : same_files w w.
Proof. now split. Qed.

Lemma same_files_trans w1 w2 w3 :
  same_files w1 w2 -> same_files w2 w3 -> same_files w1 w3.
Proof. intros [H1 H2] [H3 H4]. split; congruence. Qed.

Lemma same_files_emit e : preserves same_files (emit e).
Proof. intros w. now split. Qed.

Lemma same_files_read_inventory : preserves same_files read_inventory.
Proof.
  intros w. unfold read_inventory, bind, emit. simpl.
  now destruct (inventory w).
Qed.

Lemma same_files_tfvars_exists : preserves same_files tfvars_exists.
Proof. intros w. now split. Qed.

Definition is_input (e : event) : bool :=
  match e with
  | Input _ => true
  | _ => false
  end.

Ltac adds_steps :=
  try (apply adds_emit; reflexivity);
  try (apply adds_read_inventory; reflexivity);
  try (apply adds_write_inventory; reflexivity);
  try (apply adds_write_tfvars; reflexivity);
  try apply adds_tfvars_exists.

Lemma poll_adds P env ip port max_attempts attempts :
  (forall lvl msg, P (Log lvl msg) = true) ->
  P (Connect ip port 5) = true -> P (Sleep 30) = true ->
  preserves (adds P) (poll env ip port max_attempts attempts).
Proof.
  intros Hlog Hconnect Hsleep.
  induction attempts as [|attempt later IH]; simpl;
    walk (@adds_refl P) (@adds_trans P);
    try (apply adds_emit; auto); exact IH.
Qed.

Lemma none_of (f : event -> bool) evs :
  forallb (fun e => negb (f e)) evs = true -> existsb f evs = false.
Proof.
  induction evs as [|e evs IH]; [reflexivity|]. simpl.
  intros H. apply andb_true_iff in H as [He H].
  apply negb_true_iff in He. now rewrite He, IH.
Qed.

(** X1.  With [--force] the script never asks: whatever the action and
    whatever the outside answers, no event of the run is a prompt. *)
Theorem force_never_prompts env args w :
  force args = true ->
  exists evs,
    trace (snd (main env args w)) = trace w ++ evs /\
    existsb is_input evs = false.
Proof.
  intros Hforce.
  assert (H : preserves (adds (fun e => negb (is_input e))) (main env args)).
  { unfold main, deploy_infrastructure, destroy_infrastructure.
    rewrite !Hforce. cbn [negb]. cbv iota.
    walk (@adds_refl (fun e => negb (is_input e)))
         (@adds_trans (fun e => negb (is_input e)));
      adds_steps.
    now apply poll_adds. }
  destruct (H w) as (evs & Htrace & Hnone). exists evs. split; [exact Htrace|].
  now apply none_of.
Qed.

Lemma force_never_prompts_witness :
  exists evs,
    trace (snd (main never_ready (sample_arguments Destroy)
                  (sample_world one_host)))
    = trace (sample_world one_host) ++ evs /\
    existsb is_input evs = false.
Proof.
  apply (@force_never_prompts never_ready (sample_arguments Destroy)).
  reflexivity.
Defined.

(** ** The three actions *)

(** The events of a run that destroys: what is logged and asked, the
    checks of the prerequisites, the changes of directory and
    [terraform destroy]. *)
Definition destroy_event (e : event) : bool :=
  match e with
  | Log _ _ | Banner _ | Chdir _ | Input _ => true
  | Command TerraformVersion | Command AnsibleVersion
  | Command AwsGetCallerIdentity | Command SshKeygen
  | Command TerraformDestroy => true
  | _ => false
  end.

Lemma main_same_files env args :
  act args <> Deploy -> preserves same_files (main env args).
Proof.
  intros Hact. unfold main.
  destruct (act args); [contradiction| |];
    walk same_files_refl same_files_trans;
    try apply same_files_emit; apply same_files_read_inventory.
Qed.

(** X2.  A run that destroys the infrastructure does nothing else: it
    opens no connection, runs no playbook, reads no inventory and no
    template, and of terraform it runs the version check and [destroy]
    only; the inventory and the variables file are as they were. *)
Theorem destroy_does_nothing_else env args w :
  act args = Destroy ->
  exists evs,
    trace (snd (main env args w)) = trace w ++ evs /\
    forallb destroy_event evs = true /\
    inventory (snd (main env args w)) = inventory w /\
    tfvars (snd (main env args w)) = tfvars w.
Proof.
  intros Hact.
  assert (H : preserves (adds destroy_event) (main env args)).
  { unfold main. rewrite Hact.
    walk (@adds_refl destroy_event) (@adds_trans destroy_event);
      adds_steps. }
  destruct (H w) as (evs & Htrace & Hall).
  assert (Hfiles : same_files w (snd (main env args w))).
  { apply main_same_files. rewrite Hact. discriminate. }
  exists evs. split; [exact Htrace|]. split; [exact Hall|]. exact Hfiles.
Qed.

Lemma destroy_does_nothing_else_witness :
  exists evs,
    trace (snd (main never_ready (sample_arguments Destroy)
                  (sample_world inventory_without_password)))
    = trace (sample_world inventory_without_password) ++ evs /\
    forallb destroy_event evs = true /\
    inventory (snd (main never_ready (sample_arguments Destroy)
                      (sample_world inventory_without_password)))
    = inventory (sample_world inventory_without_password) /\
    tfvars (snd (main never_ready (sample_arguments Destroy)
                   (sample_world inventory_without_password)))
    = tfvars (sample_world inventory_without_password).
Proof.
  apply (@destroy_does_nothing_else never_ready (sample_arguments Destroy)).
  reflexivity.
Defined.

(** *** The inventory *)

Definition same_inventory (w w' : world) : Prop :=
  inventory w' = inventory w.

Lemma same_inventory_refl w : same_inventory w w.
Proof. reflexivity. Qed.

Lemma same_inventory_trans w1 w2 w3 :
  same_inventory w1 w2 -> same_inventory w2 w3 -> same_inventory w1 w3.
Proof. unfold same_inventory. congruence. Qed.

Lemma same_inventory_emit e : preserves same_inventory (emit e).
Proof. intros w. reflexivity. Qed.

Lemma same_inventory_read : preserves same_inventory read_inventory.
Proof.
  intros w. unfold read_inventory, bind, emit. simpl.
  now destruct (inventory w).
Qed.

Lemma same_inventory_tfvars_exists : preserves same_inventory tfvars_exists.
Proof. intros w. reflexivity. Qed.

Lemma same_inventory_write_tfvars c :
  preserves same_inventory (write_tfvars c).
Proof. intros w. reflexivity. Qed.

(** X3.  The inventory is written by the configuration phase of a
    deployment and by nothing else: a run that destroys, a run that only
    configures and a deployment with [--skip-ansible] leave it as it
    was. *)
Theorem inventory_kept_outside_configuration env args w :
  (act args = Deploy -> skip_ansible args = true) ->
  inventory (snd (main env args w)) = inventory w.
Proof.
  intros Hskip.
  assert (H : preserves same_inventory (main env args)).
  { unfold main. destruct (act args).
    - rewrite Hskip by reflexivity. cbn [negb].
      walk same_inventory_refl same_inventory_trans;
        first [ apply same_inventory_emit
              | apply same_inventory_tfvars_exists
              | apply same_inventory_write_tfvars ].
    - walk same_inventory_refl same_inventory_trans;
        apply same_inventory_emit.
    - walk same_inventory_refl same_inventory_trans;
        first [ apply same_inventory_emit | apply same_inventory_read ]. }
  exact (H w).
Qed.

Definition infrastructure_only : arguments :=
  {| act := Deploy;
     environment := txt "staging";
     region := txt "eu-west-1";
     instance_type := txt "t3a.medium";
     elastic_ip := false;
     create_rds := false;
     skip_ansible := true;
     force := true |}.

Lemma inventory_kept_outside_configuration_witness :
  inventory (snd (main never_ready infrastructure_only
                    (sample_world inventory_without_password)))
  = inventory (sample_world inventory_without_password).
Proof.
  apply (@inventory_kept_outside_configuration never_ready
           infrastructure_only).
  reflexivity.
Defined.

(** ** The prerequisites *)

Definition succeeded (out : option text) : bool :=
  match out with Some _ => true | None => false end.

(** The command succeeded and its output, stripped, has two words or
    more, so that [version.split()[1]] is there. *)
Definition reports_version (out : option text) : bool :=
  match out with
  | Some stdout => 2 <=? length (split (strip stdout))
  | None => false
  end.

Definition keys_present (env : outside) : bool :=
  key_exists env && pub_key_exists env.

(** What [check_prerequisites] asks of the outside. *)
Definition prerequisites_met (env : outside) : bool :=
  reports_version (run_result env TerraformVersion) &&
  reports_version (run_result env AnsibleVersion) &&
  succeeded (run_result env AwsGetCallerIdentity) &&
  (keys_present env || succeeded (run_result env SshKeygen)).

Lemma second_word_run version w :
  second_word version w
  = if 2 <=? length (split version)
    then (Return (nth 1 (split version) []), w)
    else (Raise IndexError, w).
Proof.
  unfold second_word. destruct (split version) as [|a [|b l]]; reflexivity.
Qed.

Lemma check_prerequisites_result env w :
  fst (check_prerequisites env w)
  = if prerequisites_met env then Return tt else Exit 1.
Proof.
  unfold check_prerequisites, prerequisites_met, reports_version, succeeded,
    keys_present, run_command_output, run_command, command_failed, try_bare,
    second_word.
  destruct (run_result env TerraformVersion) as [t|],
    (run_result env AnsibleVersion) as [a|],
    (run_result env AwsGetCallerIdentity),
    (key_exists env), (pub_key_exists env), (run_result env SshKeygen);
    run;
    repeat match goal with
           | |- context [split (strip ?o)] =>
               destruct (split (strip o)) as [|? [|? ?]]; simpl
           end;
    reflexivity.
Qed.

Lemma check_prerequisites_same_files env :
  preserves same_files (check_prerequisites env).
Proof.
  walk same_files_refl same_files_trans; apply same_files_emit.
Qed.

(** X4.  [check_prerequisites] returns when terraform and ansible each
    answer the version check with two words or more, the identity query
    succeeds and the key pair is there or [ssh-keygen] succeeds;
    otherwise it ends the process with status 1.  It never lets an
    exception through: a version output of one word, on which
    [version.split()[1]] raises [IndexError], counts as a tool that is
    not found.  The inventory and the variables file are as they
    were. *)
Theorem check_prerequisites_outcome env w :
  fst (check_prerequisites env w)
  = (if prerequisites_met env then Return tt else Exit 1) /\
  exit_status (fst (check_prerequisites env w))
  = Some (if prerequisites_met env then 0 else 1)%Z /\
  inventory (snd (check_prerequisites env w)) = inventory w /\
  tfvars (snd (check_prerequisites env w)) = tfvars w.
Proof.
  pose proof (check_prerequisites_result env w) as Hfst.
  split; [exact Hfst|]. split.
  - rewrite Hfst. now destruct (prerequisites_met env).
  - exact (check_prerequisites_same_files env w).
Qed.

(** The commands run through [run_command], in the order they were
    run. *)
Definition commands (evs : list event) : list command :=
  flat_map (fun e => match e with Command c => [c] | _ => [] end) evs.

(** The commands of a list up to the first one that is not [ok], that
    one included. *)
Fixpoint until_failure (ok : command -> bool) (cs : list command)
  : list command :=
  match cs with
  | [] => []
  | c :: cs' => c :: if ok c then until_failure ok cs' else []
  end.

(** The checks, in order; the key pair is generated when a key file is
    missing. *)
Definition checks (env : outside) : list command :=
  [TerraformVersion; AnsibleVersion; AwsGetCallerIdentity] ++
  (if keys_present env then [] else [SshKeygen]).

Definition check_passes (env : outside) (c : command) : bool :=
  match c with
  | TerraformVersion | AnsibleVersion => reports_version (run_result env c)
  | _ => succeeded (run_result env c)
  end.

(** X5.  [check_prerequisites] makes its checks in order and stops at
    the first one that fails: terraform, ansible, the identity query
    and, only when a key file is missing, [ssh-keygen]. *)
Theorem check_prerequisites_stops_at_failure env w :
  exists evs,
    snd (check_prerequisites env w) = extend w evs /\
    commands evs = until_failure (check_passes env) (checks env).
Proof.
  unfold check_prerequisites, checks, run_command_output, run_command,
    command_failed, try_bare, second_word.
  cbn [app until_failure check_passes].
  unfold reports_version, succeeded, keys_present.
  destruct (run_result env TerraformVersion) as [t|],
    (run_result env AnsibleVersion) as [a|],
    (run_result env AwsGetCallerIdentity),
    (key_exists env), (pub_key_exists env), (run_result env SshKeygen);
    run;
    repeat match goal with
           | |- context [split (strip ?o)] =>
               destruct (split (strip o)) as [|? [|? ?]]; simpl
           end;
    tidy; eexists; (split; [reflexivity|]);
    simpl; try reflexivity; destruct (succeeded _); reflexivity.
Qed.

(** *** The version that is reported *)

Definition starts_blank (t : text) : Prop :=
  match t with
  | c :: _ => is_space c = true
  | [] => True
  end.

Lemma take_while_until (p : ascii -> bool) a t :
  forallb p a = true ->
  match t with c :: _ => p c = false | [] => True end ->
  take_while p (a ++ t) = a /\ drop_while p (a ++ t) = t.
Proof.
  intros Ha Ht. rewrite take_while_app, drop_while_app by assumption.
  destruct t as [|c t]; simpl; [now rewrite app_nil_r|].
  rewrite Ht. now rewrite app_nil_r.
Qed.

Lemma split_fuel_word fuel w t :
  solid w -> w <> [] -> starts_blank t ->
  split_fuel (S fuel) (w ++ t) = w :: split_fuel fuel t.
Proof.
  intros Hw Hne Ht. destruct w as [|c w]; [contradiction|].
  pose proof Hw as Hc. apply solid_cons in Hc as [Hc _].
  cbn [split_fuel]. rewrite (drop_while_solid ((c :: w) ++ t)) by exact Hc.
  destruct (@take_while_until (fun c => negb (is_space c)) (c :: w) t Hw)
    as [Htake Hdrop].
  { destruct t; [exact I|]. simpl in *. now rewrite Ht. }
  change ((c :: w) ++ t) with (c :: w ++ t) in *. cbv iota.
  now rewrite Htake, Hdrop.
Qed.

Lemma split_fuel_blank fuel ws t :
  forallb is_space ws = true ->
  split_fuel fuel (ws ++ t) = split_fuel fuel t.
Proof.
  intros Hws. destruct fuel; [reflexivity|]. cbn [split_fuel].
  now rewrite drop_while_app.
Qed.

(** [s.split()] on a text that begins with two words. *)
Lemma split_two_words w1 ws w2 rest :
  solid w1 -> w1 <> [] -> blank ws -> solid w2 -> w2 <> [] ->
  starts_blank rest ->
  exists more, split (w1 ++ ws ++ w2 ++ rest) = w1 :: w2 :: more.
Proof.
  intros Hw1 Hne1 (Hne & Hws) Hw2 Hne2 Hrest. unfold split.
  assert (Hlen : exists fuel,
            length (w1 ++ ws ++ w2 ++ rest) = S (S fuel)).
  { destruct w1; [contradiction|]. destruct w2; [contradiction|].
    rewrite !length_app. simpl. eexists. rewrite <- !plus_n_Sm.
    reflexivity. }
  destruct Hlen as (fuel & ->).
  rewrite split_fuel_word; auto.
  2:{ destruct ws as [|s1 ws]; [contradiction|]. simpl in *.
      now apply andb_true_iff in Hws as [? _]. }
  rewrite split_fuel_blank by exact Hws.
  rewrite split_fuel_word; auto. eexists. reflexivity.
Qed.

(** X6.  The version [check_prerequisites] reports for terraform is the
    second word of what [terraform --version] prints. *)
Theorem terraform_version_reported env w out w1 ws w2 rest :
  run_result env TerraformVersion = Some out ->
  strip out = w1 ++ ws ++ w2 ++ rest ->
  solid w1 -> w1 <> [] -> blank ws -> solid w2 -> w2 <> [] ->
  starts_blank rest ->
  exists evs,
    trace (snd (check_prerequisites env w)) = trace w ++ evs /\
    In (Log SUCCESS [Str "Terraform: "; Val w2]) evs.
Proof.
  intros Hout Hstrip Hw1 Hne1 Hws Hw2 Hne2 Hrest.
  destruct (@split_two_words w1 ws w2 rest Hw1 Hne1 Hws Hw2 Hne2 Hrest)
    as (more & Hsplit).
  unfold check_prerequisites, run_command_output, run_command,
    command_failed, try_bare, second_word.
  rewrite Hout.
  destruct (run_result env AnsibleVersion) as [a|],
    (run_result env AwsGetCallerIdentity),
    (key_exists env), (pub_key_exists env), (run_result env SshKeygen);
    run; rewrite Hstrip, Hsplit; simpl;
    repeat match goal with
           | |- context [split (strip ?o)] =>
               destruct (split (strip o)) as [|? [|? ?]]; simpl
           end;
    tidy; eexists; (split; [rewrite <- ?app_assoc; reflexivity|]);
    simpl; tauto.
Qed.

Lemma terraform_version_reported_witness :
  exists evs,
    trace (snd (check_prerequisites never_ready
                  (sample_world inventory_without_password)))
    = trace (sample_world inventory_without_password) ++ evs /\
    In (Log SUCCESS [Str "Terraform: "; Val (txt "v1.5.7")]) evs.
Proof.
  apply (@terraform_version_reported never_ready _ (txt "Terraform v1.5.7")
           (txt "Terraform") (txt " ") (txt "v1.5.7") []);
    try reflexivity; try discriminate.
  split; [discriminate | reflexivity].
Defined.

(** ** Asking before terraform acts *)

(** [confirm.lower() != 'y'] lets through the answers [y] and [Y] and no
    other. *)
Definition consents (confirm : text) : bool :=
  text_eqb (map lower_char confirm) (txt "y").

Lemma lower_char_y c : lower_char c = "y"%char -> c = "y"%char \/ c = "Y"%char.
Proof.
  destruct c as [[] [] [] [] [] [] [] []]; cbv; intros H;
    first [now left | now right | discriminate].
Qed.

Lemma consents_iff confirm :
  consents confirm = true <-> confirm = txt "y" \/ confirm = txt "Y".
Proof.
  unfold consents, text_eqb. split.
  - destruct (list_eq_dec ascii_dec _ _) as [H|]; [|discriminate].
    intros _. destruct confirm as [|c [|c' confirm]]; try discriminate.
    injection H as H. apply lower_char_y in H as [-> | ->]; auto.
  - intros [-> | ->]; reflexivity.
Qed.

Definition destroy_prompt : string :=
  "Are you sure you want to destroy all infrastructure? (y/N): ".

(** X7.  [terraform destroy] is run exactly when [--force] is given or
    the operator answers [y] or [Y].  Without that the process ends with
    status 0 and no command was run; with it the status is that of the
    command: the function returns when it succeeds and the process ends
    with status 1 when it fails. *)
Theorem destroy_needs_consent env args w :
  exists evs,
    snd (destroy_infrastructure env args w) = extend w evs /\
    (In TerraformDestroy (commands evs) <->
     force args = true \/
     answer env destroy_prompt = txt "y" \/
     answer env destroy_prompt = txt "Y") /\
    (~ In TerraformDestroy (commands evs) ->
     commands evs = [] /\
     fst (destroy_infrastructure env args w) = Exit 0) /\
    (In TerraformDestroy (commands evs) ->
     fst (destroy_infrastructure env args w)
     = if succeeded (run_result env TerraformDestroy)
       then Return tt else Exit 1).
Proof.
  pose proof (consents_iff (answer env destroy_prompt)) as Hconsent.
  unfold destroy_infrastructure, run_command, command_failed, input.
  destruct (force args), (run_result env TerraformDestroy); run;
    try match goal with
        | |- context [text_eqb ?a ?b] =>
            change (text_eqb a b) with (consents (answer env destroy_prompt))
        end;
    destruct (consents (answer env destroy_prompt));
    simpl; tidy; eexists; (split; [reflexivity|]); simpl;
    (split; [|split]); try tauto;
    try (split; [now auto | intros [H|H]; [discriminate | tauto]]);
    try (split; [tauto | intros _; right; now apply Hconsent]);
    try (intros H; exfalso; apply H; now left).
  all: try (split; [tauto|]; intros [H|H]; [discriminate|];
            apply Hconsent in H; discriminate).
Qed.

Arguments render_tfvars : simpl never.

Definition apply_prompt : string := "Do you want to apply this plan? (y/N): ".

Lemma trace_set_tfvars c w : trace (set_tfvars c w) = trace w.
Proof. reflexivity. Qed.

Lemma tfvars_set_tfvars c w : tfvars (set_tfvars c w) = Some c.
Proof. reflexivity. Qed.

Lemma inventory_set_tfvars c w : inventory (set_tfvars c w) = inventory w.
Proof. reflexivity. Qed.

Lemma tfvars_extend w evs : tfvars (extend w evs) = tfvars w.
Proof. reflexivity. Qed.

Lemma tfvars_set_inventory c w : tfvars (set_inventory c w) = tfvars w.
Proof. reflexivity. Qed.

#[global] Hint Rewrite trace_set_tfvars tfvars_set_tfvars inventory_set_tfvars
  tfvars_extend tfvars_set_inventory : world.

(** Runs straight-line code without unfolding the worlds. *)
Ltac go :=
  unfold log, banner, sleep, chdir, emit, bind, ret, raise, sys_exit;
  cbn [fst snd negb andb orb trace tfvars inventory extend set_tfvars
       set_inventory].

(** Applies [fin] when the run has ended: nothing of the computation is
    left to project. *)
Ltac ended fin :=
  lazymatch goal with
  | |- context [snd _] => idtac
  | |- context [fst _] => idtac
  | _ => solve [fin]
  end.

(** Runs [deploy_infrastructure] on every answer of the outside, step by
    step; [fin] closes a run that has ended. *)
Ltac deploy_cases env args w fin :=
  unfold deploy_infrastructure, run_command, run_command_output,
    command_failed, tfvars_exists, read_tfvars_example, write_tfvars, input;
  destruct (run_result env TerraformInit) as [init|] eqn:Hinit;
  go; ended fin;
  destruct (tfvars w) as [present|] eqn:Hpresent;
  go; ended fin;
  destruct (tfvars_example env) as [template|] eqn:Htemplate;
  go; ended fin;
  destruct (force args) eqn:Hforce;
  go; ended fin;
  destruct (run_result env TerraformPlan) as [plan|] eqn:Hplan;
  go; ended fin;
  try match goal with
      | |- context [text_eqb ?a ?b] =>
          change (text_eqb a b) with (consents (answer env apply_prompt))
      end;
  destruct (consents (answer env apply_prompt)) eqn:Hconsent;
  go; ended fin;
  destruct (run_result env TerraformApply) as [applied|] eqn:Happly;
  go; ended fin;
  destruct (run_result env (TerraformOutput "instance_public_ip"))
    as [out_ip|] eqn:Hip;
  go; ended fin;
  destruct (run_result env (TerraformOutput "instance_id"))
    as [out_id|] eqn:Hid;
  go; fin.

(** X8.  [terraform apply] is run exactly when [terraform init] and
    [terraform plan] succeeded, a variables file was there or could be
    made from the template, and [--force] is given or the operator
    answers [y] or [Y] to the plan. *)
Theorem apply_needs_plan_and_consent env args w :
  exists evs,
    trace (snd (deploy_infrastructure env args w)) = trace w ++ evs /\
    (In TerraformApply (commands evs) <->
     run_result env TerraformInit <> None /\
     (tfvars w <> None \/ tfvars_example env <> None) /\
     run_result env TerraformPlan <> None /\
     (force args = true \/
      answer env apply_prompt = txt "y" \/
      answer env apply_prompt = txt "Y")).
Proof.
  pose proof (consents_iff (answer env apply_prompt)) as Hyes.
  deploy_cases env args w
    ltac:(eexists;
          (split; [rewrite <- ?app_assoc; reflexivity|]);
          simpl; split;
          [ intros HIn;
            repeat (destruct HIn as [HIn|HIn]; try discriminate HIn);
            try contradiction;
            repeat split; try discriminate;
            try (left; discriminate); try (right; discriminate);
            try (now left); right; now apply Hyes
          | intros (HA & HB & HC & HD);
            first [ congruence
                  | now auto 10
                  | destruct HB; congruence
                  | destruct HD as [HD|HD];
                    [congruence | apply Hyes in HD; discriminate] ] ]).
Qed.

(** The terraform commands of a deployment. *)
Definition terraform_steps : list command :=
  [TerraformInit; TerraformPlan; TerraformApply;
   TerraformOutput "instance_public_ip"; TerraformOutput "instance_id"].

(** X9.  [deploy_infrastructure] runs the terraform commands in one
    order, init, plan, apply and the two outputs, and stops where one
    fails or the operator declines: the commands of a run are a prefix of
    that list.  When it returns, all five were run and what it returns is
    what the two output commands printed, stripped. *)
Theorem deploy_commands_in_order env args w :
  exists evs later,
    trace (snd (deploy_infrastructure env args w)) = trace w ++ evs /\
    terraform_steps = commands evs ++ later /\
    forall instance_ip instance_id,
      fst (deploy_infrastructure env args w)
      = Return (instance_ip, instance_id) ->
      later = [] /\
      option_map strip
        (run_result env (TerraformOutput "instance_public_ip"))
      = Some instance_ip /\
      option_map strip (run_result env (TerraformOutput "instance_id"))
      = Some instance_id.
Proof.
  deploy_cases env args w
    ltac:(do 2 eexists;
          split; [rewrite <- ?app_assoc; reflexivity|];
          split; [reflexivity|];
          intros instance_ip instance_id Hreturn;
          first [ discriminate Hreturn
                | injection Hreturn as <- <-; rewrite ?Hip, ?Hid;
                  repeat split ]).
Qed.

(** X10.  When the operator does not answer [y] or [Y] to the plan, the
    process ends with status 0: init and plan were run, apply was not. *)
Theorem deploy_declined env args w :
  force args = false ->
  answer env apply_prompt <> txt "y" ->
  answer env apply_prompt <> txt "Y" ->
  run_result env TerraformInit <> None ->
  run_result env TerraformPlan <> None ->
  tfvars w <> None \/ tfvars_example env <> None ->
  exists evs,
    fst (deploy_infrastructure env args w) = Exit 0 /\
    trace (snd (deploy_infrastructure env args w)) = trace w ++ evs /\
    commands evs = [TerraformInit; TerraformPlan] /\
    In (Log WARNING [Str "Deployment cancelled by user"]) evs.
Proof.
  intros Hforce' Hy HY Hinit' Hplan' Hfile.
  pose proof (consents_iff (answer env apply_prompt)) as Hyes.
  deploy_cases env args w
    ltac:(first
            [ congruence
            | now destruct Hfile
            | exfalso; destruct Hyes as [Hyes _];
              destruct (Hyes eq_refl); contradiction
            | eexists; split; [reflexivity|];
              split; [rewrite <- ?app_assoc; reflexivity|];
              split; [reflexivity|]; simpl; tauto ]).
Qed.

(** An operator who says no. *)
Definition declining : outside :=
  {| run_result := sample_run_result (txt "S3cret");
     connect_ex := fun _ => Ok 0%Z;
     playbook_returncode := fun _ => 0%Z;
     answer := fun _ => txt "n";
     tfvars_example := Some sample_template;
     key_exists := true;
     pub_key_exists := true |}.

Definition cautious_arguments (a : action) : arguments :=
  {| act := a;
     environment := txt "staging";
     region := txt "eu-west-1";
     instance_type := txt "t3a.medium";
     elastic_ip := false;
     create_rds := false;
     skip_ansible := false;
     force := false |}.

Lemma deploy_declined_witness :
  exists evs,
    fst (deploy_infrastructure declining (cautious_arguments Deploy)
           (sample_world []))
    = Exit 0 /\
    trace (snd (deploy_infrastructure declining (cautious_arguments Deploy)
                  (sample_world [])))
    = trace (sample_world []) ++ evs /\
    commands evs = [TerraformInit; TerraformPlan] /\
    In (Log WARNING [Str "Deployment cancelled by user"]) evs.
Proof.
  apply (@deploy_declined declining (cautious_arguments Deploy)
           (sample_world []));
    try reflexivity; try discriminate.
  left. discriminate.
Defined.

(** X11.  When there is no variables file and the template cannot be
    read, [deploy_infrastructure] lets the exception of [open] through,
    after [terraform init] and before any other command; no file is
    written. *)
Theorem deploy_without_template env args w :
  run_result env TerraformInit <> None ->
  tfvars w = None ->
  tfvars_example env = None ->
  exists evs,
    deploy_infrastructure env args w
    = (Raise (OSError "FileNotFoundError"), extend w evs) /\
    commands evs = [TerraformInit] /\
    exit_status (fst (deploy_infrastructure env args w)) = Some 1%Z.
Proof.
  intros Hinit Hnone Htemplate.
  unfold deploy_infrastructure, run_command, run_command_output,
    command_failed, tfvars_exists, read_tfvars_example, write_tfvars, input.
  destruct (run_result env TerraformInit); [|contradiction].
  run. rewrite Hnone, Htemplate. run. tidy.
  eexists. split; [reflexivity|]. split; reflexivity.
Qed.

Definition no_template : outside :=
  {| run_result := sample_run_result (txt "S3cret");
     connect_ex := fun _ => Ok 0%Z;
     playbook_returncode := fun _ => 0%Z;
     answer := fun _ => txt "y";
     tfvars_example := None;
     key_exists := true;
     pub_key_exists := true |}.

Definition fresh_world : world :=
  {| tfvars := None; inventory := Some one_host; trace := [] |}.

Lemma deploy_without_template_witness :
  exists evs,
    deploy_infrastructure no_template (sample_arguments Deploy) fresh_world
    = (Raise (OSError "FileNotFoundError"), extend fresh_world evs) /\
    commands evs = [TerraformInit] /\
    exit_status (fst (deploy_infrastructure no_template
                        (sample_arguments Deploy) fresh_world))
    = Some 1%Z.
Proof.
  apply (@deploy_without_template no_template (sample_arguments Deploy)
           fresh_world); try reflexivity.
  discriminate.
Defined.

(** X12.  The variables file after [deploy_infrastructure], however the
    function ends: a file that was there is never rewritten; without one,
    the rendered template is written once [terraform init] has succeeded
    and the template could be read, and it stays written when the plan
    fails or the operator declines; in every other case there is still
    no file. *)
Theorem variables_file_after_deployment env args w :
  tfvars (snd (deploy_infrastructure env args w))
  = match tfvars w, run_result env TerraformInit with
    | Some present, _ => Some present
    | None, Some _ => option_map (render_tfvars args) (tfvars_example env)
    | None, None => None
    end.
Proof.
  deploy_cases env args w
    ltac:(first [ rewrite ?Hpresent; reflexivity
                | destruct (tfvars w); reflexivity ]).
Qed.

(** ** Configuration only *)

(** X13.  In configuration-only mode, with the text [ansible_password:]
    in the inventory, the playbook is run once, with no readiness probe,
    no sleep and no retry, and its return code is not looked at: the run
    ends with status 0 whatever the playbook returns.  The inventory is
    read and not written. *)
Theorem ansible_only_runs_playbook_once env args w w1 content :
  act args = AnsibleOnly ->
  startup env w = (Return tt, w1) ->
  inventory w1 = Some content ->
  contains key_password content = true ->
  exists evs,
    main env args w = (Return tt, extend w1 evs) /\
    exit_status (fst (main env args w)) = Some 0%Z /\
    effects evs
    = [ReadFile Inventory; Chdir "ansible";
       Playbook (playbook_returncode env 0); Chdir ".."].
Proof.
  intros Hact Hstart Hinv Hkey.
  assert (Hmain : exists evs,
            main env args w = (Return tt, extend w1 evs) /\
            effects evs
            = [ReadFile Inventory; Chdir "ansible";
               Playbook (playbook_returncode env 0); Chdir ".."]).
  { rewrite main_ansible_only by assumption.
    unfold bind at 1. rewrite Hstart.
    unfold ansible_only, read_inventory. run. rewrite Hinv. run.
    rewrite Hkey. run. tidy.
    eexists. split; reflexivity. }
  destruct Hmain as (evs & Hmain & Heff). rewrite Hmain.
  exists evs. repeat split; auto.
Qed.

(** A playbook that fails. *)
Definition failing_playbook : outside :=
  sample_outside (txt "S3cret") (Some 1) (fun _ => 2%Z).

Lemma ansible_only_runs_playbook_once_witness :
  exists evs,
    main failing_playbook (sample_arguments AnsibleOnly) (sample_world one_host)
    = (Return tt,
       extend (snd (startup failing_playbook (sample_world one_host))) evs) /\
    exit_status (fst (main failing_playbook (sample_arguments AnsibleOnly)
                        (sample_world one_host)))
    = Some 0%Z /\
    effects evs
    = [ReadFile Inventory; Chdir "ansible"; Playbook 2; Chdir ".."].
Proof.
  apply (@ansible_only_runs_playbook_once failing_playbook
           (sample_arguments AnsibleOnly) (sample_world one_host)
           (snd (startup failing_playbook (sample_world one_host)))
           one_host);
    vm_compute; reflexivity.
Defined.

(** X14.  In configuration-only mode, when the inventory cannot be read,
    the exception of [open] is not caught: the run ends with a traceback,
    status 1, and the playbook is not run. *)
Theorem ansible_only_without_inventory env args w w1 :
  act args = AnsibleOnly ->
  startup env w = (Return tt, w1) ->
  inventory w1 = None ->
  exists evs,
    main env args w = (Raise (OSError "FileNotFoundError"), extend w1 evs) /\
    exit_status (fst (main env args w)) = Some 1%Z /\
    effects evs = [ReadFile Inventory].
Proof.
  intros Hact Hstart Hinv.
  assert (Hmain : exists evs,
            main env args w
            = (Raise (OSError "FileNotFoundError"), extend w1 evs) /\
            effects evs = [ReadFile Inventory]).
  { rewrite main_ansible_only by assumption.
    unfold bind at 1. rewrite Hstart.
    unfold ansible_only, read_inventory. run. rewrite Hinv. run. tidy.
    eexists. split; reflexivity. }
  destruct Hmain as (evs & Hmain & Heff). rewrite Hmain.
  exists evs. repeat split; auto.
Qed.

Definition no_inventory : world :=
  {| tfvars := Some []; inventory := None; trace := [] |}.

Lemma ansible_only_without_inventory_witness :
  exists evs,
    main never_ready (sample_arguments AnsibleOnly) no_inventory
    = (Raise (OSError "FileNotFoundError"),
       extend (snd (startup never_ready no_inventory)) evs) /\
    exit_status (fst (main never_ready (sample_arguments AnsibleOnly)
                        no_inventory))
    = Some 1%Z /\
    effects evs = [ReadFile Inventory].
Proof.
  apply (@ansible_only_without_inventory never_ready
           (sample_arguments AnsibleOnly) no_inventory
           (snd (startup never_ready no_inventory)));
    vm_compute; reflexivity.
Defined.

(** ** Prerequisites that are not met *)

Lemma forallb_weaken {A} (P Q : A -> bool) l :
  (forall a, P a = true -> Q a = true) ->
  forallb P l = true -> forallb Q l = true.
Proof.
  intros HPQ. induction l as [|a l IH]; [reflexivity|]. simpl.
  intros H. apply andb_true_iff in H as [Ha H].
  now rewrite (HPQ _ Ha), IH.
Qed.

Lemma forallb_commands (P : command -> bool) evs :
  forallb (fun e => match e with Command c => P c | _ => true end) evs
  = true ->
  forallb P (commands evs) = true.
Proof.
  induction evs as [|e evs IH]; [reflexivity|]. simpl.
  intros H. apply andb_true_iff in H as [He H].
  unfold commands in *. simpl. rewrite forallb_app, (IH H).
  destruct e; simpl; try reflexivity. now rewrite He.
Qed.

Definition is_check (c : command) : bool :=
  match c with
  | TerraformVersion | AnsibleVersion | AwsGetCallerIdentity | SshKeygen =>
      true
  | _ => false
  end.

(** X15.  When a prerequisite is not met, nothing is deployed, destroyed
    or configured, whatever the action: the process ends with status 1,
    the only commands run are checks, no playbook is run, and the
    inventory and the variables file are as they were. *)
Theorem unmet_prerequisites_stop_the_run env args w :
  prerequisites_met env = false ->
  exists evs,
    main env args w = (Exit 1, extend w evs) /\
    forallb is_check (commands evs) = true /\
    existsb is_playbook evs = false.
Proof.
  intros Hmet.
  pose proof (check_prerequisites_result env
                (extend w [Banner "DC AUTOMATION - TERRAFORM + ANSIBLE DEPLOYMENT"]))
    as Hfst.
  rewrite Hmet in Hfst.
  pose proof (check_prerequisites_same_files env
                (extend w [Banner "DC AUTOMATION - TERRAFORM + ANSIBLE DEPLOYMENT"]))
    as (Hinv & Htf).
  assert (Hadds : preserves
            (adds (fun e => match e with
                            | Command c => is_check c
                            | Playbook _ => false
                            | _ => true
                            end))
            (check_prerequisites env)).
  { walk (@adds_refl (fun e => match e with
                               | Command c => is_check c
                               | Playbook _ => false
                               | _ => true
                               end))
         (@adds_trans (fun e => match e with
                                | Command c => is_check c
                                | Playbook _ => false
                                | _ => true
                                end));
      apply adds_emit; reflexivity. }
  destruct (Hadds (extend w [Banner "DC AUTOMATION - TERRAFORM + ANSIBLE DEPLOYMENT"]))
    as (evs & Htrace & Hall).
  unfold main. unfold bind at 1. unfold banner at 1, emit at 1.
  unfold bind at 1. unfold bind at 1.
  destruct (check_prerequisites env _) as [o w2]. simpl in *. subst o.
  exists (Banner "DC AUTOMATION - TERRAFORM + ANSIBLE DEPLOYMENT" :: evs).
  split.
  - f_equal. destruct w2 as [tf inv tr]. unfold extend. simpl in *.
    subst. now rewrite <- app_assoc.
  - split.
    + apply forallb_commands. simpl.
      eapply forallb_weaken; [|exact Hall]. now intros [].
    + simpl. apply none_of. eapply forallb_weaken; [|exact Hall].
      now intros [].
Qed.

(** An outside without terraform. *)
Definition without_terraform : outside :=
  {| run_result := fun cmd => match cmd with
                              | TerraformVersion => None
                              | _ => sample_run_result (txt "S3cret") cmd
                              end;
     connect_ex := fun _ => Ok 0%Z;
     playbook_returncode := fun _ => 0%Z;
     answer := fun _ => txt "y";
     tfvars_example := Some sample_template;
     key_exists := true;
     pub_key_exists := true |}.

Lemma unmet_prerequisites_stop_the_run_witness :
  exists evs,
    main without_terraform (sample_arguments Deploy) fresh_world
    = (Exit 1, extend fresh_world evs) /\
    forallb is_check (commands evs) = true /\
    existsb is_playbook evs = false.
Proof.
  apply (@unmet_prerequisites_stop_the_run without_terraform
           (sample_arguments Deploy) fresh_world).
  reflexivity.
Defined.

(** ** The retry controller, exactly *)

Definition invocations (env : outside) (n : nat) : list event :=
  map (fun attempt => Playbook (playbook_returncode env attempt)) (seq 0 n).

Lemma retry_loop_exact env max_retries fuel :
  forall retry_count w,
    S max_retries <= fuel + retry_count ->
    retry_count <= max_retries ->
    exists st evs,
      while fuel (playbook_pending max_retries)
            (playbook_attempt env max_retries) (retry_count, false) w
      = (Return st, extend w evs) /\
      ((exists k,
          retry_count <= k <= max_retries /\
          playbook_returncode env k = 0%Z /\
          (forall j, retry_count <= j < k ->
                     playbook_returncode env j <> 0%Z) /\
          st = (k, true) /\
          filter is_playbook evs
          = map (fun attempt => Playbook (playbook_returncode env attempt))
                (seq retry_count (S k - retry_count))) \/
       ((forall j, retry_count <= j <= max_retries ->
                   playbook_returncode env j <> 0%Z) /\
        st = (S max_retries, false) /\
        filter is_playbook evs
        = map (fun attempt => Playbook (playbook_returncode env attempt))
              (seq retry_count (S max_retries - retry_count)))).
Proof.
  induction fuel as [|fuel IH]; intros retry_count w Hfuel Hle.
  - simpl in Hfuel. lia.
  - destruct (playbook_attempt_run env max_retries retry_count w)
      as (evs1 & Hbody & _ & Hcount & _).
    set (rc := playbook_returncode env retry_count) in *.
    assert (Hstep :
      while (S fuel) (playbook_pending max_retries)
            (playbook_attempt env max_retries) (retry_count, false) w
      = while fuel (playbook_pending max_retries)
              (playbook_attempt env max_retries)
              (if (rc =? 0)%Z then (retry_count, true)
               else (S retry_count, false))
              (extend w evs1)).
    { rewrite while_unfold.
      replace (playbook_pending max_retries (retry_count, false)) with true
        by (rewrite playbook_pending_eq, andb_true_r; symmetry;
            now apply Nat.leb_le).
      cbv iota. erewrite bind_return; [reflexivity | exact Hbody]. }
    rewrite Hstep. clear Hstep Hbody.
    destruct (Z.eqb_spec rc 0) as [Hrc|Hrc].
    + exists (retry_count, true), evs1.
      rewrite while_done
        by (rewrite playbook_pending_eq; apply andb_false_r).
      split; [reflexivity|]. left. exists retry_count.
      split; [lia|]. split; [exact Hrc|]. split; [intros j Hj; lia|].
      split; [reflexivity|].
      replace (S retry_count - retry_count) with 1 by lia.
      rewrite Hcount. reflexivity.
    + destruct (Nat.leb_spec (S retry_count) max_retries) as [Hnext|Hlast].
      * destruct (IH (S retry_count) (extend w evs1))
          as (st & evs & Hw & Hcases); [lia | lia |].
        exists st, (evs1 ++ evs). rewrite Hw, extend_extend.
        split; [reflexivity|].
        rewrite filter_app, Hcount.
        destruct Hcases as [(k & Hk & Hzero & Hbefore & Hst & Hevs)
                           | (Hall & Hst & Hevs)].
        -- left. exists k. split; [lia|]. split; [exact Hzero|].
           split.
           { intros j Hj. destruct (Nat.eq_dec j retry_count) as [->|Hne];
               [exact Hrc | apply Hbefore; lia]. }
           split; [exact Hst|]. rewrite Hevs.
           replace (S k - retry_count) with (S (S k - S retry_count))
             by lia.
           reflexivity.
        -- right. split.
           { intros j Hj. destruct (Nat.eq_dec j retry_count) as [->|Hne];
               [exact Hrc | apply Hall; lia]. }
           split; [exact Hst|]. rewrite Hevs.
           replace (S max_retries - retry_count)
             with (S (S max_retries - S retry_count)) by lia.
           reflexivity.
      * exists (S retry_count, false), evs1.
        rewrite while_done
          by (rewrite playbook_pending_eq, andb_true_r;
              apply Nat.leb_gt; lia).
        split; [reflexivity|]. right.
        assert (retry_count = max_retries) as -> by lia.
        split; [intros j Hj; assert (j = max_retries) as -> by lia;
                exact Hrc|].
        split; [reflexivity|].
        replace (S max_retries - max_retries) with 1 by lia.
        rewrite Hcount. reflexivity.
Qed.

(** X16.  The retry controller stops at the first invocation that
    returns 0: when that is invocation [k] (counted from 0), with
    [k <= max_retries], the playbook was invoked [k + 1] times, in order,
    and the controller reports success. *)
Theorem retry_stops_at_first_success env max_retries k w :
  k <= max_retries ->
  playbook_returncode env k = 0%Z ->
  (forall j, j < k -> playbook_returncode env j <> 0%Z) ->
  exists evs,
    run_playbook_with_retries env max_retries w
    = (Return (k, true), extend w evs) /\
    filter is_playbook evs = invocations env (S k).
Proof.
  intros Hk Hzero Hbefore.
  destruct (@retry_loop_exact env max_retries (S max_retries) 0 w)
    as (st & evs & Hrun & Hcases); [lia | lia |].
  exists evs. unfold run_playbook_with_retries. rewrite Hrun.
  destruct Hcases as [(k' & Hk' & Hzero' & Hbefore' & -> & Hevs)
                     | (Hall & _)].
  - assert (k' = k) as ->.
    { destruct (Nat.lt_trichotomy k' k) as [Hlt | [Heq | Hgt]]; auto.
      - now apply Hbefore in Hlt.
      - exfalso. apply (Hbefore' k); [lia | exact Hzero]. }
    split; [reflexivity|]. rewrite Hevs. unfold invocations.
    now rewrite Nat.sub_0_r.
  - exfalso. apply (Hall k); [lia | exact Hzero].
Qed.

(** X17.  When no invocation among the first [max_retries + 1] returns
    0, the controller invokes the playbook exactly [max_retries + 1]
    times and reports failure. *)
Theorem retry_exhausted env max_retries w :
  (forall j, j <= max_retries -> playbook_returncode env j <> 0%Z) ->
  exists evs,
    run_playbook_with_retries env max_retries w
    = (Return (S max_retries, false), extend w evs) /\
    filter is_playbook evs = invocations env (S max_retries).
Proof.
  intros Hall.
  destruct (@retry_loop_exact env max_retries (S max_retries) 0 w)
    as (st & evs & Hrun & Hcases); [lia | lia |].
  exists evs. unfold run_playbook_with_retries. rewrite Hrun.
  destruct Hcases as [(k' & Hk' & Hzero' & _) | (_ & -> & Hevs)].
  - exfalso. apply (Hall k'); [lia | exact Hzero'].
  - split; [reflexivity|]. rewrite Hevs. unfold invocations.
    now rewrite Nat.sub_0_r.
Qed.

(** The second invocation succeeds. *)
Definition second_time : outside :=
  sample_outside (txt "S3cret") (Some 1)
    (fun attempt => if attempt =? 1 then 0%Z else 2%Z).

Lemma retry_stops_at_first_success_witness :
  exists evs,
    run_playbook_with_retries second_time 2 (sample_world one_host)
    = (Return (1, true), extend (sample_world one_host) evs) /\
    filter is_playbook evs = invocations second_time 2.
Proof.
  apply (@retry_stops_at_first_success second_time 2 1
           (sample_world one_host)); [lia | reflexivity |].
  intros j Hj. assert (j = 0) as -> by lia. discriminate.
Defined.

Lemma retry_exhausted_witness :
  exists evs,
    run_playbook_with_retries failing_playbook 2 (sample_world one_host)
    = (Return (3, false), extend (sample_world one_host) evs) /\
    filter is_playbook evs = invocations failing_playbook 3.
Proof.
  apply (@retry_exhausted failing_playbook 2 (sample_world one_host)).
  intros j Hj. discriminate.
Defined.

(** ** The configuration phase, path by path *)

Definition phase2 : event := Banner "PHASE 2: WAITING FOR INSTANCE TO BE READY".

(** A host that accepts a connection within the attempts is found
    ready. *)
Lemma prober_ready env ip port max_attempts w :
  (exists k, 1 <= k <= max_attempts /\ accepted env k = true) ->
  exists evs,
    test_winrm_connectivity env ip port max_attempts w
    = (Return true, extend w evs) /\
    secret_free evs /\
    existsb configures evs = false.
Proof.
  intros (k & Hk & Hacc).
  destruct (prober_run env ip port max_attempts w)
    as (ready & evs & n & Hrun & Heff & _ & _ & _ & Hno & Hfree).
  destruct ready.
  - exists evs. split; [exact Hrun|]. split; [exact Hfree|].
    now apply (@prober_configures_nothing ip port n).
  - destruct (Hno eq_refl) as [_ Hall].
    rewrite (Hall k Hk) in Hacc. discriminate.
Qed.

(** Runs [configure_with_ansible] up to the command that retrieves the
    password, on a host that is ready. *)
Ltac configure_ready Hready evs0 Hrun Hfree0 Hnone0 :=
  match goal with
  | |- context [configure_with_ansible ?env ?ip ?id ?args ?w] =>
      destruct (@prober_ready env ip 5985 20 (extend w [phase2]) Hready)
        as (evs0 & Hrun & Hfree0 & Hnone0)
  end;
  unfold phase2 in Hrun;
  unfold configure_with_ansible;
  unfold banner at 1, emit at 1; unfold bind at 1;
  unfold bind at 1; rewrite Hrun; cbn [negb]; cbv iota;
  unfold try_except, run_command_output.

(** X18.  A password command that fails ends the process with status 1:
    [run_command] leaves through [sys.exit], which the handler of the
    phase does not catch.  The inventory is not written and the playbook
    is not run. *)
Theorem password_command_failure_is_fatal env ip id args w :
  (exists k, 1 <= k <= 20 /\ accepted env k = true) ->
  run_result env (Ec2GetPasswordData id (region args)) = None ->
  exists evs,
    configure_with_ansible env ip id args w = (Exit 1, extend w evs) /\
    existsb configures evs = false /\
    In (Log ERROR [Str "Command failed: ";
                   Exc (CalledProcessError
                          (Ec2GetPasswordData id (region args)))]) evs.
Proof.
  intros Hready Hraw.
  configure_ready Hready evs0 Hrun Hfree0 Hnone0.
  rewrite Hraw. unfold command_failed. run. tidy.
  eexists. split; [reflexivity|]. split.
  - simpl. rewrite existsb_app, Hnone0. reflexivity.
  - right. apply in_or_app. right. simpl. tauto.
Qed.

(** X19.  An edit that fails is not fatal: when the inventory cannot be
    read or [re] refuses a template, the phase logs the exception and
    returns; the inventory is not written and the playbook is not run. *)
Theorem edit_failure_is_not_fatal env ip id args w raw e :
  (exists k, 1 <= k <= 20 /\ accepted env k = true) ->
  run_result env (Ec2GetPasswordData id (region args)) = Some raw ->
  strip raw <> [] ->
  edit_failed ip (strip raw) w e ->
  exists before,
    configure_with_ansible env ip id args w
    = (Return tt, extend w (before ++ [Log ERROR (failure_report e)])) /\
    existsb configures before = false.
Proof.
  intros Hready Hraw Hne Hfailed.
  configure_ready Hready evs0 Hrun Hfree0 Hnone0.
  rewrite Hraw. destruct (strip raw) as [|p password]; [contradiction|].
  unfold read_inventory. run. tidy.
  destruct Hfailed as [(Hinv & ->) | (c & Hinv & Hup)]; rewrite Hinv.
  - run. tidy.
    match goal with
    | |- exists before,
           (_, extend _ (?b :: (evs0 ++ ?a) ++ _)) = _ /\ _ =>
        exists (b :: evs0 ++ a)
    end.
    split; [reflexivity|].
    simpl. now rewrite existsb_app, Hnone0.
  - rewrite Hup. run. tidy.
    match goal with
    | |- exists before,
           (_, extend _ (?b :: (evs0 ++ ?a) ++ _)) = _ /\ _ =>
        exists (b :: evs0 ++ a)
    end.
    split; [reflexivity|].
    simpl. now rewrite existsb_app, Hnone0.
Qed.

Lemma retry_shape_events l :
  retry_shape l ->
  existsb is_inventory_write l = false /\ existsb is_playbook l = true.
Proof. induction 1; simpl; tauto. Qed.

Lemma inventory_write_effect e :
  is_inventory_write e = true -> is_effect e = true.
Proof. now destruct e. Qed.

Lemma playbook_effect e : is_playbook e = true -> is_effect e = true.
Proof. now destruct e. Qed.

(** X20.  On the path that configures, the inventory is written once,
    with the edited text, before the playbook is first run; before that
    the inventory is not written and the playbook is not run; the phase
    returns whatever the playbook does. *)
Theorem inventory_written_before_playbook env ip id args w raw c c' :
  (exists k, 1 <= k <= 20 /\ accepted env k = true) ->
  run_result env (Ec2GetPasswordData id (region args)) = Some raw ->
  strip raw <> [] ->
  inventory w = Some c ->
  update_inventory ip (strip raw) c = Ok c' ->
  exists before after,
    fst (configure_with_ansible env ip id args w) = Return tt /\
    trace (snd (configure_with_ansible env ip id args w))
    = trace w ++ before ++ WriteFile Inventory c' :: after /\
    existsb configures before = false /\
    existsb is_inventory_write after = false /\
    existsb is_playbook after = true /\
    inventory (snd (configure_with_ansible env ip id args w)) = Some c'.
Proof.
  intros Hready Hraw Hne Hinv Hup.
  destruct (configure_with_ansible env ip id args w) as [o w'] eqn:Hconf.
  revert Hconf.
  configure_ready Hready evs0 Hrun Hfree0 Hnone0.
  rewrite Hraw. destruct (strip raw) as [|p password]; [contradiction|].
  unfold read_inventory. run. tidy. rewrite Hinv. rewrite Hup.
  unfold write_inventory. run. tidy.
  match goal with
  | |- context [run_playbook_with_retries env 2 ?W] =>
      destruct (retry_loop_run env 2 W) as (st & evsL & HL & Hshape & _ & _)
  end.
  rewrite HL.
  apply retry_shape_events in Hshape as [Hnowrite Hplay].
  rewrite <- (existsb_effects is_inventory_write evsL inventory_write_effect)
    in Hnowrite.
  rewrite <- (existsb_effects is_playbook evsL playbook_effect) in Hplay.
  destruct (snd st); run; tidy; intros [= <- <-];
    match goal with
    | |- context [extend (set_inventory c' (extend w ?b))
                         (WriteFile Inventory c' :: ?t)] =>
        exists b, t
    end;
    (split; [reflexivity|]);
    (split; [cbn [trace extend set_inventory];
             rewrite <- app_assoc; reflexivity|]);
    (split; [simpl; now rewrite existsb_app, Hnone0|]);
    (split; [simpl; rewrite !existsb_app, Hnowrite; reflexivity|]);
    (split; [simpl; rewrite !existsb_app, Hplay; reflexivity|]);
    reflexivity.
Qed.

Lemma filter_playbook_none evs :
  existsb configures evs = false -> filter is_playbook evs = [].
Proof.
  induction evs as [|e evs IH]; [reflexivity|]. simpl.
  intros H. apply orb_false_iff in H as [He H].
  unfold configures in He. apply orb_false_iff in He as [_ He].
  now rewrite He, IH.
Qed.

(** X21.  When the playbook fails on all three invocations, the phase
    logs that it failed after 3 attempts and goes on as after a success:
    it prints the banner [DEPLOYMENT COMPLETED SUCCESSFULLY!] and the
    summary with the password, and returns. *)
Theorem completion_reported_after_failed_playbook
    env ip id args w raw c c' :
  (exists k, 1 <= k <= 20 /\ accepted env k = true) ->
  run_result env (Ec2GetPasswordData id (region args)) = Some raw ->
  strip raw <> [] ->
  inventory w = Some c ->
  update_inventory ip (strip raw) c = Ok c' ->
  (forall j, j <= 2 -> playbook_returncode env j <> 0%Z) ->
  exists before,
    fst (configure_with_ansible env ip id args w) = Return tt /\
    trace (snd (configure_with_ansible env ip id args w))
    = trace w ++ before ++
      [Chdir ".."; Log ERROR [Str ""];
       Log ERROR [Str "Ansible playbook failed after "; Num 3;
                  Str " attempts"];
       Banner "DEPLOYMENT COMPLETED SUCCESSFULLY!";
       Log INFO [Str "RDP: "; Val ip; Str ":3389"];
       Log INFO [Str "IIS: http://"; Val ip];
       Log INFO (password_summary (strip raw))] /\
    filter is_playbook before = invocations env 3.
Proof.
  intros Hready Hraw Hne Hinv Hup Hfail.
  destruct (configure_with_ansible env ip id args w) as [o w'] eqn:Hconf.
  revert Hconf.
  configure_ready Hready evs0 Hrun Hfree0 Hnone0.
  rewrite Hraw. destruct (strip raw) as [|p password]; [contradiction|].
  unfold read_inventory. run. tidy. rewrite Hinv. rewrite Hup.
  unfold write_inventory. run. tidy.
  match goal with
  | |- context [run_playbook_with_retries env 2 ?W] =>
      destruct (@retry_loop_exact env 2 3 0 W)
        as (st & evsL & HL & Hcases); [lia | lia |]
  end.
  unfold run_playbook_with_retries. rewrite HL.
  destruct Hcases as [(k & Hk & Hzero & _) | (_ & -> & HevsL)].
  { exfalso. apply (Hfail k); [lia | exact Hzero]. }
  run. tidy. intros [= <- <-].
  match goal with
  | |- context [extend (set_inventory c' (extend w ?b)) ?m] =>
      exists (b ++ firstn 10 m ++ evsL)
  end.
  split; [reflexivity|]. split.
  - cbn [trace extend set_inventory firstn].
    rewrite <- !app_assoc. reflexivity.
  - cbn [firstn]. rewrite filter_app. simpl.
    rewrite filter_app, (filter_playbook_none _ Hnone0). simpl.
    exact HevsL.
Qed.

(** *** Concrete runs of the phase *)

Definition password_command_fails : outside :=
  {| run_result := fun cmd => match cmd with
                              | Ec2GetPasswordData _ _ => None
                              | _ => sample_run_result [] cmd
                              end;
     connect_ex := fun _ => Ok 0%Z;
     playbook_returncode := fun _ => 0%Z;
     answer := fun _ => txt "y";
     tfvars_example := Some sample_template;
     key_exists := true;
     pub_key_exists := true |}.

Lemma password_command_failure_is_fatal_witness :
  exists evs,
    configure_with_ansible password_command_fails (txt "203.0.113.5")
      (txt "i-0abc") (sample_arguments Deploy) (sample_world one_host)
    = (Exit 1, extend (sample_world one_host) evs) /\
    existsb configures evs = false /\
    In (Log ERROR [Str "Command failed: ";
                   Exc (CalledProcessError
                          (Ec2GetPasswordData (txt "i-0abc")
                             (region (sample_arguments Deploy))))]) evs.
Proof.
  apply (@password_command_failure_is_fatal password_command_fails).
  - exists 1. split; [lia | reflexivity].
  - reflexivity.
Defined.

Lemma edit_failure_is_not_fatal_witness :
  exists before,
    configure_with_ansible escape_secret (txt "203.0.113.5") (txt "i-0abc")
      (sample_arguments Deploy) (sample_world one_host)
    = (Return tt,
       extend (sample_world one_host)
         (before ++ [Log ERROR (failure_report (ReError (BadEscape "q")))]))
    /\ existsb configures before = false.
Proof.
  apply (@edit_failure_is_not_fatal escape_secret (txt "203.0.113.5")
           (txt "i-0abc") (sample_arguments Deploy) (sample_world one_host)
           (txt "\q")).
  - exists 1. split; [lia | reflexivity].
  - reflexivity.
  - vm_compute. discriminate.
  - right. exists one_host. split; vm_compute; reflexivity.
Defined.

Definition one_host_edited : text :=
  text_of (update_inventory (txt "203.0.113.5") (txt "S3cret") one_host).

Lemma inventory_written_before_playbook_witness :
  exists before after,
    fst (configure_with_ansible second_time (txt "203.0.113.5")
           (txt "i-0abc") (sample_arguments Deploy) (sample_world one_host))
    = Return tt /\
    trace (snd (configure_with_ansible second_time (txt "203.0.113.5")
                  (txt "i-0abc") (sample_arguments Deploy)
                  (sample_world one_host)))
    = trace (sample_world one_host) ++
      before ++ WriteFile Inventory one_host_edited :: after /\
    existsb configures before = false /\
    existsb is_inventory_write after = false /\
    existsb is_playbook after = true /\
    inventory (snd (configure_with_ansible second_time (txt "203.0.113.5")
                      (txt "i-0abc") (sample_arguments Deploy)
                      (sample_world one_host)))
    = Some one_host_edited.
Proof.
  apply (@inventory_written_before_playbook second_time (txt "203.0.113.5")
           (txt "i-0abc") (sample_arguments Deploy) (sample_world one_host)
           (txt "S3cret") one_host one_host_edited).
  - exists 1. split; [lia | reflexivity].
  - reflexivity.
  - vm_compute. discriminate.
  - reflexivity.
  - vm_compute. reflexivity.
Defined.

Lemma completion_reported_after_failed_playbook_witness :
  exists before,
    fst (configure_with_ansible failing_playbook (txt "203.0.113.5")
           (txt "i-0abc") (sample_arguments Deploy) (sample_world one_host))
    = Return tt /\
    trace (snd (configure_with_ansible failing_playbook (txt "203.0.113.5")
                  (txt "i-0abc") (sample_arguments Deploy)
                  (sample_world one_host)))
    = trace (sample_world one_host) ++ before ++
      [Chdir ".."; Log ERROR [Str ""];
       Log ERROR [Str "Ansible playbook failed after "; Num 3;
                  Str " attempts"];
       Banner "DEPLOYMENT COMPLETED SUCCESSFULLY!";
       Log INFO [Str "RDP: "; Val (txt "203.0.113.5"); Str ":3389"];
       Log INFO [Str "IIS: http://"; Val (txt "203.0.113.5")];
       Log INFO (password_summary (strip (txt "S3cret")))] /\
    filter is_playbook before = invocations failing_playbook 3.
Proof.
  apply (@completion_reported_after_failed_playbook failing_playbook
           (txt "203.0.113.5") (txt "i-0abc") (sample_arguments Deploy)
           (sample_world one_host) (txt "S3cret") one_host one_host_edited).
  - exists 1. split; [lia | reflexivity].
  - reflexivity.
  - vm_compute. discriminate.
  - reflexivity.
  - vm_compute. reflexivity.
  - intros j Hj. discriminate.
Defined.

(** ** The variables template, at its edges *)

(** Replacing a text by itself changes nothing. *)
Lemma replace_same old s : old <> [] -> replace old old s = s.
Proof.
  intros Hold. remember (length s) as n eqn:Hn. revert s Hn.
  induction n as [n IH] using lt_wf_ind. intros s Hn.
  destruct s as [|c s]; [now apply replace_nil|].
  rewrite replace_cons by assumption.
  destruct (strip_prefix old (c :: s)) as [rest|] eqn:Hp.
  - pose proof (strip_prefix_shorter Hold _ _ Hp) as Hlen.
    apply strip_prefix_app in Hp. rewrite Hp. f_equal.
    apply (IH (length rest)); [subst n; simpl; lia | reflexivity].
  - f_equal. apply (IH (length s)); [subst n; simpl; lia | reflexivity].
Qed.

(** X22.  For a request with the default values, those of a command
    line without options, the five [replace] calls return the text of
    the template as it is, whatever the template holds. *)
Theorem default_request_copies_template args template :
  environment args = txt "dev" ->
  region args = txt "us-east-1" ->
  instance_type args = txt "t3a.medium" ->
  elastic_ip args = false ->
  create_rds args = false ->
  render_tfvars args template = template.
Proof.
  intros Henv Hregion Htype Heip Hrds. unfold render_tfvars. cbv zeta.
  rewrite Henv, Hregion, Htype, Heip, Hrds. cbn [bool_lower].
  repeat match goal with
         | |- context [replace ?old ?old ?s] =>
             rewrite (@replace_same old s) by discriminate
         end.
  reflexivity.
Qed.

Definition default_arguments : arguments :=
  {| act := Deploy;
     environment := txt "dev";
     region := txt "us-east-1";
     instance_type := txt "t3a.medium";
     elastic_ip := false;
     create_rds := false;
     skip_ansible := false;
     force := false |}.

Lemma default_request_copies_template_witness :
  render_tfvars default_arguments sample_template = sample_template.
Proof.
  apply (@default_request_copies_template default_arguments sample_template);
    reflexivity.
Defined.

(** X23.  When none of the five default assignments occurs in the
    template, as in a template whose defaults were edited, the request is
    not applied at all: the variables file is the template, whatever was
    asked for. *)
Theorem edited_template_ignores_request args template :
  carries_no_default template = true ->
  render_tfvars args template = template.
Proof.
  unfold carries_no_default, defaults. cbn [forallb].
  rewrite !andb_true_iff, !negb_true_iff.
  intros (H1 & H2 & H3 & H4 & H5 & _).
  unfold render_tfvars. cbv zeta.
  repeat match goal with
         | H : contains ?old template = false
           |- context [replace ?old ?new template] =>
             rewrite (@replace_absent old new ltac:(discriminate) template H)
         end.
  reflexivity.
Qed.

(** A template whose defaults were changed by hand. *)
Definition edited_template : text :=
  quoted_assignment "aws_region" (txt "eu-central-1") ++ newline ::
  quoted_assignment "environment" (txt "prod") ++ newline ::
  quoted_assignment "instance_type" (txt "t3.large") ++ newline ::
  plain_assignment "use_elastic_ip" (txt "true") ++ newline ::
  plain_assignment "create_rds" (txt "true") ++ [newline].

Lemma edited_template_ignores_request_witness :
  render_tfvars (sample_arguments Deploy) edited_template = edited_template.
Proof.
  apply (@edited_template_ignores_request (sample_arguments Deploy)).
  vm_compute; reflexivity.
Defined.

(** ** What the inventory edit leaves alone, and what it leaves behind *)

Lemma contains_here key rest : contains key (key ++ rest) = true.
Proof.
  assert (H : starts_with key (key ++ rest) = true).
  { unfold starts_with. now rewrite strip_prefix_same. }
  revert H. generalize (key ++ rest). intros s H.
  destruct s; cbn [contains]; now rewrite H.
Qed.

Lemma contains_inside key a rest : contains key (a ++ key ++ rest) = true.
Proof.
  induction a as [|c a IH]; [exact (contains_here key rest)|].
  change ((c :: a) ++ key ++ rest) with (c :: a ++ key ++ rest).
  cbn [contains]. rewrite IH. apply orb_true_r.
Qed.

Section Untouched.

Variable key : text.
Variable value : text -> option (text * text).
Variable p : Re.pattern.
Variable repl : text -> text -> text.

Hypothesis pattern_field :
  forall bol s, Re.match_at p bol s = match_field key value bol s.
Hypothesis value_splits :
  forall s v rest, value s = Some (v, rest) -> s = v ++ rest.

(** A field is found only in a text that holds its key. *)
Lemma match_field_contains b s g v rest :
  match_field key value b s = Some (g, v, rest) -> contains key s = true.
Proof.
  intros Hm.
  destruct (@match_field_parts key value value_splits _ _ _ _ _ Hm)
    as (_ & ws1 & ws2 & -> & _ & _ & -> & _).
  rewrite <- !app_assoc. apply contains_inside.
Qed.

(** The scan copies a text in which no field is found, whatever the
    replacement. *)
Lemma scan_unmatched (unmatched : text -> Prop) :
  (forall c s, unmatched (c :: s) -> unmatched s) ->
  (forall b s, unmatched s -> match_field key value b s = None) ->
  forall s b, unmatched s -> scan p repl b s = s.
Proof.
  intros Htail Hnone. induction s as [|c s IH]; intros b Hs.
  - apply (scan_nil key value p repl pattern_field).
  - rewrite (scan_skip key value p repl pattern_field _ _ _ (Hnone b _ Hs)).
    f_equal. apply IH. exact (Htail _ _ Hs).
Qed.

Lemma scan_without_key s b : contains key s = false -> scan p repl b s = s.
Proof.
  apply (@scan_unmatched (fun s => contains key s = false)).
  - intros c t H. simpl in H. now apply orb_false_iff in H as [_ H].
  - intros b' t H.
    destruct (match_field key value b' t) as [[[g v] rest]|] eqn:Hm;
      [|reflexivity].
    apply match_field_contains in Hm. congruence.
Qed.

End Untouched.

(** No password field is found in a text without double quote. *)
Lemma match_field_password_quote b s :
  no_dquote s -> match_field key_password value_password b s = None.
Proof.
  intros Hs.
  destruct (match_field key_password value_password b s)
    as [[[g v] rest]|] eqn:Hm; [exfalso|reflexivity].
  destruct (@match_field_parts _ _ value_password_splits _ _ _ _ _ Hm)
    as (_ & ws1 & ws2 & -> & _ & _ & Hsplit & Hk).
  destruct (@match_key_parts _ _ value_password_splits _ _ _ _ Hk)
    as (_ & _ & _ & _ & Hv & _).
  destruct (value_password_is_value _ Hv) as (body & -> & _).
  rewrite Hsplit in Hs. rewrite !no_dquote_app in Hs.
  destruct Hs as (_ & Hq & _). discriminate.
Qed.

Lemma scan_without_quote repl s b :
  no_dquote s -> scan password_pattern repl b s = s.
Proof.
  apply (@scan_unmatched key_password value_password password_pattern repl
           match_at_password no_dquote).
  - intros c t H. unfold no_dquote in *. simpl in H.
    now apply andb_true_iff in H as [_ H].
  - intros b' t. apply match_field_password_quote.
Qed.

(** [re.sub] is a scan with the replacement its template stands for. *)
Lemma sub_scan p template s out :
  Re.sub p template s = Ok out ->
  exists repl, out = scan p repl true s.
Proof.
  unfold Re.sub. destruct (Re.parse_template 1 template) as [items|e];
    [|discriminate].
  intros [= <-]. eexists. apply sub_with_scan.
Qed.

(** X24.  An inventory that holds neither [ansible_host:] nor
    [ansible_password:] comes out of the edit as it went in, whatever
    the address and the password are: the edit adds no field. *)
Theorem inventory_without_fields_unchanged instance_ip password content edited :
  contains key_host content = false ->
  contains key_password content = false ->
  update_inventory instance_ip password content = Ok edited ->
  edited = content.
Proof.
  intros Hhost Hpassword. unfold update_inventory.
  destruct (Re.sub host_pattern _ content) as [content1|e] eqn:H1;
    [|discriminate].
  intros H2.
  destruct (sub_scan _ _ _ H1) as (repl1 & ->).
  destruct (sub_scan _ _ _ H2) as (repl2 & ->).
  rewrite (@scan_without_key key_host value_host host_pattern repl1
             match_at_host value_host_splits) by assumption.
  now rewrite (@scan_without_key key_password value_password
                 password_pattern repl2 match_at_password
                 value_password_splits).
Qed.

Definition inventory_without_fields : text :=
  txt "all:" ++ newline ::
  txt "  hosts:" ++ newline ::
  txt "    dc01:" ++ [newline].

Lemma inventory_without_fields_unchanged_witness :
  exists edited,
    update_inventory (txt "10.0.0.5") (txt "S3cret") inventory_without_fields
    = Ok edited /\
    edited = inventory_without_fields.
Proof.
  eexists. split; [vm_compute; reflexivity|].
  apply (@inventory_without_fields_unchanged (txt "10.0.0.5") (txt "S3cret"));
    vm_compute; reflexivity.
Defined.

(** X25.  The password is written only over a value between double
    quotes.  In an inventory without double quote (a password field
    with a bare or single-quoted value, or none) the edit changes the
    host fields and nothing else, and the edited inventory holds no
    double quote either: the password is not in it. *)
Theorem unquoted_password_not_replaced instance_ip password content edited :
  host_value instance_ip ->
  no_dquote content ->
  update_inventory instance_ip password content = Ok edited ->
  edited = host_scan instance_ip true content /\ no_dquote edited.
Proof.
  intros Hip Hfree. unfold update_inventory, host_template.
  rewrite sub_literal by now apply host_value_no_backslash.
  rewrite sub_with_scan. fold (host_scan instance_ip).
  intros H2. destruct (sub_scan _ _ _ H2) as (repl2 & ->).
  assert (Hfree1 : no_dquote (host_scan instance_ip true content)).
  { now apply (@H_no_dquote instance_ip Hip (length content)). }
  rewrite scan_without_quote by assumption. now split.
Qed.

Definition inventory_bare_password : text :=
  txt "all:" ++ newline ::
  txt "  hosts:" ++ newline ::
  txt "    dc01:" ++ newline ::
  txt "      ansible_host: 10.0.0.1" ++ newline ::
  txt "      ansible_password: changeme" ++ [newline].

Lemma unquoted_password_not_replaced_witness :
  exists edited,
    update_inventory (txt "10.0.0.5") (txt "S3cret") inventory_bare_password
    = Ok edited /\
    edited = host_scan (txt "10.0.0.5") true inventory_bare_password /\
    no_dquote edited /\
    edited = txt "all:" ++ newline ::
             txt "  hosts:" ++ newline ::
             txt "    dc01:" ++ newline ::
             txt "      ansible_host: 10.0.0.5" ++ newline ::
             txt "      ansible_password: changeme" ++ [newline].
Proof.
  eexists. split; [vm_compute; reflexivity|].
  destruct (@unquoted_password_not_replaced
              (txt "10.0.0.5") (txt "S3cret") inventory_bare_password _
              (conj (fun H => nil_cons (eq_sym H)) eq_refl) eq_refl eq_refl)
    as [Hhost Hfree].
  split; [exact Hhost|]. split; [exact Hfree | vm_compute; reflexivity].
Defined.

(** The edit goes wrong on its two templates alone. *)
Lemma update_inventory_templates instance_ip password content :
  update_inventory instance_ip password content
  = match Re.parse_template 1 (host_template instance_ip) with
    | Err e => Err e
    | Ok host_items =>
      match Re.parse_template 1 (password_template password) with
      | Err e => Err e
      | Ok password_items =>
          Ok (Re.sub_with password_pattern
                (fun g v => Re.expand password_items g (g ++ v))
                (Re.sub_with host_pattern
                   (fun g v => Re.expand host_items g (g ++ v)) content))
      end
    end.
Proof.
  unfold update_inventory, Re.sub.
  destruct (Re.parse_template 1 (host_template instance_ip));
    reflexivity.
Qed.

(** X26.  Whether the edit fails does not depend on the inventory: when
    it fails, the address or the password holds a backslash, and the
    edit of every other inventory fails with the same error, also of one
    that has no field to replace. *)
Theorem edit_failure_ignores_inventory instance_ip password content e :
  update_inventory instance_ip password content = Err e ->
  (forallb (fun c => negb (ascii_eqb c backslash)) (instance_ip ++ password)
   = false) /\
  forall other, update_inventory instance_ip password other = Err e.
Proof.
  intros Herr. split.
  - destruct (forallb _ (instance_ip ++ password)) eqn:Hall; [|reflexivity].
    rewrite forallb_app in Hall. apply andb_true_iff in Hall as [Hip Hpw].
    exfalso. revert Herr. unfold update_inventory.
    unfold host_template, password_template.
    rewrite sub_literal by exact Hip.
    rewrite sub_literal; [discriminate|].
    unfold no_backslash. simpl. now rewrite forallb_app, Hpw.
  - intros other. rewrite update_inventory_templates in *.
    destruct (Re.parse_template 1 (host_template instance_ip));
      [|exact Herr].
    destruct (Re.parse_template 1 (password_template password));
      [discriminate | exact Herr].
Qed.

Lemma edit_failure_ignores_inventory_witness :
  exists e,
    update_inventory (txt "10.0.0.5") (txt "pa\qss") one_host = Err e /\
    update_inventory (txt "10.0.0.5") (txt "pa\qss") inventory_without_fields
    = Err e.
Proof.
  eexists. split; [vm_compute; reflexivity|].
  apply (@edit_failure_ignores_inventory
           (txt "10.0.0.5") (txt "pa\qss") one_host).
  vm_compute; reflexivity.
Defined.

Section Written.

Variable key : text.
Variable value : text -> option (text * text).
Variable p : Re.pattern.
Variable new : text.

Hypothesis pattern_field :
  forall bol s, Re.match_at p bol s = match_field key value bol s.
Hypothesis value_splits :
  forall s v rest, value s = Some (v, rest) -> s = v ++ rest.
Hypothesis value_ends :
  forall s v rest, value s = Some (v, rest) ->
  forall b g, Re.bol_after b (g ++ v) = false.
Hypothesis key_solid : solid key.
Hypothesis key_nonempty : key <> [].
Hypothesis value_not_key : forall X, value (key ++ X) = None.

Let F : bool -> text -> text := scan p (fun g _ => g ++ new).

Hypothesis value_stable :
  forall b t, value t = None -> value (F b t) = None.
Hypothesis new_nonempty : new <> [].
Hypothesis new_starts_solid : starts_solid new.
Hypothesis new_matches :
  forall s v rest b,
    value s = Some (v, rest) ->
    value (new ++ F b rest) = Some (new, F b rest).

(** After the scan the same fields are found, each with the replacement
    as its value. *)
Lemma values_written :
  forall n b s, length s = n ->
  values p b (F b s) = map (fun _ => new) (values p b s).
Proof.
  induction n as [n IH] using lt_wf_ind. intros b s Hn.
  destruct s as [|c s].
  - unfold F. now rewrite (scan_nil key value p _ pattern_field).
  - destruct (match_field key value b (c :: s)) as [[[g v] rest]|] eqn:Hm.
    + unfold F.
      rewrite (@F_match key value p new pattern_field value_splits
                 value_ends _ _ _ _ _ Hm).
      rewrite (@values_match key value p pattern_field value_splits
                 value_ends _ _ _ _ _
                 (@match_field_replaced key value p new pattern_field
                    value_splits key_solid key_nonempty value_stable
                    new_nonempty new_starts_solid new_matches _ _ _ _ _ Hm)).
      rewrite (@values_match key value p pattern_field value_splits
                 value_ends _ _ _ _ _ Hm).
      destruct (@match_field_shorter key value value_splits _ _ _ _ _ Hm)
        as (_ & Hlen).
      simpl. f_equal. apply (IH (length rest)); [subst n; exact Hlen|reflexivity].
    + unfold F.
      rewrite (@F_skip key value p new pattern_field _ _ _ Hm).
      rewrite (@values_skip key value p pattern_field _ _ _ Hm).
      rewrite (@values_skip key value p pattern_field).
      * apply (IH (length s)); [subst n; simpl; lia | reflexivity].
      * apply (@match_field_F key value p new pattern_field value_splits
                 value_ends key_solid key_nonempty key value key_solid
                 key_nonempty value_not_key value_stable); assumption.
Qed.

End Written.

Lemma Forall_map_const (A B : Type) (y : B) (l : list A) :
  Forall (eq y) (map (fun _ => y) l).
Proof. induction l; simpl; constructor; auto. Qed.

(** X27.  After an edit with a plain password, every [ansible_password]
    field that the pattern of the script finds in the edited inventory
    holds the password between double quotes: no field that the edit
    can see keeps its old value. *)
Theorem password_fields_hold_secret instance_ip password content edited :
  host_value instance_ip ->
  plain_secret password ->
  update_inventory instance_ip password content = Ok edited ->
  Forall (eq (dquote :: password ++ [dquote]))
    (replaced_values password_pattern edited).
Proof.
  intros Hip Hplain Hedit.
  rewrite update_inventory_scans in Hedit by assumption.
  injection Hedit as <-. destruct Hplain as (Hquote & _).
  change (replaced_values password_pattern ?s)
    with (values password_pattern true s).
  unfold password_scan.
  rewrite (@values_written key_password value_password password_pattern
             (dquote :: password ++ [dquote])
             match_at_password value_password_splits value_password_ends
             key_password_solid key_password_nonempty)
    with (n := length (host_scan instance_ip true content));
    try reflexivity.
  - apply Forall_map_const.
  - apply value_password_stable.
  - discriminate.
  - intros s0 v rest b0 Hv.
    change ((dquote :: password ++ [dquote]) ++ ?X)
      with (dquote :: (password ++ [dquote]) ++ X).
    rewrite <- app_assoc. simpl.
    now apply value_password_intro.
Qed.

Definition two_passwords : text :=
  txt "all:" ++ newline ::
  txt "  hosts:" ++ newline ::
  txt "    dc01:" ++ newline ::
  txt "      ansible_host: 10.0.0.1" ++ newline ::
  txt "      ansible_password: " ++ dquote :: txt "old" ++ dquote :: newline ::
  txt "    dc02:" ++ newline ::
  txt "      ansible_host: 10.0.0.2" ++ newline ::
  txt "      ansible_password: " ++ dquote :: txt "other" ++ [dquote; newline].

Lemma password_fields_hold_secret_witness :
  exists edited,
    update_inventory (txt "10.0.0.5") (txt "S3cret") two_passwords
    = Ok edited /\
    replaced_values password_pattern two_passwords
    = [dquote :: txt "old" ++ [dquote]; dquote :: txt "other" ++ [dquote]] /\
    Forall (eq (dquote :: txt "S3cret" ++ [dquote]))
      (replaced_values password_pattern edited).
Proof.
  eexists. split; [vm_compute; reflexivity|].
  split; [vm_compute; reflexivity|].
  apply (@password_fields_hold_secret
           (txt "10.0.0.5") (txt "S3cret") two_passwords).
  - split; [discriminate | reflexivity].
  - split; reflexivity.
  - vm_compute; reflexivity.
Defined.
